(** * reel_maker: the chat tool-calling core

    A shallow embedding of the JavaScript under [src/]:
      - [src/src/services/gemini.js] holds [services/gemini.js] (lines 1-346;
        [translateNarrationsBatch] at 219-239) and two revisions of
        [services/apiService.js].  The revision modelled is the later one,
        lines 348-620: [buildScriptContext] (373-381), [sendAssistantMessage]
        (517-603) and [tryParseScriptFromText] (606-620).
      - [src/src/components/YouTubeMetadata.js] holds [App.js] from line 115
        on: [initialScene] (142-149), [handleAssistantScript] (257-262),
        [handleChatTranslateNarrations] (343-359) and the [onChunk] of
        [handleChatSend] (379-386).
    The properties proved are those the specification states of this code.

    Modelling conventions.
      - A JavaScript value that comes from the model (tool-call arguments,
        parsed JSON) is a [JsVal].  Numbers are the integers: the tool schema
        declares [sceneNumber] as INTEGER and the code performs no fractional
        arithmetic; floating point is outside the model.  [String] prints an
        integer digit for digit as long as it is a safe integer (below 2^53
        in magnitude); a statement that depends on the printing of a number
        of the model is made for such numbers ([printsExactly]).
      - A string is the sequence of the bytes of its UTF-8 encoding, as a
        Rocq string literal is; [trim] strips the white space and the line
        terminators of ECMAScript, the ones beyond ASCII included.
      - A function that can throw returns a [Completion]; a [throw] is
        propagated by the monadic bind exactly as an uncaught exception is,
        and a [try]/[catch] is [tryCatch].
      - [await]ed remote calls are oracles: their outcome is an argument.
      - React state updates are applied at once, in the order they are
        issued; an exception raised by an updater function is reported as an
        exception of the handler that issued it. *)

From Stdlib Require Import ZArith String Ascii List Bool Lia DecimalString.
From stdpp Require Import base list.
Import ListNotations.
Open Scope string_scope.
Open Scope Z_scope.

Set Warnings "-register-all".

(** ** JavaScript values and coercions *)

Inductive JsVal : Type :=
| JUndef
| JNull
| JBool (b : bool)
| JNum (z : Z)
| JStr (s : string)
| JArr (elems : list JsVal)
| JObj (fields : list (string * JsVal)).

(** Opaque binary handles (image, audio, thumbnail). *)
Inductive Blob : Type :=
| BlobHandle (id : nat).

(** ToBoolean. *)
Definition truthy (v : JsVal) : bool :=
  match v with
  | JUndef | JNull => false
  | JBool b => b
  | JNum z => negb (z =? 0)
  | JStr s => negb (String.eqb s "")
  | JArr _ | JObj _ => true
  end.

(** [a || b] *)
Definition jsOr (a b : JsVal) : JsVal := if truthy a then a else b.

Definition nullish (v : JsVal) : bool :=
  match v with
  | JUndef | JNull => true
  | _ => false
  end.

(** [a ?? b] *)
Definition coalesce (a b : JsVal) : JsVal := if nullish a then b else a.

Fixpoint lookupField (k : string) (fields : list (string * JsVal)) : JsVal :=
  match fields with
  | [] => JUndef
  | (k', v) :: rest => if String.eqb k k' then v else lookupField k rest
  end.

(** [v.k] for a receiver that is neither [undefined] nor [null].  The keys the
    code reads ([name], [args], [scenes], [title], ...) are data keys: none of
    them is defined on the prototype of a string, number, boolean or array, so
    on such a receiver the read yields [undefined]. *)
Definition prop (v : JsVal) (k : string) : JsVal :=
  match v with
  | JObj fields => lookupField k fields
  | _ => JUndef
  end.

(** [v?.k] *)
Definition optProp (v : JsVal) (k : string) : JsVal :=
  if nullish v then JUndef else prop v k.

(** [Array.isArray(v)] *)
Definition isArray (v : JsVal) : bool :=
  match v with
  | JArr _ => true
  | _ => false
  end.

(** [v === 'lit'] *)
Definition isString (v : JsVal) (lit : string) : bool :=
  match v with
  | JStr s => String.eqb s lit
  | _ => false
  end.

(** Decimal rendering of an integer: what [String] gives for a number that
    is a safe integer (below 2^53 in magnitude). *)
Definition decimal (z : Z) : string := NilZero.string_of_int (Z.to_int z).

(** ToString, as performed by a template literal, [String(v)] and
    [Array.prototype.join]. *)
Fixpoint ToString (v : JsVal) : string :=
  match v with
  | JUndef => "undefined"
  | JNull => "null"
  | JBool true => "true"
  | JBool false => "false"
  | JNum z => decimal z
  | JStr s => s
  | JArr elems =>
      (fix joinComma (l : list JsVal) : string :=
         match l with
         | [] => ""
         | x :: rest =>
             let sx := if nullish x then "" else ToString x in
             match rest with
             | [] => sx
             | _ :: _ => sx ++ "," ++ joinComma rest
             end
         end) elems
  | JObj _ => "[object Object]"
  end.

(** ** Exceptions *)

Inductive Completion (A : Type) : Type :=
| Normal (a : A)
| Throw (e : JsVal).
Arguments Normal {A} a.
Arguments Throw {A} e.

Definition bind {A B : Type} (c : Completion A) (k : A -> Completion B) : Completion B :=
  match c with
  | Normal a => k a
  | Throw e => Throw e
  end.

(** [try { c } catch (err) { h err }] *)
Definition tryCatch {A : Type} (c : Completion A) (h : JsVal -> Completion A) : Completion A :=
  match c with
  | Normal a => Normal a
  | Throw e => h e
  end.

(** stdpp's monad notation [x ← c; k] for completions. *)
#[global] Instance Completion_ret : MRet Completion := fun A a => Normal a.
#[global] Instance Completion_bind : MBind Completion := fun A B k c => bind c k.

(** [new Error(msg)] and the [TypeError] of the engine: objects with a
    [message]. *)
Definition mkError (msg : string) : JsVal := JObj [("message", JStr msg)].

Definition typeError (msg : string) : JsVal := JObj [("message", JStr msg)].

(** ** Strings

    A string is the sequence of the bytes of its UTF-8 encoding. *)

Definition LF : string := String (ascii_of_nat 10) EmptyString.

(** The white space [String.prototype.trim] strips is the WhiteSpace and the
    LineTerminator of ECMAScript.  Encoded on one byte: U+0009 to U+000D and
    U+0020. *)
Definition isAsciiSpace (b : nat) : bool :=
  ((b =? 32) || ((9 <=? b) && (b <=? 13)))%nat.

(** On three bytes: U+1680 (E1 9A 80), U+2000 to U+200A (E2 80 80 to
    E2 80 8A), U+2028, U+2029 and U+202F (E2 80 A8, A9, AF), U+205F
    (E2 81 9F), U+3000 (E3 80 80) and U+FEFF (EF BB BF). *)
Definition isThreeByteSpace (b1 b2 b3 : nat) : bool :=
  (((b1 =? 225) && (b2 =? 154) && (b3 =? 128))
   || ((b1 =? 226) && (b2 =? 128)
       && (((128 <=? b3) && (b3 <=? 138)) || (b3 =? 168) || (b3 =? 169) || (b3 =? 175)))
   || ((b1 =? 226) && (b2 =? 129) && (b3 =? 159))
   || ((b1 =? 227) && (b2 =? 128) && (b3 =? 128))
   || ((b1 =? 239) && (b2 =? 187) && (b3 =? 191)))%nat.

(** The number of bytes of the white-space character [s] begins with, 0 when
    it begins with none.  On two bytes there is U+00A0 (C2 A0). *)
Definition spaceAt (s : string) : nat :=
  match s with
  | EmptyString => 0%nat
  | String c1 rest1 =>
      let b1 := nat_of_ascii c1 in
      if isAsciiSpace b1 then 1%nat
      else
        match rest1 with
        | EmptyString => 0%nat
        | String c2 rest2 =>
            let b2 := nat_of_ascii c2 in
            if ((b1 =? 194) && (b2 =? 160))%nat then 2%nat
            else
              match rest2 with
              | EmptyString => 0%nat
              | String c3 _ =>
                  if isThreeByteSpace b1 b2 (nat_of_ascii c3) then 3%nat else 0%nat
              end
        end
  end.

(** [s.trimStart()]; [skip] is the number of bytes of the current white-space
    character that remain to be dropped. *)
Fixpoint trimStartFrom (skip : nat) (s : string) : string :=
  match s with
  | EmptyString => EmptyString
  | String _ rest =>
      match skip with
      | S k => trimStartFrom k rest
      | O =>
          match spaceAt s with
          | O => s
          | S k => trimStartFrom k rest
          end
      end
  end.

Definition trimStart (s : string) : string := trimStartFrom 0 s.

(** The string is made of white space only. *)
Fixpoint blankFrom (skip : nat) (s : string) : bool :=
  match s with
  | EmptyString => true
  | String _ rest =>
      match skip with
      | S k => blankFrom k rest
      | O =>
          match spaceAt s with
          | O => false
          | S k => blankFrom k rest
          end
      end
  end.

Definition blank (s : string) : bool := blankFrom 0 s.

(** [s.trimEnd()]: what remains is cut where only white space follows.  (A
    suffix that begins inside a character begins with a continuation byte,
    and no white space does.) *)
Fixpoint trimEnd (s : string) : string :=
  match s with
  | EmptyString => EmptyString
  | String c rest => if blank s then EmptyString else String c (trimEnd rest)
  end.

(** [s.trim()] *)
Definition trim (s : string) : string := trimEnd (trimStart s).

(** U+00A0 and U+FEFF, for examples. *)
Definition NBSP : string := String (ascii_of_nat 194) (String (ascii_of_nat 160) EmptyString).

Definition BOM : string :=
  String (ascii_of_nat 239) (String (ascii_of_nat 187) (String (ascii_of_nat 191) EmptyString)).

(** [lines.join(sep)] on strings. *)
Fixpoint join (sep : string) (lines : list string) : string :=
  match lines with
  | [] => ""
  | x :: rest =>
      match rest with
      | [] => x
      | _ :: _ => x ++ sep ++ join sep rest
      end
  end.

(** Length of the match of [/```json\n?|\n?```/] anchored at the start of [s]
    (0 when it does not match there).  The first alternative is tried first;
    in the second one the optional line feed is taken when the fence follows
    it. *)
Definition fenceAt (s : string) : nat :=
  if String.prefix "```json" s then
    if String.prefix ("```json" ++ LF) s then 8%nat else 7%nat
  else if String.prefix (LF ++ "```") s then 4%nat
  else if String.prefix "```" s then 3%nat
  else 0%nat.

(** [s.replace(/```json\n?|\n?```/g, '')]: a left-to-right scan; [skip] is the
    number of characters of the current match that remain to be dropped. *)
Fixpoint stripFencesFrom (skip : nat) (s : string) : string :=
  match s with
  | EmptyString => EmptyString
  | String c rest =>
      match skip with
      | S k => stripFencesFrom k rest
      | O =>
          match fenceAt s with
          | O => String c (stripFencesFrom 0 rest)
          | S k => stripFencesFrom k rest
          end
      end
  end.

Definition stripFences (s : string) : string := stripFencesFrom 0 s.

Definition isOpenBracket (c : ascii) : bool := (nat_of_ascii c =? 91)%nat.
Definition isCloseBracket (c : ascii) : bool := (nat_of_ascii c =? 93)%nat.

(** The prefix of [s] that ends at its last closing bracket. *)
Fixpoint throughLastClose (s : string) : option string :=
  match s with
  | EmptyString => None
  | String c rest =>
      match throughLastClose rest with
      | Some kept => Some (String c kept)
      | None => if isCloseBracket c then Some (String c EmptyString) else None
      end
  end.

(** [s.match(/\[[\s\S]*\]/)]: the leftmost opening bracket from which a match
    exists, extended greedily to the last closing bracket; [None] is [null].
    If no closing bracket follows the first opening bracket, none follows a
    later one either. *)
Fixpoint matchBracketed (s : string) : option string :=
  match s with
  | EmptyString => None
  | String c rest =>
      if isOpenBracket c then
        match throughLastClose rest with
        | Some kept => Some (String c kept)
        | None => None
        end
      else matchBracketed rest
  end.

(** ** Scenes and the context block ([apiService.js], [buildScriptContext]) *)

Record Scene : Type := mkScene {
  sceneNumber : JsVal;
  description : JsVal;
  narration : JsVal;
  narrationTranslated : JsVal;
  imageBlob : option Blob;
  audioBlob : option Blob
}.

(** [{ ...s, narrationTranslated: v }] *)
Definition withTranslated (s : Scene) (v : JsVal) : Scene :=
  {| sceneNumber := sceneNumber s;
     description := description s;
     narration := narration s;
     narrationTranslated := v;
     imageBlob := imageBlob s;
     audioBlob := audioBlob s |}.

(** The block before the optional translated line. *)
Definition baseBlock (s : Scene) : string :=
  "Scene " ++ ToString (sceneNumber s) ++ ":" ++ LF
  ++ "  Description: " ++ ToString (jsOr (description s) (JStr "(none)")) ++ LF
  ++ "  Narration (original): " ++ ToString (jsOr (narration s) (JStr "(none)")).

Definition translatedLine (t : string) : string :=
  LF ++ "  Narration (translated): " ++ t.

Definition sceneBlock (s : Scene) : string :=
  let block := baseBlock s in
  if truthy (narrationTranslated s)
  then block ++ translatedLine (ToString (narrationTranslated s))
  else block.

Definition buildScriptContext (scenes : list Scene) : string :=
  match scenes with
  | [] => ""
  | _ :: _ => "CURRENT SCRIPT:" ++ LF ++ LF ++ join (LF ++ LF) (map sceneBlock scenes)
  end.

(** ** Sequencing with exceptions *)

(** [for (const x of l) { a = f(a, x) }] *)
Fixpoint foldM {A B : Type} (f : A -> B -> Completion A) (a : A) (l : list B) : Completion A :=
  match l with
  | [] => Normal a
  | x :: rest => a' ← f a x; foldM f a' rest
  end.

(** [l.map(f)] for an [f] that can throw. *)
Fixpoint mapM {A B : Type} (f : A -> Completion B) (l : list A) : Completion (list B) :=
  match l with
  | [] => Normal []
  | x :: rest => y ← f x; ys ← mapM f rest; Normal (y :: ys)
  end.

(** [v.k] for any receiver: a [TypeError] on [undefined] and [null]. *)
Definition member (v : JsVal) (k : string) : Completion JsVal :=
  if nullish v
  then Throw (typeError ("Cannot read properties of " ++ ToString v
                         ++ " (reading '" ++ k ++ "')"))
  else Normal (prop v k).

(** ** The host application ([App.js]) *)

Inductive Role : Type :=
| User
| Assistant.

Record ChatMessage : Type := mkChatMessage {
  role : Role;
  content : string
}.

Record AppState : Type := mkAppState {
  scenes : list Scene;
  projectName : option string;
  showTranslated : bool;
  youtubeTitle : JsVal;
  youtubeDescription : JsVal;
  youtubeThumbnailBlob : option Blob;
  chatMessages : list ChatMessage
}.

Definition setScenes (v : list Scene) (st : AppState) : AppState :=
  {| scenes := v; projectName := projectName st; showTranslated := showTranslated st;
     youtubeTitle := youtubeTitle st; youtubeDescription := youtubeDescription st;
     youtubeThumbnailBlob := youtubeThumbnailBlob st; chatMessages := chatMessages st |}.

Definition setProjectName (v : string) (st : AppState) : AppState :=
  {| scenes := scenes st; projectName := Some v; showTranslated := showTranslated st;
     youtubeTitle := youtubeTitle st; youtubeDescription := youtubeDescription st;
     youtubeThumbnailBlob := youtubeThumbnailBlob st; chatMessages := chatMessages st |}.

Definition setShowTranslated (v : bool) (st : AppState) : AppState :=
  {| scenes := scenes st; projectName := projectName st; showTranslated := v;
     youtubeTitle := youtubeTitle st; youtubeDescription := youtubeDescription st;
     youtubeThumbnailBlob := youtubeThumbnailBlob st; chatMessages := chatMessages st |}.

Definition setYoutubeTitle (v : JsVal) (st : AppState) : AppState :=
  {| scenes := scenes st; projectName := projectName st; showTranslated := showTranslated st;
     youtubeTitle := v; youtubeDescription := youtubeDescription st;
     youtubeThumbnailBlob := youtubeThumbnailBlob st; chatMessages := chatMessages st |}.

Definition setYoutubeDescription (v : JsVal) (st : AppState) : AppState :=
  {| scenes := scenes st; projectName := projectName st; showTranslated := showTranslated st;
     youtubeTitle := youtubeTitle st; youtubeDescription := v;
     youtubeThumbnailBlob := youtubeThumbnailBlob st; chatMessages := chatMessages st |}.

Definition setYoutubeThumbnailBlob (v : Blob) (st : AppState) : AppState :=
  {| scenes := scenes st; projectName := projectName st; showTranslated := showTranslated st;
     youtubeTitle := youtubeTitle st; youtubeDescription := youtubeDescription st;
     youtubeThumbnailBlob := Some v; chatMessages := chatMessages st |}.

Definition setChatMessages (v : list ChatMessage) (st : AppState) : AppState :=
  {| scenes := scenes st; projectName := projectName st; showTranslated := showTranslated st;
     youtubeTitle := youtubeTitle st; youtubeDescription := youtubeDescription st;
     youtubeThumbnailBlob := youtubeThumbnailBlob st; chatMessages := v |}.

(** [initialScene(item)]; reading a field of a [null] or [undefined] item
    throws. *)
Definition initialScene (item : JsVal) : Completion Scene :=
  n ← member item "sceneNumber";
  d ← member item "description";
  o ← member item "narration";
  t ← member item "narrationTranslated";
  Normal {| sceneNumber := coalesce n (JNum 0);
            description := coalesce d (JStr "");
            narration := coalesce o (JStr "");
            narrationTranslated := coalesce t (JStr "");
            imageBlob := None;
            audioBlob := None |}.

(** [translatedNarrations[i]] *)
Definition elemAt (l : list JsVal) (i : nat) : JsVal := default JUndef (l !! i).

(** The updater of the flat form:
    [prev.map((s, i) => ({ ...s, narrationTranslated: tn[i] ?? '' }))]. *)
Definition flatOverlay (tn : list JsVal) (prev : list Scene) : list Scene :=
  imap (fun i s => withTranslated s (coalesce (elemAt tn i) (JStr ""))) prev.

Section Host.

(** Conversion of a string to a number: the integer it denotes, [None] when
    the result is [NaN], infinite or not an integer. *)
Variable StringToNumber : string -> option Z.

(** [getProjectName()], which reads the clock. *)
Variable getProjectName : string.

(** ToNumber, with the same reading of [None]. *)
Definition ToNumber (v : JsVal) : option Z :=
  match v with
  | JUndef => None
  | JNull => Some 0
  | JBool true => Some 1
  | JBool false => Some 0
  | JNum z => Some z
  | JStr s => StringToNumber s
  | JArr _ | JObj _ => StringToNumber (ToString v)
  end.

(** One iteration of the loop of the sparse form.  When the index is not an
    integer the assignment [next[idx] = ...] creates a property that is not
    an element, and no scene changes. *)
Definition sparseStep (next : list Scene) (s : JsVal) : Completion (list Scene) :=
  num ← member s "sceneNumber";
  match ToNumber (jsOr num (JNum 0)) with
  | Some n =>
      let idx := n - 1 in
      if (0 <=? idx) && (idx <? Z.of_nat (length next)) then
        match next !! Z.to_nat idx with
        | Some cur =>
            Normal (<[Z.to_nat idx := withTranslated cur (coalesce (prop s "narration") (JStr ""))]> next)
        | None => Normal next
        end
      else Normal next
  | None => Normal next
  end.

(** The updater of the sparse form. *)
Definition sparseOverlay (entries : list JsVal) (prev : list Scene) : Completion (list Scene) :=
  foldM sparseStep (map (fun s => withTranslated s (JStr "")) prev) entries.

(** What [handleChatTranslateNarrations(args)] does to the scene list;
    [None] is the early [return]. *)
Definition translateScenes (args : JsVal) (prev : list Scene) : Completion (option (list Scene)) :=
  tn ← member args "translatedNarrations";
  match tn with
  | JArr ((_ :: _) as l) => Normal (Some (flatOverlay l prev))
  | _ =>
      match prop args "scenes" with
      | JArr ((_ :: _) as entries) => next ← sparseOverlay entries prev; Normal (Some next)
      | _ => Normal None
      end
  end.

Definition handleChatTranslateNarrations (args : JsVal) (st : AppState) : Completion AppState :=
  r ← translateScenes args (scenes st);
  match r with
  | Some next => Normal (setShowTranslated true (setScenes next st))
  | None => Normal st
  end.

Definition handleAssistantScript (args : JsVal) (st : AppState) : Completion AppState :=
  match optProp args "scenes" with
  | JArr items =>
      normalized ← mapM initialScene items;
      Normal (setProjectName getProjectName (setScenes normalized st))
  | _ => Normal st
  end.

(** The [onChunk] of [handleChatSend]: the text replaces the content of the
    last message when that message is the assistant's. *)
Definition onChunkApp (text : string) (st : AppState) : Completion AppState :=
  let prev := chatMessages st in
  match last prev with
  | Some m =>
      match role m with
      | Assistant =>
          Normal (setChatMessages
                    (<[Nat.pred (length prev) := {| role := role m; content := text |}]> prev) st)
      | User => Normal st
      end
  | None => Normal st
  end.

End Host.

(** ** The assistant turn ([apiService.js]) *)

Record Part : Type := mkPart {
  part_text : JsVal;
  part_functionCall : JsVal
}.

(** What the code reads of the response of [chat.sendMessage]: the
    [functionCalls] getter ([None] when it yields [undefined]) and
    [candidates?.[0]?.content?.parts] ([None] when a link is missing). *)
Record Response : Type := mkResponse {
  resp_functionCalls : option (list JsVal);
  resp_parts : option (list Part)
}.

Record TurnResult : Type := mkTurnResult {
  text : string;
  functionCalled : bool
}.

(** The callbacks handed to [sendAssistantMessage], acting on a host state
    [H]; the ones invoked with [?.] may be missing. *)
Record Callbacks (H : Type) : Type := mkCallbacks {
  onScript : JsVal -> H -> Completion H;
  onChunk : option (string -> H -> Completion H);
  onTranslateNarrations : option (JsVal -> H -> Completion H);
  onYouTubeTitle : option (JsVal -> H -> Completion H);
  onYouTubeDescription : option (JsVal -> H -> Completion H);
  onYouTubeThumbnail : option (Blob -> H -> Completion H)
}.
Arguments onScript {H} _.
Arguments onChunk {H} _.
Arguments onTranslateNarrations {H} _.
Arguments onYouTubeTitle {H} _.
Arguments onYouTubeDescription {H} _.
Arguments onYouTubeThumbnail {H} _.

(** [cb?.(x)] *)
Definition optCall {X H : Type} (cb : option (X -> H -> Completion H)) (x : X) (h : H) : Completion H :=
  match cb with
  | Some f => f x h
  | None => Normal h
  end.

(** The state of the dispatch loop: the host state the callbacks have
    produced so far, [confirmText], and the number of thumbnail generations
    already requested in this turn. *)
Record Dispatch (H : Type) : Type := mkDispatch {
  host : H;
  confirmText : string;
  generations : nat
}.
Arguments mkDispatch {H} _ _ _.
Arguments host {H} _.
Arguments confirmText {H} _.
Arguments generations {H} _.

(** [Array.isArray(parsed) ? parsed : [parsed]] *)
Definition asArray (parsed : JsVal) : list JsVal :=
  match parsed with
  | JArr l => l
  | _ => [parsed]
  end.

(** [a || b] on strings. *)
Definition orElse (a b : string) : string := if String.eqb a "" then b else a.

(** [confirmText = confirmText || sentence] after the callbacks left the host
    in [h]. *)
Definition confirm {H : Type} (st : Dispatch H) (h : H) (sentence : string) : Dispatch H :=
  mkDispatch h (orElse (confirmText st) sentence) (generations st).

Definition scriptSentence : string :=
  "I've added the script to your scene editor. You can review and edit it there, then generate images and audio for each scene.".

Definition translateSentence (targetLanguage : JsVal) : string :=
  "I've translated the narrations to " ++ ToString targetLanguage ++ ". The narration boxes are updated.".

Definition titleSentence : string :=
  "I've generated a YouTube title. Check the YouTube metadata section.".

Definition descriptionSentence : string :=
  "I've generated a YouTube description. Check the YouTube metadata section.".

Definition thumbnailSentence : string :=
  "Thumbnail generated and displayed in the YouTube metadata section.".

(** [`Thumbnail generation failed: ${err?.message || 'Unknown error'}.`] *)
Definition failureSentence (err : JsVal) : string :=
  "Thumbnail generation failed: "
  ++ ToString (jsOr (optProp err "message") (JStr "Unknown error")) ++ ".".

(** [args.prompt && args.prompt.trim() ? args.prompt.trim() : scriptSummary];
    [trim] exists on strings only. *)
Definition thumbnailPrompt (p : JsVal) (scriptSummary : string) : Completion string :=
  if truthy p then
    match p with
    | JStr s => Normal (orElse (trim s) scriptSummary)
    | _ => Throw (typeError "args.prompt.trim is not a function")
    end
  else Normal scriptSummary.

(** [const name = fc?.name] *)
Definition callName (fc : JsVal) : JsVal := optProp fc "name".

(** [const args = fc?.args || {}] *)
Definition callArgs (fc : JsVal) : JsVal := jsOr (optProp fc "args") (JObj []).

(** [tier === 'expensive' ? 'gemini-3-pro-image-preview' : 'gemini-2.5-flash-image']
    for [tier = args.modelTier || args.imageModel || 'cheap']. *)
Definition thumbnailModelId (args : JsVal) : string :=
  let tier := jsOr (jsOr (prop args "modelTier") (prop args "imageModel")) (JStr "cheap") in
  if isString tier "expensive" then "gemini-3-pro-image-preview"
  else "gemini-2.5-flash-image".

(** [buildScriptContext(scenes) || 'Short video reel.'] *)
Definition scriptSummaryOf (scenes : list Scene) : string :=
  orElse (buildScriptContext scenes) "Short video reel.".

(** [(scenes || []).map((s) => s.imageBlob).filter(Boolean)] *)
Definition sceneImageBlobs (scenes : list Scene) : list Blob := omap imageBlob scenes.

Section Assistant.

Context {H : Type}.

(** [JSON.parse], which throws on text that is not JSON. *)
Variable JSON_parse : string -> Completion JsVal.

Variable cb : Callbacks H.

(** [genThumbnail(prompt, sceneBlobs, modelId)], the remote image generation:
    the first argument is the number of generations requested earlier in the
    turn, so that two requests need not have the same outcome. *)
Variable genThumbnail : nat -> string -> list Blob -> string -> Completion Blob.

(** The script the caller passed in: a snapshot, not updated by the
    callbacks during the turn. *)
Variable scenes0 : list Scene.

(** The body of [for (const fc of functionCalls)]. *)
Definition dispatchCall (st : Dispatch H) (fc : JsVal) : Completion (Dispatch H) :=
  let name := callName fc in
  let args := callArgs fc in
  if isString name "generateMovieScript" && truthy (prop args "scenes") then
    h ← onScript cb args (host st);
    Normal (confirm st h scriptSentence)
  else if isString name "translateNarrations" && truthy (prop args "targetLanguage") then
    h ← (if isArray (prop args "translatedNarrations") then
           optCall (onTranslateNarrations cb)
             (JObj [("targetLanguage", prop args "targetLanguage");
                    ("translatedNarrations", prop args "translatedNarrations")])
             (host st)
         else if isArray (prop args "scenes") then
           optCall (onTranslateNarrations cb) args (host st)
         else Normal (host st));
    Normal (confirm st h (translateSentence (prop args "targetLanguage")))
  else if isString name "generateYouTubeTitle" && truthy (prop args "title") then
    h ← optCall (onYouTubeTitle cb) (prop args "title") (host st);
    Normal (confirm st h titleSentence)
  else if isString name "generateYouTubeDescription" && truthy (prop args "description") then
    h ← optCall (onYouTubeDescription cb) (prop args "description") (host st);
    Normal (confirm st h descriptionSentence)
  else if isString name "generateYouTubeThumbnail" then
    let modelId := thumbnailModelId args in
    let scriptSummary := scriptSummaryOf scenes0 in
    prompt ← thumbnailPrompt (prop args "prompt") scriptSummary;
    let sceneBlobs := sceneImageBlobs scenes0 in
    let st' := mkDispatch (host st) (confirmText st) (S (generations st)) in
    tryCatch
      (blob ← genThumbnail (generations st) prompt sceneBlobs modelId;
       h ← optCall (onYouTubeThumbnail cb) blob (host st);
       Normal (confirm st' h thumbnailSentence))
      (fun err => Normal (confirm st' (host st) (failureSentence err)))
  else Normal st.

(** The loop over the batch, from a given loop state. *)
Definition dispatchFrom (st : Dispatch H) (functionCalls : list JsVal) : Completion (Dispatch H) :=
  foldM dispatchCall st functionCalls.

(** The loop as the turn runs it: [let confirmText = ''] and the host state at
    the start of the turn. *)
Definition dispatch (functionCalls : list JsVal) (h : H) : Completion (Dispatch H) :=
  dispatchFrom (mkDispatch h "" 0) functionCalls.

(** The filter of the fallback: [s && (s.description || s.narration)]. *)
Definition sceneLike (s : JsVal) : bool :=
  truthy s && (truthy (prop s "description") || truthy (prop s "narration")).

(** [tryParseScriptFromText(text)]; [None] is [null], the result is the
    object [{ scenes }]. *)
Definition tryParseScriptFromText (text : string) : option JsVal :=
  if String.eqb (trim text) "" then None
  else
    let cleaned := trim (stripFences text) in
    match matchBracketed cleaned with
    | None => None
    | Some matched =>
        match JSON_parse matched with
        | Throw _ => None
        | Normal parsed =>
            let arr := asArray parsed in
            match List.filter sceneLike arr with
            | [] => None
            | (_ :: _) as found => Some (JObj [("scenes", JArr found)])
            end
        end
    end.

(** The function calls of the response: the getter, or else the
    [functionCall] of the parts. *)
Definition functionCallsOf (response : Response) : list JsVal :=
  match resp_functionCalls response with
  | Some ((_ :: _) as calls) => calls
  | _ =>
      let parts := default [] (resp_parts response) in
      List.filter truthy
        (map part_functionCall (List.filter (fun p => truthy (part_functionCall p)) parts))
  end.

(** The text of the response:
    [parts?.map((p) => p.text).filter(Boolean).join('').trim() || '']. *)
Definition textOf (response : Response) : string :=
  match resp_parts response with
  | None => ""
  | Some parts =>
      trim (join "" (map ToString (List.filter truthy (map part_text parts))))
  end.

(** [sendAssistantMessage] from the response of [chat.sendMessage] on; the
    request (context block, anchor images) is built before it and is not part
    of what follows. *)
Definition sendAssistantMessage (response : Response) (h : H) : Completion (H * TurnResult) :=
  let functionCalls := functionCallsOf response in
  let text := textOf response in
  match functionCalls with
  | _ :: _ =>
      st ← dispatch functionCalls h;
      h' ← optCall (onChunk cb) (confirmText st) (host st);
      Normal (h', {| text := confirmText st; functionCalled := true |})
  | [] =>
      match tryParseScriptFromText text with
      | Some parsed =>
          h1 ← onScript cb parsed h;
          h2 ← optCall (onChunk cb) scriptSentence h1;
          Normal (h2, {| text := "I've added the script to your scene editor.";
                         functionCalled := true |})
      | None =>
          h' ← optCall (onChunk cb) text h;
          Normal (h', {| text := text; functionCalled := false |})
      end
  end.

End Assistant.

(** The callbacks [handleChatSend] passes. *)
Definition appCallbacks (StringToNumber : string -> option Z) (getProjectName : string)
  : Callbacks AppState :=
  {| onScript := handleAssistantScript getProjectName;
     onChunk := Some onChunkApp;
     onTranslateNarrations := Some (handleChatTranslateNarrations StringToNumber);
     onYouTubeTitle := Some (fun v st => Normal (setYoutubeTitle v st));
     onYouTubeDescription := Some (fun v st => Normal (setYoutubeDescription v st));
     onYouTubeThumbnail := Some (fun b st => Normal (setYoutubeThumbnailBlob b st)) |}.

(** ** Batch translation ([gemini.js], [translateNarrationsBatch]) *)

(** [narrations.map((n, i) => `${i + 1}. ${n}`).join('\n')] *)
Definition numberedLines (narrations : list JsVal) : string :=
  join LF (imap (fun i n => decimal (Z.of_nat i + 1) ++ ". " ++ ToString n) narrations).

Definition translationPrompt (narrations : list JsVal) (targetLanguageLabel : string) : string :=
  "You are a professional translator. Translate the following narration lines into "
  ++ targetLanguageLabel
  ++ ". Preserve meaning and tone. Keep bracketed TTS/emotional tags (e.g. [excited], [whispering]) exactly unchanged. Do not add any commentary—return ONLY a valid JSON array of strings in the same order and length as the input."
  ++ LF ++ LF ++ "Narrations:" ++ LF ++ numberedLines narrations.

(** [typeof s === 'string' ? s : String(s ?? '')] *)
Definition asString (s : JsVal) : string :=
  match s with
  | JStr x => x
  | _ => ToString (coalesce s (JStr ""))
  end.

Definition mismatchMessage (got expected : nat) : string :=
  "Translation returned " ++ decimal (Z.of_nat got) ++ " items, expected "
  ++ decimal (Z.of_nat expected).

Section Translation.

Variable JSON_parse : string -> Completion JsVal.

(** Whether the API key is configured ([ai] is not [null]). *)
Variable ai : bool.

(** [ai.models.generateContent] for a model and a prompt: it rejects, or
    resolves to a response of which the code reads
    [candidates?.[0]?.content?.parts?.[0]?.text] ([None] when missing). *)
Variable generateContent : string -> string -> Completion (option string).

Definition translateNarrationsBatch (narrations : list JsVal) (targetLanguageLabel : string)
  : Completion (list string) :=
  if negb ai then Throw (mkError "API key not configured")
  else
    match narrations with
    | [] => Normal []
    | _ :: _ =>
        response ← generateContent "gemini-2.5-flash"
                     (translationPrompt narrations targetLanguageLabel);
        match trim <$> response with
        | None => Throw (mkError "No translation response")
        | Some text =>
            if String.eqb text "" then Throw (mkError "No translation response")
            else
              let cleaned := trim (stripFences text) in
              parsed ← tryCatch (JSON_parse cleaned)
                         (fun _ => Throw (mkError "Translation did not return valid JSON array"));
              let arr := asArray parsed in
              if negb (length arr =? length narrations)%nat
              then Throw (mkError (mismatchMessage (length arr) (length narrations)))
              else Normal (map asString arr)
        end
    end.

End Translation.

(** ** A reader for JSON text

    [jsonParse] reads the JSON texts whose values are [JsVal]s: number
    literals are integers (a fraction or an exponent is not read) and a
    [\u] escape denotes an ASCII character.  It is the [JSON.parse] the
    examples run with; the theorems hold for every [JSON_parse]. *)

Definition DQ : ascii := ascii_of_nat 34.
Definition BSL : ascii := ascii_of_nat 92.


Definition isJsonSpace (c : ascii) : bool :=
  let n := nat_of_ascii c in
  ((n =? 32) || (n =? 9) || (n =? 10) || (n =? 13))%nat.

Fixpoint skipWs (s : string) : string :=
  match s with
  | EmptyString => EmptyString
  | String c rest => if isJsonSpace c then skipWs rest else s
  end.

Definition hexDigit (c : ascii) : option nat :=
  let n := nat_of_ascii c in
  if ((48 <=? n) && (n <=? 57))%nat then Some (n - 48)%nat
  else if ((97 <=? n) && (n <=? 102))%nat then Some (n - 87)%nat
  else if ((65 <=? n) && (n <=? 70))%nat then Some (n - 55)%nat
  else None.

Definition simpleEscape (c : ascii) : option ascii :=
  let n := nat_of_ascii c in
  if (n =? 34)%nat then Some DQ
  else if (n =? 92)%nat then Some BSL
  else if (n =? 47)%nat then Some (ascii_of_nat 47)
  else if (n =? 98)%nat then Some (ascii_of_nat 8)
  else if (n =? 102)%nat then Some (ascii_of_nat 12)
  else if (n =? 110)%nat then Some (ascii_of_nat 10)
  else if (n =? 114)%nat then Some (ascii_of_nat 13)
  else if (n =? 116)%nat then Some (ascii_of_nat 9)
  else None.

(** The characters of a string literal after its opening quote, and what
    follows the closing quote. *)
Fixpoint readString (s : string) : option (string * string) :=
  match s with
  | EmptyString => None
  | String c rest =>
      if Ascii.eqb c DQ then Some (EmptyString, rest)
      else if Ascii.eqb c BSL then
        match rest with
        | String e rest1 =>
            if (nat_of_ascii e =? 117)%nat then
              match rest1 with
              | String h1 (String h2 (String h3 (String h4 rest2))) =>
                  match hexDigit h1, hexDigit h2, hexDigit h3, hexDigit h4 with
                  | Some 0%nat, Some 0%nat, Some d3, Some d4 =>
                      if (d3 <? 8)%nat then
                        '(str, out) ← readString rest2;
                        Some (String (ascii_of_nat (16 * d3 + d4)) str, out)
                      else None
                  | _, _, _, _ => None
                  end
              | _ => None
              end
            else
              ch ← simpleEscape e;
              '(str, out) ← readString rest1;
              Some (String ch str, out)
        | EmptyString => None
        end
      else if (nat_of_ascii c <? 32)%nat then None
      else
        '(str, out) ← readString rest;
        Some (String c str, out)
  end.

Definition isDigit (c : ascii) : bool :=
  let n := nat_of_ascii c in ((48 <=? n) && (n <=? 57))%nat.

(** The value of a run of digits continuing [acc], and what follows. *)
Fixpoint readDigits (acc : Z) (s : string) : Z * string :=
  match s with
  | EmptyString => (acc, EmptyString)
  | String c rest =>
      if isDigit c then readDigits (10 * acc + Z.of_nat (nat_of_ascii c - 48)) rest
      else (acc, s)
  end.

Definition startsFraction (s : string) : bool :=
  match s with
  | String c _ =>
      let n := nat_of_ascii c in ((n =? 46) || (n =? 101) || (n =? 69))%nat
  | EmptyString => false
  end.

(** An integer literal without its sign: [0] or a run of digits that does
    not start with [0]. *)
Definition readNatural (s : string) : option (Z * string) :=
  match s with
  | String c rest =>
      if (nat_of_ascii c =? 48)%nat then
        if startsFraction rest then None else Some (0, rest)
      else if isDigit c then
        let '(z, out) := readDigits 0 s in
        if startsFraction out then None else Some (z, out)
      else None
  | EmptyString => None
  end.

(** [setField k v fields]: a repeated key keeps its last value. *)
Fixpoint setField (k : string) (v : JsVal) (fields : list (string * JsVal)) : list (string * JsVal) :=
  match fields with
  | [] => [(k, v)]
  | (k', v') :: rest =>
      if String.eqb k k' then (k, v) :: rest else (k', v') :: setField k v rest
  end.

Definition stripPrefix (p s : string) : option string :=
  if String.prefix p s then Some (String.substring (String.length p) (String.length s - String.length p) s)
  else None.

Fixpoint readValue (fuel : nat) (s : string) : option (JsVal * string) :=
  match fuel with
  | O => None
  | S fuel' =>
      match skipWs s with
      | EmptyString => None
      | (String c rest) as s1 =>
          let n := nat_of_ascii c in
          if (n =? 34)%nat then
            '(str, out) ← readString rest; Some (JStr str, out)
          else if (n =? 91)%nat then
            match skipWs rest with
            | (String c2 rest2) as s2 =>
                if isCloseBracket c2 then Some (JArr [], rest2)
                else '(vs, out) ← readElements fuel' s2; Some (JArr vs, out)
            | EmptyString => None
            end
          else if (n =? 123)%nat then
            match skipWs rest with
            | (String c2 rest2) as s2 =>
                if (nat_of_ascii c2 =? 125)%nat then Some (JObj [], rest2)
                else '(fs, out) ← readMembers fuel' [] s2; Some (JObj fs, out)
            | EmptyString => None
            end
          else if (n =? 45)%nat then
            '(z, out) ← readNatural rest; Some (JNum (- z), out)
          else if isDigit c then
            '(z, out) ← readNatural s1; Some (JNum z, out)
          else
            match stripPrefix "null" s1, stripPrefix "true" s1, stripPrefix "false" s1 with
            | Some out, _, _ => Some (JNull, out)
            | _, Some out, _ => Some (JBool true, out)
            | _, _, Some out => Some (JBool false, out)
            | _, _, _ => None
            end
      end
  end
with readElements (fuel : nat) (s : string) : option (list JsVal * string) :=
  match fuel with
  | O => None
  | S fuel' =>
      '(v, out) ← readValue fuel' s;
      match skipWs out with
      | String c rest =>
          if (nat_of_ascii c =? 44)%nat then
            '(vs, out') ← readElements fuel' rest; Some (v :: vs, out')
          else if isCloseBracket c then Some ([v], rest)
          else None
      | EmptyString => None
      end
  end
with readMembers (fuel : nat) (acc : list (string * JsVal)) (s : string)
  : option (list (string * JsVal) * string) :=
  match fuel with
  | O => None
  | S fuel' =>
      match skipWs s with
      | String c rest =>
          if Ascii.eqb c DQ then
            '(k, out) ← readString rest;
            match skipWs out with
            | String c1 rest1 =>
                if (nat_of_ascii c1 =? 58)%nat then
                  '(v, out1) ← readValue fuel' rest1;
                  let acc' := setField k v acc in
                  match skipWs out1 with
                  | String c2 rest2 =>
                      if (nat_of_ascii c2 =? 44)%nat then readMembers fuel' acc' rest2
                      else if (nat_of_ascii c2 =? 125)%nat then Some (acc', rest2)
                      else None
                  | EmptyString => None
                  end
                else None
            | EmptyString => None
            end
          else None
      | EmptyString => None
      end
  end.

Definition jsonParse (s : string) : Completion JsVal :=
  match readValue (2 * String.length s + 2) s with
  | Some (v, out) =>
      match skipWs out with
      | EmptyString => Normal v
      | String _ _ => Throw (mkError "Unexpected non-whitespace character after JSON")
      end
  | None => Throw (mkError "Unexpected token in JSON")
  end.

(** ** Notions of the specification *)

(** Two scenes with the same text fields; their blobs may differ. *)
Definition sameText (a b : Scene) : Prop :=
  sceneNumber a = sceneNumber b /\ description a = description b
  /\ narration a = narration b /\ narrationTranslated a = narrationTranslated b.

(** Two scenes that agree on every field but [narrationTranslated]. *)
Definition sameFrame (a b : Scene) : Prop :=
  sceneNumber a = sceneNumber b /\ description a = description b
  /\ narration a = narration b /\ imageBlob a = imageBlob b
  /\ audioBlob a = audioBlob b.

(** An entry [{sceneNumber, narration}] of the sparse form names the scene at
    position [i] (the scene numbered [i + 1] in a script numbered from 1). *)
Definition namesScene (StringToNumber : string -> option Z) (i : nat) (e : JsVal) : bool :=
  match ToNumber StringToNumber (jsOr (prop e "sceneNumber") (JNum 0)) with
  | Some n => n =? Z.of_nat i + 1
  | None => false
  end.

(** The text an entry gives: [s.narration ?? '']. *)
Definition givenText (e : JsVal) : JsVal := coalesce (prop e "narration") (JStr "").

(** The translated text of position [i] after the entries were applied in
    order to a scene whose translated text was [v]. *)
Definition textAfter (StringToNumber : string -> option Z) (i : nat) (v : JsVal) (entries : list JsVal) : JsVal :=
  fold_left (fun acc e => if namesScene StringToNumber i e then givenText e else acc) entries v.

(** Some character of the string satisfies [p]. *)
Fixpoint occurs (p : ascii -> bool) (s : string) : bool :=
  match s with
  | EmptyString => false
  | String c rest => p c || occurs p rest
  end.

















(** * The rest of the services and of the application *)

(** ** The platform

    What the browser provides: the constructor of a [Blob] from bytes and a
    type, the [type] of a blob, its base64 content as [FileReader] delivers
    it (the read can fail), and [atob] composed with the copy of the decoded
    characters into a byte array (it throws on text that is not base64). *)
Record Platform : Type := mkPlatform {
  newBlob : list Z -> string -> Blob;
  blobType : Blob -> string;
  blobToBase64 : Blob -> Completion string;
  atob : string -> Completion (list Z)
}.

(** ** WAV encoding ([gemini.js], [pcmToWav], lines 322-346) *)

Definition rangeError : JsVal :=
  JObj [("message", JStr "Offset is outside the bounds of the DataView")].

(** The [n] low bytes of [v], least significant first. *)
Definition littleEndian (n : nat) (v : Z) : list Z :=
  map (fun k => (v / 256 ^ Z.of_nat k) mod 256) (seq 0 n).

(** A write of [bytes] at [offset] through a [DataView]: a [RangeError] when
    it does not fit. *)
Definition setBytes (offset : nat) (bytes buf : list Z) : Completion (list Z) :=
  if (offset + length bytes <=? length buf)%nat
  then Normal (take offset buf ++ bytes ++ drop (offset + length bytes) buf)%list
  else Throw rangeError.

(** [view.setUint8(offset, v)] *)
Definition setUint8 (offset : nat) (v : Z) (buf : list Z) : Completion (list Z) :=
  setBytes offset [v mod 256] buf.

(** [view.setUint16(offset, v, true)] *)
Definition setUint16 (offset : nat) (v : Z) (buf : list Z) : Completion (list Z) :=
  setBytes offset (littleEndian 2 (v mod 2 ^ 16)) buf.

(** [view.setUint32(offset, v, true)] *)
Definition setUint32 (offset : nat) (v : Z) (buf : list Z) : Completion (list Z) :=
  setBytes offset (littleEndian 4 (v mod 2 ^ 32)) buf.

(** [writeStr(offset, str)]: one [setUint8] per character. *)
Fixpoint writeStr (offset : nat) (str : string) (buf : list Z) : Completion (list Z) :=
  match str with
  | EmptyString => Normal buf
  | String c rest =>
      buf' ← setUint8 offset (Z.of_nat (nat_of_ascii c)) buf;
      writeStr (S offset) rest buf'
  end.

(** The 44 bytes of the header for [dataSize] bytes of samples. *)
Definition wavHeader (dataSize sampleRate numChannels : Z) : Completion (list Z) :=
  let bytesPerSample := 2 in
  let blockAlign := numChannels * bytesPerSample in
  let byteRate := sampleRate * blockAlign in
  let header := replicate 44 0 in
  h ← writeStr 0 "RIFF" header;
  h ← setUint32 4 (36 + dataSize) h;
  h ← writeStr 8 "WAVE" h;
  h ← writeStr 12 "fmt " h;
  h ← setUint32 16 16 h;
  h ← setUint16 20 1 h;
  h ← setUint16 22 numChannels h;
  h ← setUint32 24 sampleRate h;
  h ← setUint32 28 byteRate h;
  h ← setUint16 32 blockAlign h;
  h ← setUint16 34 16 h;
  h ← writeStr 36 "data" h;
  setUint32 40 dataSize h.

Definition pcmToWav (P : Platform) (pcm : list Z) (sampleRate numChannels : Z) : Completion Blob :=
  header ← wavHeader (Z.of_nat (length pcm)) sampleRate numChannels;
  Normal (newBlob P (header ++ pcm)%list "audio/wav").

(** [view.getUint32(offset, true)] and [view.getUint16(offset, true)], the
    readers a consumer of the file applies. *)
Definition fromLittleEndian (bytes : list Z) : Z :=
  foldr (fun b acc => b + 256 * acc) 0 bytes.

Definition getBytes (offset n : nat) (buf : list Z) : option (list Z) :=
  if (offset + n <=? length buf)%nat then Some (take n (drop offset buf)) else None.

Definition getUint32 (offset : nat) (buf : list Z) : option Z :=
  fromLittleEndian <$> getBytes offset 4 buf.

Definition getUint16 (offset : nat) (buf : list Z) : option Z :=
  fromLittleEndian <$> getBytes offset 2 buf.

(** The bytes of an ASCII tag. *)
Definition charCodes (s : string) : list Z :=
  map (fun c => Z.of_nat (nat_of_ascii c)) (list_ascii_of_string s).

(** ** Speech ([gemini.js], lines 18-28 and 123-210) *)

Definition GEMINI_TTS_VOICES : list string :=
  ["Aoede"; "Callirrhoe"; "Charon"; "Fenrir"; "Kore"; "Leda"; "Orus"; "Puck"; "Zephyr"].

(** [validIds.includes(voice) ? voice : 'Kore'] *)
Definition voiceNameFor (voice : string) : string :=
  if existsb (String.eqb voice) GEMINI_TTS_VOICES then voice else "Kore".

(** The answer of an HTTP request as the code reads it: [res.ok] with the
    blob of the body, or a status with the text of the body (reading it can
    fail). *)
Inductive HttpResult : Type :=
| HttpOk (body : Completion Blob)
| HttpFailed (status : Z) (body : Completion string).

Section Speech.

Variable P : Platform.

(** Whether the Gemini key is configured ([ai] is not [null]). *)
Variable ai : bool.

(** [ai.models.generateContent] for the speech model, a text and a voice
    name: the [inlineData.data] of the first part of the first candidate,
    [None] when a link is missing. *)
Variable generateSpeech : JsVal -> string -> Completion (option string).

(** [process.env.REACT_APP_ELEVENLABS_API_KEY || ''], trimmed. *)
Variable elevenLabsKey : string.

(** [fetch] of the text-to-speech endpoint for a voice id and a text. *)
Variable fetchSpeech : string -> JsVal -> Completion HttpResult.

Definition generateTTSGemini (text : JsVal) (voice : string) : Completion Blob :=
  if negb ai then Throw (mkError "API key not configured")
  else
    let voiceName := voiceNameFor voice in
    data ← generateSpeech text voiceName;
    match data with
    | None => Throw (mkError "No audio in response")
    | Some d =>
        if String.eqb d "" then Throw (mkError "No audio in response")
        else
          pcm ← atob P d;
          pcmToWav P pcm 24000 1
    end.

Definition elevenLabsMessage (status : Z) (err : string) : string :=
  if status =? 401
  then "ElevenLabs 401: Invalid API key or voice. Check your .env (REACT_APP_ELEVENLABS_API_KEY) and restart the dev server. Response: " ++ err
  else "ElevenLabs error: " ++ decimal status ++ " " ++ err.

Definition generateTTSElevenLabs (text : JsVal) (voiceId : string) : Completion Blob :=
  if String.eqb elevenLabsKey "" then Throw (mkError "ElevenLabs API key required in .env")
  else if String.eqb voiceId "" then Throw (mkError "Select an ElevenLabs voice")
  else
    res ← fetchSpeech voiceId text;
    match res with
    | HttpFailed status body =>
        err ← body;
        Throw (mkError (elevenLabsMessage status err))
    | HttpOk body => body
    end.

Definition generateTTS (text : JsVal) (provider voice : string) : Completion Blob :=
  if String.eqb provider "elevenlabs" then generateTTSElevenLabs text voice
  else generateTTSGemini text voice.

End Speech.

(** ** Images and metadata ([gemini.js], lines 45-112 and 246-320) *)

(** A part of a request: a text or an inline image. *)
Inductive ReqPart : Type :=
| TextPart (text : string)
| InlinePart (mimeType data : string).

(** A part of a response as the code reads it: [inlineData?.data] and
    [inlineData.mimeType], [None] when missing. *)
Record OutPart : Type := mkOutPart {
  out_data : option string;
  out_mimeType : option string
}.

(** The lower-case form of an ASCII letter; [toLowerCase] maps no other
    character to a letter of the needles looked for. *)
Definition lowerChar (c : ascii) : ascii :=
  let n := nat_of_ascii c in
  if ((65 <=? n) && (n <=? 90))%nat then ascii_of_nat (n + 32) else c.

Fixpoint toLowerCase (s : string) : string :=
  match s with
  | EmptyString => EmptyString
  | String c rest => String (lowerChar c) (toLowerCase rest)
  end.

(** [hay.includes(needle)] *)
Fixpoint includes (needle hay : string) : bool :=
  String.prefix needle hay
  || match hay with
     | EmptyString => false
     | String _ rest => includes needle rest
     end.

(** [anchorImages[i]] *)
Definition anchorAt (anchorImages : list (option Blob)) (i : nat) : option Blob :=
  default None (anchorImages !! i).

Definition isSome {A : Type} (o : option A) : bool :=
  match o with
  | Some _ => true
  | None => false
  end.

(** [(description || '').toLowerCase()]; only strings have the method. *)
Definition lowerDescription (description : JsVal) : Completion string :=
  match jsOr description (JStr "") with
  | JStr s => Normal (toLowerCase s)
  | _ => Throw (typeError "(description || '').toLowerCase is not a function")
  end.

(** The [refs] of [generateImage]: the numbers of the anchors that the
    description mentions and that are provided. *)
Definition imageRefs (desc : string) (anchorImages : list (option Blob)) : list nat :=
  ((if includes "image 1" desc && isSome (anchorAt anchorImages 0) then [1%nat] else [])
   ++ (if includes "image 2" desc && isSome (anchorAt anchorImages 1) then [2%nat] else [])
   ++ (if includes "image 3" desc && isSome (anchorAt anchorImages 2) then [3%nat] else []))%list.

Definition imagePromptPrefix : string :=
  "Generate an image based on this description. Reference images are provided below in order as image 1, image 2, image 3. Use them according to the description."
  ++ LF ++ LF ++ "Description: ".

(** [{ inlineData: { mimeType: blob.type || 'image/png', data: await blobToBase64(blob) } }] *)
Definition inlinePart (P : Platform) (blob : Blob) : Completion ReqPart :=
  base64 ← blobToBase64 P blob;
  Normal (InlinePart (orElse (blobType P blob) "image/png") base64).

(** The parts [generateImage] sends. *)
Definition imageRequestParts (P : Platform) (description : JsVal)
    (anchorImages : list (option Blob)) : Completion (list ReqPart) :=
  desc ← lowerDescription description;
  let refs := imageRefs desc anchorImages in
  let promptPrefix := match refs with [] => "" | _ :: _ => imagePromptPrefix end in
  let text := TextPart (promptPrefix ++ ToString description) in
  images ← foldM (fun parts n =>
                    match anchorAt anchorImages (n - 1) with
                    | None => Normal parts
                    | Some blob => part ← inlinePart P blob; Normal (parts ++ [part])%list
                    end) [] refs;
  Normal (text :: images).

(** The loop over the parts of an image response: the first part that
    carries data is decoded and returned. *)
Fixpoint firstImage (P : Platform) (outParts : list OutPart) : Completion Blob :=
  match outParts with
  | [] => Throw (mkError "No image in response")
  | part :: rest =>
      match out_data part with
      | Some data =>
          if String.eqb data "" then firstImage P rest
          else
            bytes ← atob P data;
            Normal (newBlob P bytes (orElse (default "" (out_mimeType part)) "image/png"))
      | None => firstImage P rest
      end
  end.

(** [(blobs || []).filter(Boolean).slice(0, n)] *)
Definition firstBlobs (n : nat) (blobs : list (option Blob)) : list Blob :=
  take n (omap id blobs).

Definition titlePrompt (scriptSummary : string) : string :=
  "Generate a single catchy YouTube video title (under 100 characters) for this reel. Use the script below and the attached scene images as context. Return ONLY the title text, no quotes or extra text."
  ++ LF ++ LF ++ "Script:" ++ LF ++ scriptSummary.

Definition descriptionPrompt (scriptSummary : string) : string :=
  "Generate a YouTube video description (2-4 short paragraphs, engaging and SEO-friendly) for this reel. Use the script and attached scene images below. Return ONLY the description text."
  ++ LF ++ LF ++ "Script:" ++ LF ++ scriptSummary.

Definition thumbnailRequestPrompt (scriptSummary : string) : string :=
  "Create a single, eye-catching YouTube thumbnail image for this video reel. The thumbnail should be vertical (9:16) or square, bold and click-worthy. Base it on this content:"
  ++ LF ++ LF ++ scriptSummary ++ LF ++ LF
  ++ "Make it visually striking with clear focal point, suitable for YouTube/Shorts.".

Section Media.

Variable P : Platform.
Variable ai : bool.

(** [ai.models.generateContent] with image output, for a model and the parts
    of the request: the parts of the first candidate, [None] when a link is
    missing. *)
Variable generateImageContent : string -> list ReqPart -> Completion (option (list OutPart)).

(** [ai.models.generateContent] of the text model for the parts of a
    request: the text of the first part of the first candidate. *)
Variable generateTextContent : list ReqPart -> Completion (option string).

Definition generateImage (description : JsVal) (anchorImages : list (option Blob))
    (modelId : string) : Completion Blob :=
  if negb ai then Throw (mkError "API key not configured")
  else
    parts ← imageRequestParts P description anchorImages;
    response ← generateImageContent modelId parts;
    firstImage P (default [] response).

(** The text part followed by the first [n] blobs. *)
Definition partsWithBlobs (n : nat) (prompt : string) (sceneImageBlobs : list (option Blob))
  : Completion (list ReqPart) :=
  images ← mapM (inlinePart P) (firstBlobs n sceneImageBlobs);
  Normal (TextPart prompt :: images).

Definition generateYouTubeTitle (scriptSummary : string) (sceneImageBlobs : list (option Blob))
  : Completion string :=
  if negb ai then Throw (mkError "API key not configured")
  else
    parts ← partsWithBlobs 3 (titlePrompt scriptSummary) sceneImageBlobs;
    response ← generateTextContent parts;
    Normal (orElse (default "" (trim <$> response)) "Untitled").

Definition generateYouTubeDescription (scriptSummary : string)
    (sceneImageBlobs : list (option Blob)) : Completion string :=
  if negb ai then Throw (mkError "API key not configured")
  else
    parts ← partsWithBlobs 3 (descriptionPrompt scriptSummary) sceneImageBlobs;
    response ← generateTextContent parts;
    Normal (default "" (trim <$> response)).

Definition generateYouTubeThumbnail (scriptSummary : string)
    (sceneImageBlobs : list (option Blob)) (modelId : string) : Completion Blob :=
  if negb ai then Throw (mkError "API key not configured")
  else
    parts ← partsWithBlobs 2 (thumbnailRequestPrompt scriptSummary) sceneImageBlobs;
    response ← generateImageContent modelId parts;
    firstImage P (default [] response).

End Media.

(** ** Scene generation ([gemini.js], [generateScenes], lines 45-57) *)

Definition MOVIE_IDEA : string := "{{MOVIE_IDEA}}".

(** The replacement text of [String.prototype.replace] for a pattern without
    capture groups: [$$] is a dollar sign, [$&] the match, [$`] the text
    before it, [$'] the text after it; any other dollar sign stands for
    itself. *)
Fixpoint expandReplacement (matched before after replacement : string) : string :=
  match replacement with
  | EmptyString => EmptyString
  | String c rest =>
      if (nat_of_ascii c =? 36)%nat then
        match rest with
        | String d rest' =>
            let n := nat_of_ascii d in
            if (n =? 36)%nat then String c (expandReplacement matched before after rest')
            else if (n =? 38)%nat then matched ++ expandReplacement matched before after rest'
            else if (n =? 96)%nat then before ++ expandReplacement matched before after rest'
            else if (n =? 39)%nat then after ++ expandReplacement matched before after rest'
            else String c (expandReplacement matched before after rest)
        | EmptyString => String c EmptyString
        end
      else String c (expandReplacement matched before after rest)
  end.

(** [template.replace(/\{\{MOVIE_IDEA\}\}/g, replacement)], scanning from
    the left; [before] is the text already passed and [skip] the number of
    characters of the current match still to pass. *)
Fixpoint replaceIdeaFrom (skip : nat) (before s replacement : string) : string :=
  match s with
  | EmptyString => EmptyString
  | String c rest =>
      let before' := before ++ String c EmptyString in
      match skip with
      | S k => replaceIdeaFrom k before' rest replacement
      | O =>
          if String.prefix MOVIE_IDEA s then
            expandReplacement MOVIE_IDEA before
              (String.substring 14 (String.length s - 14) s) replacement
            ++ replaceIdeaFrom 13 before' rest replacement
          else String c (replaceIdeaFrom 0 before' rest replacement)
      end
  end.

Definition replaceIdea (template replacement : string) : string :=
  replaceIdeaFrom 0 "" template replacement.

Section SceneGeneration.

Variable JSON_parse : string -> Completion JsVal.
Variable ai : bool.

(** [fetch('/prompt_script.txt')] and the text of its body. *)
Variable loadPromptTemplate : Completion string.

(** [ai.models.generateContent] of the text model for a prompt: the text of
    the first part of the first candidate. *)
Variable generateContent : string -> Completion (option string).

Definition generateScenes (movieIdea : string) : Completion (list JsVal) :=
  if negb ai then Throw (mkError "API key not configured")
  else
    template ← loadPromptTemplate;
    let prompt := replaceIdea template (trim movieIdea) in
    response ← generateContent prompt;
    match trim <$> response with
    | None => Throw (mkError "No response from Gemini")
    | Some text =>
        if String.eqb text "" then Throw (mkError "No response from Gemini")
        else
          parsed ← JSON_parse (trim (stripFences text));
          Normal (asArray parsed)
    end.

End SceneGeneration.

(** ** The request of a turn ([apiService.js], [sendAssistantMessage], lines 517-539) *)

Inductive Payload : Type :=
| TextPayload (text : string)
| PartsPayload (parts : list ReqPart).

Definition anchorPreface : string :=
  "Here are my anchor images (image 1, 2, 3) for style reference:" ++ LF ++ LF.

(** The text sent: the context block and the message, or the message alone
    when the script is empty. *)
Definition textPayloadOf (message : string) (scenes : list Scene) : string :=
  let scriptContext := buildScriptContext scenes in
  if String.eqb scriptContext "" then message
  else scriptContext ++ LF ++ LF ++ "USER MESSAGE:" ++ LF ++ message.

Definition chatPayload (P : Platform) (message : string) (anchorImages : list (option Blob))
    (scenes : list Scene) : Completion Payload :=
  let textPayload := textPayloadOf message scenes in
  let hasImages := existsb isSome anchorImages in
  if hasImages then
    images ← mapM (inlinePart P) (omap id (take 3 anchorImages));
    Normal (PartsPayload (TextPart (anchorPreface ++ textPayload) :: images))
  else Normal (TextPayload textPayload).

(** [for (const x of l) { a = f(a, x) }], keeping the state reached when an
    exception leaves the loop. *)
Fixpoint foldMState {A B : Type} (f : A -> B -> Completion A) (a : A) (l : list B)
  : A * option JsVal :=
  match l with
  | [] => (a, None)
  | x :: rest =>
      match f a x with
      | Normal a' => foldMState f a' rest
      | Throw e => (a, Some e)
      end
  end.

Section Turn.

Context {H : Type}.
Variable P : Platform.
Variable JSON_parse : string -> Completion JsVal.
Variable cb : Callbacks H.
Variable genThumbnail : nat -> string -> list Blob -> string -> Completion Blob.

(** [chat.sendMessage] for a payload. *)
Variable sendMessage : Payload -> Completion Response.

(** The turn from the response on, as [sendAssistantMessage] has it, with the
    host state in which it ends: after an exception, the state the callbacks
    had produced when it was thrown. *)
Definition turnFromResponse (scenes0 : list Scene) (response : Response) (h : H)
  : H * Completion TurnResult :=
  match functionCallsOf response with
  | (_ :: _) as calls =>
      match foldMState (dispatchCall cb genThumbnail scenes0) (mkDispatch h "" 0) calls with
      | (st, Some e) => (host st, Throw e)
      | (st, None) =>
          match optCall (onChunk cb) (confirmText st) (host st) with
          | Normal h' => (h', Normal {| text := confirmText st; functionCalled := true |})
          | Throw e => (host st, Throw e)
          end
      end
  | [] =>
      match tryParseScriptFromText JSON_parse (textOf response) with
      | Some parsed =>
          match onScript cb parsed h with
          | Throw e => (h, Throw e)
          | Normal h1 =>
              match optCall (onChunk cb) scriptSentence h1 with
              | Normal h2 =>
                  (h2, Normal {| text := "I've added the script to your scene editor.";
                                 functionCalled := true |})
              | Throw e => (h1, Throw e)
              end
          end
      | None =>
          match optCall (onChunk cb) (textOf response) h with
          | Normal h' => (h', Normal {| text := textOf response; functionCalled := false |})
          | Throw e => (h, Throw e)
          end
      end
  end.


End Turn.

(** ** The application ([App.js]) and its metadata panel *)

Record Settings : Type := mkSettings {
  movieIdea : string;
  anchorImages : list (option Blob);
  imageModel : string;
  voiceProvider : string;
  voice : string;
  elevenLabsVoiceId : string;
  translationLanguage : string;
  includeSubtitles : bool
}.

Record Flags : Type := mkFlags {
  loading : bool;
  generatingIndex : option nat;
  translating : bool;
  youtubeTitleLoading : bool;
  youtubeDescriptionLoading : bool;
  youtubeThumbnailLoading : bool;
  chatLoading : bool
}.

(** A progress value of the assembly: the 0 and the 1 the application sets,
    or a value the assembler reports. *)
Inductive Progress : Type :=
| ProgressZero
| ProgressOne
| ProgressReported (id : nat).

Record AssembleStatus : Type := mkAssembleStatus {
  currentScene : option nat;
  totalScenes : nat
}.

(** The state of the [App] component: the part the chat callbacks act on
    ([app]), the inputs of the forms, the busy flags, the error banner, the
    chat handle kept in [assistantChatRef] (whether there is one) and the
    state of the assembly. *)
Record Ui : Type := mkUi {
  app : AppState;
  settings : Settings;
  flags : Flags;
  error : JsVal;
  assistantChat : bool;
  assembleProgress : option Progress;
  assembleStatus : AssembleStatus;
  outputBlob : option Blob
}.

Definition withApp (f : AppState -> AppState) (ui : Ui) : Ui :=
  {| app := f (app ui); settings := settings ui; flags := flags ui; error := error ui;
     assistantChat := assistantChat ui; assembleProgress := assembleProgress ui;
     assembleStatus := assembleStatus ui; outputBlob := outputBlob ui |}.

Definition withSettings (f : Settings -> Settings) (ui : Ui) : Ui :=
  {| app := app ui; settings := f (settings ui); flags := flags ui; error := error ui;
     assistantChat := assistantChat ui; assembleProgress := assembleProgress ui;
     assembleStatus := assembleStatus ui; outputBlob := outputBlob ui |}.

Definition withFlags (f : Flags -> Flags) (ui : Ui) : Ui :=
  {| app := app ui; settings := settings ui; flags := f (flags ui); error := error ui;
     assistantChat := assistantChat ui; assembleProgress := assembleProgress ui;
     assembleStatus := assembleStatus ui; outputBlob := outputBlob ui |}.

Definition setError (e : JsVal) (ui : Ui) : Ui :=
  {| app := app ui; settings := settings ui; flags := flags ui; error := e;
     assistantChat := assistantChat ui; assembleProgress := assembleProgress ui;
     assembleStatus := assembleStatus ui; outputBlob := outputBlob ui |}.


Definition setAssembleProgress (p : option Progress) (ui : Ui) : Ui :=
  {| app := app ui; settings := settings ui; flags := flags ui; error := error ui;
     assistantChat := assistantChat ui; assembleProgress := p;
     assembleStatus := assembleStatus ui; outputBlob := outputBlob ui |}.

Definition setAssembleStatus (s : AssembleStatus) (ui : Ui) : Ui :=
  {| app := app ui; settings := settings ui; flags := flags ui; error := error ui;
     assistantChat := assistantChat ui; assembleProgress := assembleProgress ui;
     assembleStatus := s; outputBlob := outputBlob ui |}.

Definition setOutputBlob (b : Blob) (ui : Ui) : Ui :=
  {| app := app ui; settings := settings ui; flags := flags ui; error := error ui;
     assistantChat := assistantChat ui; assembleProgress := assembleProgress ui;
     assembleStatus := assembleStatus ui; outputBlob := Some b |}.

Definition setLoading (v : bool) (f : Flags) : Flags :=
  {| loading := v; generatingIndex := generatingIndex f; translating := translating f;
     youtubeTitleLoading := youtubeTitleLoading f;
     youtubeDescriptionLoading := youtubeDescriptionLoading f;
     youtubeThumbnailLoading := youtubeThumbnailLoading f; chatLoading := chatLoading f |}.


Definition setTranslating (v : bool) (f : Flags) : Flags :=
  {| loading := loading f; generatingIndex := generatingIndex f; translating := v;
     youtubeTitleLoading := youtubeTitleLoading f;
     youtubeDescriptionLoading := youtubeDescriptionLoading f;
     youtubeThumbnailLoading := youtubeThumbnailLoading f; chatLoading := chatLoading f |}.

Definition setYoutubeTitleLoading (v : bool) (f : Flags) : Flags :=
  {| loading := loading f; generatingIndex := generatingIndex f; translating := translating f;
     youtubeTitleLoading := v;
     youtubeDescriptionLoading := youtubeDescriptionLoading f;
     youtubeThumbnailLoading := youtubeThumbnailLoading f; chatLoading := chatLoading f |}.

Definition setYoutubeDescriptionLoading (v : bool) (f : Flags) : Flags :=
  {| loading := loading f; generatingIndex := generatingIndex f; translating := translating f;
     youtubeTitleLoading := youtubeTitleLoading f;
     youtubeDescriptionLoading := v;
     youtubeThumbnailLoading := youtubeThumbnailLoading f; chatLoading := chatLoading f |}.

Definition setYoutubeThumbnailLoading (v : bool) (f : Flags) : Flags :=
  {| loading := loading f; generatingIndex := generatingIndex f; translating := translating f;
     youtubeTitleLoading := youtubeTitleLoading f;
     youtubeDescriptionLoading := youtubeDescriptionLoading f;
     youtubeThumbnailLoading := v; chatLoading := chatLoading f |}.


Definition setAnchorImages (v : list (option Blob)) (s : Settings) : Settings :=
  {| movieIdea := movieIdea s; anchorImages := v; imageModel := imageModel s;
     voiceProvider := voiceProvider s; voice := voice s;
     elevenLabsVoiceId := elevenLabsVoiceId s;
     translationLanguage := translationLanguage s; includeSubtitles := includeSubtitles s |}.

(** What the application reaches outside itself: the platform, the remote
    services with the two keys, [JSON.parse], the conversion of strings to
    numbers, the clock behind [getProjectName], and the video assembler of
    [ffmpegService] with the progress it reports before it ends. *)
Record Services : Type := mkServices {
  platform : Platform;
  geminiKey : bool;
  jsonParseOf : string -> Completion JsVal;
  stringToNumberOf : string -> option Z;
  projectNameNow : string;
  promptTemplate : Completion string;
  scenesContent : string -> Completion (option string);
  imageContent : string -> list ReqPart -> Completion (option (list OutPart));
  textContent : list ReqPart -> Completion (option string);
  translationContent : string -> string -> Completion (option string);
  speechContent : JsVal -> string -> Completion (option string);
  elevenLabsKeyOf : string;
  speechFetch : string -> JsVal -> Completion HttpResult;
  createAssistantChat : Completion bool;
  chatSendMessage : Payload -> Completion Response;
  chatThumbnailContent : nat -> string -> list ReqPart -> Completion (option (list OutPart));
  assembleVideo : list Scene -> bool -> list (Progress * option AssembleStatus) * Completion Blob
}.

(** [err?.message || fallback] *)
Definition messageOr (err : JsVal) (fallback : string) : JsVal :=
  jsOr (optProp err "message") (JStr fallback).

(** What [handleUpdateScene(index, field, value)] writes: the key is
    computed, so it can be any property name.  Under one of the four text
    keys the value is a value of the model, under one of the two media keys
    a blob or [null]; a write under any other key adds a property the
    application does not read.  (A value of another kind than the field
    holds, a blob under a text key or a text under a media key, is not
    represented.) *)
Inductive SceneUpdate : Type :=
| UpdateSceneNumber (value : JsVal)
| UpdateDescription (value : JsVal)
| UpdateNarration (value : JsVal)
| UpdateNarrationTranslated (value : JsVal)
| UpdateImageBlob (value : option Blob)
| UpdateAudioBlob (value : option Blob)
| UpdateOther (field : string).

(** [{ ...s, [field]: value }] *)
Definition withField (s : Scene) (update : SceneUpdate) : Scene :=
  match update with
  | UpdateSceneNumber value =>
      {| sceneNumber := value; description := description s; narration := narration s;
         narrationTranslated := narrationTranslated s;
         imageBlob := imageBlob s; audioBlob := audioBlob s |}
  | UpdateDescription value =>
      {| sceneNumber := sceneNumber s; description := value; narration := narration s;
         narrationTranslated := narrationTranslated s;
         imageBlob := imageBlob s; audioBlob := audioBlob s |}
  | UpdateNarration value =>
      {| sceneNumber := sceneNumber s; description := description s; narration := value;
         narrationTranslated := narrationTranslated s;
         imageBlob := imageBlob s; audioBlob := audioBlob s |}
  | UpdateNarrationTranslated value => withTranslated s value
  | UpdateImageBlob value =>
      {| sceneNumber := sceneNumber s; description := description s; narration := narration s;
         narrationTranslated := narrationTranslated s;
         imageBlob := value; audioBlob := audioBlob s |}
  | UpdateAudioBlob value =>
      {| sceneNumber := sceneNumber s; description := description s; narration := narration s;
         narrationTranslated := narrationTranslated s;
         imageBlob := imageBlob s; audioBlob := value |}
  | UpdateOther _ => s
  end.



(** [prev.map((s, i) => (i === index ? f(s) : s))] *)
Definition mapAt (index : nat) (f : Scene -> Scene) (prev : list Scene) : list Scene :=
  imap (fun i s => if (i =? index)%nat then f s else s) prev.

Definition handleUpdateScene (index : nat) (update : SceneUpdate) (ui : Ui) : Ui :=
  withApp (fun a => setScenes (mapAt index (fun s => withField s update) (scenes a)) a) ui.

(** [next = [...prev]; next[index] = file]: an index past the end extends
    the array, the slots in between staying empty. *)
Definition assignAt (index : nat) (file : option Blob) (prev : list (option Blob))
  : list (option Blob) :=
  if (index <? length prev)%nat then <[index := file]> prev
  else (prev ++ replicate (index - length prev) None ++ [file])%list.

Definition handleAnchorChange (index : nat) (file : option Blob) (ui : Ui) : Ui :=
  withSettings (fun s => setAnchorImages (assignAt index file (anchorImages s)) s) ui.

(** The [scriptSummary] of the component. *)
Definition summaryBlock (s : Scene) : string :=
  let block :=
    "Scene " ++ ToString (sceneNumber s) ++ ":" ++ LF
    ++ "Description: " ++ ToString (jsOr (description s) (JStr "")) ++ LF
    ++ "Narration (original): " ++ ToString (jsOr (narration s) (JStr "")) in
  if truthy (narrationTranslated s)
  then block ++ LF ++ "Narration (translated): " ++ ToString (narrationTranslated s)
  else block.

Definition scriptSummary (scenes : list Scene) : string :=
  match scenes with
  | [] => ""
  | _ :: _ => join (LF ++ LF) (map summaryBlock scenes)
  end.

(** [sceneImageBlobs] as the generators receive it. *)
Definition sceneBlobs (scenes : list Scene) : list (option Blob) :=
  map Some (sceneImageBlobs scenes).

(** [modelId === 'expensive' ? 'gemini-3-pro-image-preview' : 'gemini-2.5-flash-image'] *)
Definition thumbnailModelOf (modelId : string) : string :=
  if String.eqb modelId "expensive" then "gemini-3-pro-image-preview"
  else "gemini-2.5-flash-image".

(** [handleGenerateThumbnail] of the metadata panel: the choice it hands to
    [onGenerateThumbnail]. *)
Definition thumbnailChoice (thumbnailModel : string) : string :=
  if String.eqb thumbnailModel "expensive" then "expensive" else "cheap".

Section Application.

Variable svc : Services.

Definition handleGenerateScenes (ui : Ui) : Ui :=
  let idea := movieIdea (settings ui) in
  if String.eqb (trim idea) "" then ui
  else
    let ui1 := setError JNull (withFlags (setLoading true) ui) in
    let ui2 :=
      match (generated ← generateScenes (jsonParseOf svc) (geminiKey svc) (promptTemplate svc)
                          (scenesContent svc) (trim idea);
             mapM initialScene generated) with
      | Normal normalized =>
          withApp (fun a => setProjectName (projectNameNow svc) (setScenes normalized a)) ui1
      | Throw err => setError (messageOr err "Failed to generate scenes") ui1
      end in
    withFlags (setLoading false) ui2.



Definition handleTranslateAllNarrations (ui : Ui) : Ui :=
  let narrations := map (fun s => jsOr (narration s) (JStr "")) (scenes (app ui)) in
  if negb (existsb truthy narrations) then ui
  else
    let ui1 := setError JNull (withFlags (setTranslating true) ui) in
    let ui2 :=
      match translateNarrationsBatch (jsonParseOf svc) (geminiKey svc) (translationContent svc)
              narrations (translationLanguage (settings ui)) with
      | Normal translated =>
          withApp (fun a => setShowTranslated true
                              (setScenes (flatOverlay (map JStr translated) (scenes a)) a)) ui1
      | Throw err => setError (messageOr err "Translation failed") ui1
      end in
    withFlags (setTranslating false) ui2.

Definition handleGenerateYouTubeTitle (ui : Ui) : Ui :=
  let summary := scriptSummary (scenes (app ui)) in
  if String.eqb (trim summary) "" then ui
  else
    let ui1 := setError JNull (withFlags (setYoutubeTitleLoading true) ui) in
    let ui2 :=
      match generateYouTubeTitle (platform svc) (geminiKey svc) (textContent svc) summary
              (sceneBlobs (scenes (app ui))) with
      | Normal title => withApp (setYoutubeTitle (JStr title)) ui1
      | Throw err => setError (messageOr err "Failed to generate title") ui1
      end in
    withFlags (setYoutubeTitleLoading false) ui2.

Definition handleGenerateYouTubeDescription (ui : Ui) : Ui :=
  let summary := scriptSummary (scenes (app ui)) in
  if String.eqb (trim summary) "" then ui
  else
    let ui1 := setError JNull (withFlags (setYoutubeDescriptionLoading true) ui) in
    let ui2 :=
      match generateYouTubeDescription (platform svc) (geminiKey svc) (textContent svc) summary
              (sceneBlobs (scenes (app ui))) with
      | Normal d => withApp (setYoutubeDescription (JStr d)) ui1
      | Throw err => setError (messageOr err "Failed to generate description") ui1
      end in
    withFlags (setYoutubeDescriptionLoading false) ui2.

Definition handleGenerateYouTubeThumbnail (modelId : string) (ui : Ui) : Ui :=
  let summary := scriptSummary (scenes (app ui)) in
  if String.eqb (trim summary) "" then ui
  else
    let ui1 := setError JNull (withFlags (setYoutubeThumbnailLoading true) ui) in
    let ui2 :=
      match generateYouTubeThumbnail (platform svc) (geminiKey svc) (imageContent svc) summary
              (sceneBlobs (scenes (app ui))) (thumbnailModelOf modelId) with
      | Normal blob => withApp (setYoutubeThumbnailBlob blob) ui1
      | Throw err => setError (messageOr err "Failed to generate thumbnail") ui1
      end in
    withFlags (setYoutubeThumbnailLoading false) ui2.

(** The click on "Generate Image" of the metadata panel. *)
Definition clickGenerateThumbnail (thumbnailModel : string) (ui : Ui) : Ui :=
  handleGenerateYouTubeThumbnail (thumbnailChoice thumbnailModel) ui.





Definition bothBlobs (s : Scene) : bool := isSome (imageBlob s) && isSome (audioBlob s).

(** The progress callback handed to [assembleVideo]. *)
Definition reportProgress (ui : Ui) (update : Progress * option AssembleStatus) : Ui :=
  let ui1 := setAssembleProgress (Some (fst update)) ui in
  match snd update with
  | Some status => setAssembleStatus status ui1
  | None => ui1
  end.

Definition handleAssemble (ui : Ui) : Ui :=
  let all := scenes (app ui) in
  let ready := List.filter bothBlobs all in
  if negb (length ready =? length all)%nat
  then setError (JStr "Generate images and audio for all scenes first") ui
  else
    let ui1 :=
      setError JNull
        (setAssembleStatus {| currentScene := None; totalScenes := length all |}
           (setAssembleProgress (Some ProgressZero) ui)) in
    let '(updates, result) := assembleVideo svc all (includeSubtitles (settings ui)) in
    let ui2 := fold_left reportProgress updates ui1 in
    match result with
    | Normal blob =>
        setAssembleStatus {| currentScene := None; totalScenes := length all |}
          (setAssembleProgress (Some ProgressOne) (setOutputBlob blob ui2))
    | Throw err =>
        setAssembleStatus {| currentScene := None; totalScenes := 0 |}
          (setAssembleProgress None (setError (messageOr err "Failed to assemble video") ui2))
    end.

End Application.

(** ** Notions for the properties of the services and the application *)

(** The description, in lower case, mentions the anchor of slot [i] (counted
    from 0) as "image i+1". *)
Definition mentionsAnchor (desc : string) (i : nat) : bool :=
  includes ("image " ++ decimal (Z.of_nat i + 1)) desc.

(** The slots whose anchor [generateImage] attaches. *)
Definition attachedSlots (desc : string) (anchorImages : list (option Blob)) : list nat :=
  List.filter (fun i => mentionsAnchor desc i && isSome (anchorAt anchorImages i))
    [0%nat; 1%nat; 2%nat].

(** A part of a response that carries image data. *)
Definition hasData (part : OutPart) : bool :=
  match out_data part with
  | Some data => negb (String.eqb data "")
  | None => false
  end.

(** The image a part with data decodes to. *)
Definition decodedImage (P : Platform) (part : OutPart) : Completion Blob :=
  bytes ← atob P (default "" (out_data part));
  Normal (newBlob P bytes (orElse (default "" (out_mimeType part)) "image/png")).

(** The text of a payload. *)
Definition payloadText (payload : Payload) : option string :=
  match payload with
  | TextPayload text => Some text
  | PartsPayload (TextPart text :: _) => Some text
  | PartsPayload _ => None
  end.

(** The images of a payload. *)
Definition payloadImages (payload : Payload) : list ReqPart :=
  match payload with
  | TextPayload _ => []
  | PartsPayload parts => tail parts
  end.

Definition isBacktick (c : ascii) : bool := (nat_of_ascii c =? 96)%nat.
Definition isOpenBrace (c : ascii) : bool := (nat_of_ascii c =? 123)%nat.
Definition isDollar (c : ascii) : bool := (nat_of_ascii c =? 36)%nat.

(** Two scenes that agree on every field but [imageBlob], and on every field
    but [audioBlob]. *)
Definition sameButImage (a b : Scene) : Prop :=
  sceneNumber a = sceneNumber b /\ description a = description b
  /\ narration a = narration b /\ narrationTranslated a = narrationTranslated b
  /\ audioBlob a = audioBlob b.

Definition sameButAudio (a b : Scene) : Prop :=
  sceneNumber a = sceneNumber b /\ description a = description b
  /\ narration a = narration b /\ narrationTranslated a = narrationTranslated b
  /\ imageBlob a = imageBlob b.

(** A request made of a prompt and at most [n] inline images. *)
Definition promptWithImages (prompt : string) (n : nat) (parts : list ReqPart) : Prop :=
  exists images,
    parts = TextPart prompt :: images
    /\ (length images <= n)%nat
    /\ Forall (fun part => exists mime data, part = InlinePart mime data) images.

(** The inline part that carries a blob. *)
Definition encodes (P : Platform) (blob : Blob) (part : ReqPart) : Prop :=
  exists data,
    blobToBase64 P blob = Normal data
    /\ part = InlinePart (orElse (blobType P blob) "image/png") data.

(** A piece of a template in which no match of the placeholder can begin:
    it has no two opening braces in a row and does not end with one. *)
Definition noPlaceholderStart (piece : string) : bool :=
  negb (includes "{{" (piece ++ "{")).


(** ** An environment for examples *)

(** Services that answer every request with a fixed response: a script of
    one item, one translated string, a title call in the chat, no image,
    and an assembler that reports one progress value and succeeds. *)
Definition demoServices : Services :=
  {| platform := mkPlatform (fun bytes _ => BlobHandle (length bytes)) (fun _ => "")
                   (fun _ => Normal "AA==") (fun _ => Normal []);
     geminiKey := true;
     jsonParseOf := jsonParse;
     stringToNumberOf := fun _ => None;
     projectNameNow := "video_20260101_000000";
     promptTemplate := Normal ("Write a script about " ++ MOVIE_IDEA ++ ".");
     scenesContent := fun _ => Normal (Some "[1]");
     imageContent := fun _ _ => Normal None;
     textContent := fun _ => Normal (Some " Cats ");
     translationContent := fun _ _ => Normal (Some "[1]");
     speechContent := fun _ _ => Normal None;
     elevenLabsKeyOf := "";
     speechFetch := fun _ _ => Throw JNull;
     createAssistantChat := Normal true;
     chatSendMessage := fun _ =>
       Normal (mkResponse
                 (Some [JObj [("name", JStr "generateYouTubeTitle");
                              ("args", JObj [("title", JStr "Cats")])]])
                 None);
     chatThumbnailContent := fun _ _ _ => Normal None;
     assembleVideo := fun _ _ => ([(ProgressReported 1, None)], Normal (BlobHandle 9)) |}.

(** A state with one scene that has its image and its audio. *)
Definition demoUi : Ui :=
  {| app := {| scenes := [mkScene (JNum 1) (JStr "a cat") (JStr "Once") (JStr "")
                            (Some (BlobHandle 1)) (Some (BlobHandle 2))];
               projectName := None; showTranslated := false;
               youtubeTitle := JStr ""; youtubeDescription := JStr "";
               youtubeThumbnailBlob := None; chatMessages := [] |};
     settings := {| movieIdea := "cats"; anchorImages := [None; None; None];
                    imageModel := "gemini-2.5-flash-image"; voiceProvider := "gemini";
                    voice := "Kore"; elevenLabsVoiceId := "";
                    translationLanguage := "French"; includeSubtitles := true |};
     flags := {| loading := false; generatingIndex := None; translating := false;
                 youtubeTitleLoading := false; youtubeDescriptionLoading := false;
                 youtubeThumbnailLoading := false; chatLoading := false |};
     error := JNull;
     assistantChat := false;
     assembleProgress := None;
     assembleStatus := {| currentScene := None; totalScenes := 0 |};
     outputBlob := None |}.

(** * Properties *)

(** ** Strings and completions *)

Lemma append_length (a b : string) :
  String.length (a ++ b) = (String.length a + String.length b)%nat.
Proof. induction a as [|c a IH]; simpl; [reflexivity | now rewrite IH]. Qed.

Lemma append_fixpoint (a b : string) : a = a ++ b -> b = "".
Proof.
  intros E. apply (f_equal String.length) in E. rewrite append_length in E.
  destruct b; [reflexivity | simpl in E; lia].
Qed.

Lemma bind_Normal {A B : Type} (c : Completion A) (k : A -> Completion B) (b : B) :
  (x ← c; k x) = Normal b -> exists a, c = Normal a /\ k a = Normal b.
Proof. destruct c as [a|e]; simpl; [eauto | discriminate]. Qed.

Lemma member_Normal (v : JsVal) (k : string) :
  nullish v = false -> member v k = Normal (prop v k).
Proof. intros E. unfold member. now rewrite E. Qed.


(** The regular expression [\[[\s\S]*\]] as [matchBracketed] reads it: the
    match starts at the first opening bracket and ends at the last closing
    bracket after it. *)
Lemma throughLastClose_Some (s kept : string) :
  throughLastClose s = Some kept ->
  exists body rest,
    s = body ++ "]" ++ rest /\ kept = body ++ "]" /\ occurs isCloseBracket rest = false.
Proof.
  revert kept. induction s as [|c s IH]; simpl; intros kept; [discriminate|].
  destruct (throughLastClose s) as [k|] eqn:Ek.
  - intros [= <-]. destruct (IH k eq_refl) as (body & rest & -> & -> & Hrest).
    exists (String c body), rest. repeat split. exact Hrest.
  - destruct (isCloseBracket c) eqn:Ec; [|discriminate]. intros [= <-].
    unfold isCloseBracket in Ec. apply Nat.eqb_eq in Ec.
    assert (Hc : c = "]"%char).
    { rewrite <- (ascii_nat_embedding c), Ec. reflexivity. }
    exists "", s. subst c. repeat split.
    clear IH. induction s as [|d s IHs]; [reflexivity|]. simpl in Ek |- *.
    destruct (throughLastClose s); [discriminate|].
    destruct (isCloseBracket d); [discriminate|]. now apply IHs.
Qed.

Lemma throughLastClose_None (s : string) :
  throughLastClose s = None -> occurs isCloseBracket s = false.
Proof.
  induction s as [|c s IH]; simpl; [reflexivity|].
  destruct (throughLastClose s); [discriminate|].
  destruct (isCloseBracket c); [discriminate|]. intros _. now apply IH.
Qed.

Lemma matchBracketed_Some (s matched : string) :
  matchBracketed s = Some matched ->
  exists before body after,
    s = before ++ matched ++ after
    /\ matched = "[" ++ body ++ "]"
    /\ occurs isOpenBracket before = false
    /\ occurs isCloseBracket after = false.
Proof.
  revert matched. induction s as [|c s IH]; simpl; intros matched; [discriminate|].
  destruct (isOpenBracket c) eqn:Ec.
  - destruct (throughLastClose s) as [kept|] eqn:Ek; [|discriminate]. intros [= <-].
    apply throughLastClose_Some in Ek as (body & rest & -> & -> & Hrest).
    unfold isOpenBracket in Ec. apply Nat.eqb_eq in Ec.
    assert (Hc : c = "["%char).
    { rewrite <- (ascii_nat_embedding c), Ec. reflexivity. }
    subst c. exists "", body, rest. repeat split; [|exact Hrest].
    simpl. f_equal. clear. induction body as [|d body IHb]; simpl; [reflexivity | now rewrite IHb].
  - intros Hm. destruct (IH matched Hm) as (before & body & after & -> & Hmatched & Hb & Ha).
    exists (String c before), body, after. repeat split; try assumption.
    simpl. now rewrite Ec.
Qed.

Lemma matchBracketed_None (s : string) :
  matchBracketed s = None ->
  occurs isOpenBracket s = false
  \/ exists before rest,
       s = before ++ "[" ++ rest
       /\ occurs isOpenBracket before = false
       /\ occurs isCloseBracket rest = false.
Proof.
  induction s as [|c s IH]; simpl; [now left|].
  destruct (isOpenBracket c) eqn:Ec.
  - destruct (throughLastClose s) eqn:Ek; [discriminate|]. intros _. right.
    unfold isOpenBracket in Ec. apply Nat.eqb_eq in Ec.
    assert (Hc : c = "["%char).
    { rewrite <- (ascii_nat_embedding c), Ec. reflexivity. }
    subst c. exists "", s. repeat split. now apply throughLastClose_None.
  - intros Hm. destruct (IH Hm) as [Hno | (before & rest & -> & Hb & Hr)]; [now left|].
    right. exists (String c before), rest. repeat split; [|exact Hr]. simpl. now rewrite Ec.
Qed.

(** An ASCII character other than the six of white space begins no white
    space. *)
Lemma spaceAt_ascii (c : ascii) (rest : string) :
  (nat_of_ascii c < 128)%nat -> isAsciiSpace (nat_of_ascii c) = false ->
  spaceAt (String c rest) = 0%nat.
Proof.
  intros Hc Hspace. unfold spaceAt. rewrite Hspace.
  destruct rest as [|c2 rest]; [reflexivity|].
  destruct (Nat.eqb_spec (nat_of_ascii c) 194) as [E|_]; [lia|]. cbn [andb].
  destruct rest as [|c3 rest]; [reflexivity|].
  unfold isThreeByteSpace.
  destruct (Nat.eqb_spec (nat_of_ascii c) 225) as [E|_]; [lia|].
  destruct (Nat.eqb_spec (nat_of_ascii c) 226) as [E|_]; [lia|].
  destruct (Nat.eqb_spec (nat_of_ascii c) 227) as [E|_]; [lia|].
  destruct (Nat.eqb_spec (nat_of_ascii c) 239) as [E|_]; [lia|].
  reflexivity.
Qed.

(** A string that begins with a character that is not white space is not
    trimmed to nothing. *)
Lemma trim_keeps_text (s : string) :
  s <> "" -> spaceAt s = 0%nat -> trim s <> "".
Proof.
  intros Hs Hspace. destruct s as [|c rest]; [contradiction|].
  unfold trim, trimStart. cbn [trimStartFrom]. rewrite Hspace.
  cbn [trimEnd]. unfold blank. cbn [blankFrom]. rewrite Hspace. discriminate.
Qed.

(** White space beyond ASCII is stripped on both sides, and kept inside. *)
Lemma trim_strips_unicode_space :
  trim (NBSP ++ " a" ++ NBSP ++ "b" ++ BOM ++ LF) = "a" ++ NBSP ++ "b"
  /\ trim (BOM ++ NBSP) = ""
  /\ trim ("voil" ++ String (ascii_of_nat 195) (String (ascii_of_nat 160) ""))
     = "voil" ++ String (ascii_of_nat 195) (String (ascii_of_nat 160) "").
Proof. repeat split. Qed.

(** ** The context block *)

Lemma translatedLine_nonempty (t : string) : translatedLine t <> "".
Proof. unfold translatedLine, LF. simpl. discriminate. Qed.

Lemma sceneBlock_falsy (s : Scene) :
  truthy (narrationTranslated s) = false -> sceneBlock s = baseBlock s.
Proof. intros E. unfold sceneBlock. now rewrite E. Qed.

Lemma sceneBlock_truthy (s : Scene) :
  truthy (narrationTranslated s) = true ->
  sceneBlock s = baseBlock s ++ translatedLine (ToString (narrationTranslated s)).
Proof. intros E. unfold sceneBlock. now rewrite E. Qed.

Lemma sceneBlock_sameText (a b : Scene) : sameText a b -> sceneBlock a = sceneBlock b.
Proof.
  intros (En & Ed & Eo & Et). unfold sceneBlock, baseBlock.
  now rewrite En, Ed, Eo, Et.
Qed.

Lemma map_sceneBlock_sameText (a b : list Scene) :
  Forall2 sameText a b -> map sceneBlock a = map sceneBlock b.
Proof.
  induction 1 as [|x y a b Hxy _ IH]; simpl; [reflexivity|].
  now rewrite (sceneBlock_sameText x y Hxy), IH.
Qed.

Lemma buildScriptContext_empty_iff (l : list Scene) :
  buildScriptContext l = "" <-> l = [].
Proof.
  split; [|now intros ->].
  destruct l as [|s l]; [reflexivity | simpl; discriminate].
Qed.

(** C7. [buildScriptContext] is a function of the text fields of the scenes
    alone: two lists whose scenes carry the same number, description,
    narration and translated narration (in particular the same list rendered
    twice) give the same string; the empty list, and only it, renders as the
    empty string; a non-empty list renders as the label followed by the
    blocks of its scenes in order; and the translated line is part of a
    scene's block only when [narrationTranslated] is present (it is there
    exactly when the field is truthy). *)
Theorem buildScriptContext_pure_render :
  (forall l : list Scene, buildScriptContext l = buildScriptContext l)
  /\ (forall a b : list Scene,
        Forall2 sameText a b -> buildScriptContext a = buildScriptContext b)
  /\ buildScriptContext [] = ""
  /\ (forall l : list Scene, buildScriptContext l = "" -> l = [])
  /\ (forall l : list Scene, l <> [] ->
        buildScriptContext l
        = "CURRENT SCRIPT:" ++ LF ++ LF ++ join (LF ++ LF) (map sceneBlock l))
  /\ (forall (s : Scene) (t : string),
        sceneBlock s = baseBlock s ++ translatedLine t ->
        nullish (narrationTranslated s) = false
        /\ truthy (narrationTranslated s) = true
        /\ t = ToString (narrationTranslated s))
  /\ (forall s : Scene,
        nullish (narrationTranslated s) = true -> sceneBlock s = baseBlock s).
Proof.
  split; [reflexivity|].
  split.
  { intros a b Hab. destruct Hab as [|x y a b Hxy Hab]; [reflexivity|].
    assert (Hall : Forall2 sameText (x :: a) (y :: b)) by now constructor.
    unfold buildScriptContext.
    now rewrite (map_sceneBlock_sameText (x :: a) (y :: b) Hall). }
  split; [reflexivity|].
  split; [intros l; apply buildScriptContext_empty_iff|].
  split; [intros [|s l] Hl; [contradiction | reflexivity]|].
  split.
  - intros s t E.
    destruct (truthy (narrationTranslated s)) eqn:Et.
    + split; [destruct (narrationTranslated s); simpl in *; congruence|].
      split; [reflexivity|].
      rewrite (sceneBlock_truthy s Et) in E.
      assert (Hinj : forall p x y : string, p ++ x = p ++ y -> x = y).
      { induction p as [|c p IH]; simpl; intros x y Hxy; [assumption|].
        injection Hxy as Hxy. now apply IH. }
      apply Hinj in E. unfold translatedLine in E.
      apply Hinj in E. apply Hinj in E. now symmetry.
    + rewrite (sceneBlock_falsy s Et) in E.
      apply append_fixpoint in E. now apply translatedLine_nonempty in E.
  - intros s Hn. apply sceneBlock_falsy.
    destruct (narrationTranslated s); simpl in *; congruence.
Qed.

(** Two scene lists that differ in an image blob only render identically. *)
Lemma buildScriptContext_pure_render_witness :
  Forall2 sameText
    [mkScene (JNum 1) (JStr "d") (JStr "n") JUndef (Some (BlobHandle 7)) None]
    [mkScene (JNum 1) (JStr "d") (JStr "n") JUndef None None]
  /\ buildScriptContext
       [mkScene (JNum 1) (JStr "d") (JStr "n") JUndef (Some (BlobHandle 7)) None]
     = buildScriptContext [mkScene (JNum 1) (JStr "d") (JStr "n") JUndef None None].
Proof.
  assert (Hsame : Forall2 sameText
    [mkScene (JNum 1) (JStr "d") (JStr "n") JUndef (Some (BlobHandle 7)) None]
    [mkScene (JNum 1) (JStr "d") (JStr "n") JUndef None None]).
  { constructor; [|constructor]. repeat split. }
  split; [exact Hsame|].
  exact (proj1 (proj2 buildScriptContext_pure_render) _ _ Hsame).
Defined.

(** ** Scene normalisation *)

Lemma initialScene_Normal (item : JsVal) :
  nullish item = false ->
  initialScene item
  = Normal {| sceneNumber := coalesce (prop item "sceneNumber") (JNum 0);
              description := coalesce (prop item "description") (JStr "");
              narration := coalesce (prop item "narration") (JStr "");
              narrationTranslated := coalesce (prop item "narrationTranslated") (JStr "");
              imageBlob := None;
              audioBlob := None |}.
Proof.
  intros E. unfold initialScene. rewrite !(member_Normal _ _ E). reflexivity.
Qed.






(** ** Translation overlays ([handleChatTranslateNarrations]) *)

Lemma flatOverlay_lookup (tn : list JsVal) (prev : list Scene) (i : nat) (s : Scene) :
  prev !! i = Some s ->
  flatOverlay tn prev !! i = Some (withTranslated s (coalesce (elemAt tn i) (JStr ""))).
Proof. intros E. unfold flatOverlay. rewrite list_lookup_imap, E. reflexivity. Qed.

Lemma flatOverlay_length (tn : list JsVal) (prev : list Scene) :
  length (flatOverlay tn prev) = length prev.
Proof. unfold flatOverlay. apply length_imap. Qed.


Lemma sameFrame_withTranslated (s : Scene) (v : JsVal) : sameFrame s (withTranslated s v).
Proof. repeat split. Qed.

Lemma flatOverlay_frame (tn : list JsVal) (prev : list Scene) :
  Forall2 sameFrame prev (flatOverlay tn prev).
Proof.
  apply Forall2_same_length_lookup. split; [now rewrite flatOverlay_length|].
  intros i x y Hx Hy. rewrite (flatOverlay_lookup tn prev i x Hx) in Hy.
  injection Hy as <-. apply sameFrame_withTranslated.
Qed.

Section SparseOverlay.

Variable StringToNumber : string -> option Z.

Lemma sparseStep_total (next : list Scene) (e : JsVal) :
  nullish e = false -> exists next', sparseStep StringToNumber next e = Normal next'.
Proof.
  intros He. unfold sparseStep. rewrite (member_Normal _ _ He). simpl.
  destruct (ToNumber StringToNumber _) as [n|]; [|eauto].
  destruct (_ && _); [|eauto].
  destruct (next !! _); eauto.
Qed.

Lemma sparseStep_lookup (next next' : list Scene) (e : JsVal) :
  sparseStep StringToNumber next e = Normal next' ->
  length next' = length next
  /\ forall (i : nat) (s : Scene) (v : JsVal),
       next !! i = Some (withTranslated s v) ->
       next' !! i
       = Some (withTranslated s (if namesScene StringToNumber i e then givenText e else v)).
Proof.
  unfold sparseStep, member. destruct (nullish e); [discriminate|]. simpl.
  unfold namesScene.
  destruct (ToNumber StringToNumber _) as [n|].
  2:{ intros [= <-]. split; [reflexivity | intros i s v E; exact E]. }
  destruct (andb _ _) eqn:Hrange.
  - apply andb_prop in Hrange as [Hlo Hhi].
    apply Z.leb_le in Hlo. apply Z.ltb_lt in Hhi.
    destruct (next !! Z.to_nat (n - 1)) as [cur|] eqn:Hcur.
    2:{ intros [= <-]. apply lookup_ge_None_1 in Hcur. lia. }
    intros [= <-]. split; [apply length_insert|].
    intros i s v E.
    destruct (Z.eqb_spec n (Z.of_nat i + 1)) as [Hn|Hn].
    + assert (Hi : Z.to_nat (n - 1) = i) by lia. rewrite Hi in *.
      rewrite list_lookup_insert_eq by (apply lookup_lt_is_Some_1; eauto).
      rewrite E in Hcur. injection Hcur as <-. reflexivity.
    + rewrite list_lookup_insert_ne by lia. exact E.
  - intros [= <-]. split; [reflexivity|].
    intros i s v E.
    destruct (Z.eqb_spec n (Z.of_nat i + 1)) as [Hn|Hn]; [|exact E].
    apply lookup_lt_Some in E.
    apply andb_false_iff in Hrange as [Hlo|Hhi];
      [apply Z.leb_gt in Hlo | apply Z.ltb_ge in Hhi]; lia.
Qed.

Lemma foldM_sparseStep_total (entries : list JsVal) :
  Forall (fun e => nullish e = false) entries ->
  forall cur : list Scene, exists final, foldM (sparseStep StringToNumber) cur entries = Normal final.
Proof.
  induction 1 as [|e entries He _ IH]; intros cur; simpl; [eauto|].
  destruct (sparseStep_total cur e He) as [next' ->]. simpl. apply IH.
Qed.

Lemma foldM_sparseStep_lookup (entries : list JsVal) :
  forall cur final : list Scene,
    foldM (sparseStep StringToNumber) cur entries = Normal final ->
    length final = length cur
    /\ forall (i : nat) (s : Scene) (v : JsVal),
         cur !! i = Some (withTranslated s v) ->
         final !! i = Some (withTranslated s (textAfter StringToNumber i v entries)).
Proof.
  induction entries as [|e entries IH]; intros cur final; simpl.
  - intros [= <-]. split; [reflexivity | intros i s v E; exact E].
  - intros Hrun. apply bind_Normal in Hrun as (next' & Hstep & Hrest).
    apply sparseStep_lookup in Hstep as [Hlen Hstep].
    apply IH in Hrest as [Hlen' Hrest].
    split; [congruence|].
    intros i s v E. unfold textAfter. simpl. apply Hrest, Hstep, E.
Qed.

Lemma sparseOverlay_lookup (entries : list JsVal) (prev next : list Scene) :
  sparseOverlay StringToNumber entries prev = Normal next ->
  length next = length prev
  /\ forall (i : nat) (s : Scene),
       prev !! i = Some s ->
       next !! i = Some (withTranslated s (textAfter StringToNumber i (JStr "") entries)).
Proof.
  unfold sparseOverlay. intros Hrun.
  apply foldM_sparseStep_lookup in Hrun as [Hlen Hrun].
  split; [now rewrite Hlen, length_map|].
  intros i s E. apply Hrun.
  change (map (fun s0 => withTranslated s0 (JStr "")) prev)
    with ((fun s0 => withTranslated s0 (JStr "")) <$> prev).
  rewrite list_lookup_fmap, E. reflexivity.
Qed.

Lemma sparseOverlay_frame (entries : list JsVal) (prev next : list Scene) :
  sparseOverlay StringToNumber entries prev = Normal next -> Forall2 sameFrame prev next.
Proof.
  intros Hrun. apply sparseOverlay_lookup in Hrun as [Hlen Hrun].
  apply Forall2_same_length_lookup. split; [now rewrite Hlen|].
  intros i x y Hx Hy. rewrite (Hrun i x Hx) in Hy. injection Hy as <-.
  apply sameFrame_withTranslated.
Qed.



Lemma translateScenes_frame (args : JsVal) (prev next : list Scene) :
  translateScenes StringToNumber args prev = Normal (Some next) -> Forall2 sameFrame prev next.
Proof.
  unfold translateScenes, member. destruct (nullish args); [discriminate|]. simpl.
  destruct (prop args "translatedNarrations") as [| | | | |[|t tn]|];
    try (destruct (prop args "scenes") as [| | | | |[|e entries]|]; try discriminate;
         intros Hrun; apply bind_Normal in Hrun as (final & Hrun & [= <-]);
         now apply sparseOverlay_frame in Hrun).
  intros [= <-]. apply flatOverlay_frame.
Qed.

End SparseOverlay.

Lemma sameFrame_refl_list (l : list Scene) : Forall2 sameFrame l l.
Proof. induction l as [|s l IH]; constructor; [repeat split | exact IH]. Qed.

Lemma translateScenes_total (StringToNumber : string -> option Z) (args : JsVal) (prev : list Scene) :
  nullish args = false ->
  (forall entries, prop args "scenes" = JArr entries ->
                   Forall (fun e => nullish e = false) entries) ->
  exists r, translateScenes StringToNumber args prev = Normal r.
Proof.
  intros Hargs Hentries. unfold translateScenes. rewrite (member_Normal _ _ Hargs). simpl.
  assert (Hsparse : exists r,
    match prop args "scenes" with
    | JArr ((_ :: _) as entries) =>
        next ← sparseOverlay StringToNumber entries prev; Normal (Some next)
    | _ => Normal None
    end = Normal r).
  { destruct (prop args "scenes") as [| | | | |[|e entries]|] eqn:Es; eauto.
    destruct (foldM_sparseStep_total StringToNumber (e :: entries) (Hentries _ eq_refl)
                (map (fun s => withTranslated s (JStr "")) prev)) as [final Hfinal].
    unfold sparseOverlay. rewrite Hfinal. simpl. eauto. }
  destruct (prop args "translatedNarrations") as [| | | | |[|t tn]|]; eauto.
Qed.

(** C9. Whatever its arguments, when [handleChatTranslateNarrations]
    completes, the scene list has the same length and every scene has the
    [sceneNumber], [description], [narration], [imageBlob] and [audioBlob] it
    had: only [narrationTranslated] can differ.  It completes whenever the
    arguments object is not [null] or [undefined] and the sparse list holds no
    [null] or [undefined] entry. *)
Theorem translate_changes_only_narrationTranslated :
  forall (StringToNumber : string -> option Z) (args : JsVal) (st : AppState),
    (forall st' : AppState,
        handleChatTranslateNarrations StringToNumber args st = Normal st' ->
        length (scenes st') = length (scenes st)
        /\ Forall2 sameFrame (scenes st) (scenes st'))
    /\ (nullish args = false ->
        (forall entries, prop args "scenes" = JArr entries ->
                         Forall (fun e => nullish e = false) entries) ->
        exists st' : AppState,
          handleChatTranslateNarrations StringToNumber args st = Normal st').
Proof.
  intros S2N args st. split.
  - intros st' Hrun. unfold handleChatTranslateNarrations in Hrun.
    apply bind_Normal in Hrun as (r & Hr & Hst').
    assert (Hframe : Forall2 sameFrame (scenes st) (scenes st')).
    { destruct r as [next|]; injection Hst' as <-; simpl.
      - now apply (translateScenes_frame S2N args).
      - apply sameFrame_refl_list. }
    split; [symmetry; now apply Forall2_length in Hframe | exact Hframe].
  - intros Hargs Hentries. unfold handleChatTranslateNarrations.
    destruct (translateScenes_total S2N args (scenes st) Hargs Hentries) as [r ->].
    simpl. destruct r; eauto.
Qed.

(** A sparse translation of the second of two scenes that own blobs. *)
Lemma translate_changes_only_narrationTranslated_witness :
  let prev := [mkScene (JNum 1) (JStr "a") (JStr "n1") (JStr "uno") (Some (BlobHandle 1)) None;
               mkScene (JNum 2) (JStr "b") (JStr "n2") (JStr "dos") None (Some (BlobHandle 2))] in
  let st := mkAppState prev None false (JStr "") (JStr "") None [] in
  let args := JObj [("targetLanguage", JStr "French");
                    ("scenes", JArr [JObj [("sceneNumber", JNum 2); ("narration", JStr "deux")]])] in
  let st' := mkAppState
               [mkScene (JNum 1) (JStr "a") (JStr "n1") (JStr "") (Some (BlobHandle 1)) None;
                mkScene (JNum 2) (JStr "b") (JStr "n2") (JStr "deux") None (Some (BlobHandle 2))]
               None true (JStr "") (JStr "") None [] in
  handleChatTranslateNarrations (fun _ => None) args st = Normal st'
  /\ Forall2 sameFrame (scenes st) (scenes st').
Proof.
  intros prev st args st'.
  assert (Hrun : handleChatTranslateNarrations (fun _ => None) args st = Normal st')
    by reflexivity.
  split; [exact Hrun|].
  exact (proj2 (proj1 (translate_changes_only_narrationTranslated (fun _ => None) args st)
                  st' Hrun)).
Defined.







(** ** Batch translation *)

Section TranslationContract.

Variable JSON_parse : string -> Completion JsVal.
Variable generateContent : string -> string -> Completion (option string).


Lemma translateNarrationsBatch_result (ai : bool) (narrations : list JsVal) (lang : string)
      (result : list string) :
  translateNarrationsBatch JSON_parse ai generateContent narrations lang = Normal result ->
  length result = length narrations
  /\ (narrations <> [] ->
      exists text parsed,
        generateContent "gemini-2.5-flash" (translationPrompt narrations lang) = Normal (Some text)
        /\ JSON_parse (trim (stripFences (trim text))) = Normal parsed
        /\ result = map asString (asArray parsed)).
Proof.
  unfold translateNarrationsBatch.
  destruct ai; simpl; [|discriminate].
  destruct narrations as [|n narrations].
  { intros [= <-]. split; [reflexivity | intros Hne; contradiction]. }
  destruct (generateContent _ _) as [[text|]|e] eqn:Hreq; simpl; try discriminate.
  destruct (String.eqb (trim text) ""); [discriminate|].
  destruct (JSON_parse _) as [parsed|e] eqn:Hparse; simpl; [|discriminate].
  destruct (Nat.eqb_spec (length (asArray parsed)) (S (length narrations))) as [Hlen|Hlen];
    simpl; [|discriminate].
  intros [= <-]. split; [now rewrite length_map|].
  intros _. exists text, parsed. repeat split. exact Hparse.
Qed.

End TranslationContract.

(** C2. For every narration list and every behaviour of the remote call,
    [translateNarrationsBatch] either fails or returns a list with exactly as
    many strings as the input has narrations; nothing is padded or cut: a
    non-empty result is the parsed response, element by element and in its
    order, each element rendered as a string. *)
Theorem translateNarrationsBatch_same_length_or_fails :
  forall (JSON_parse : string -> Completion JsVal) (ai : bool)
         (generateContent : string -> string -> Completion (option string))
         (narrations : list JsVal) (targetLanguageLabel : string),
    match translateNarrationsBatch JSON_parse ai generateContent narrations targetLanguageLabel with
    | Throw _ => True
    | Normal result =>
        length result = length narrations
        /\ (narrations = [] \/
            exists text parsed,
              generateContent "gemini-2.5-flash"
                (translationPrompt narrations targetLanguageLabel) = Normal (Some text)
              /\ JSON_parse (trim (stripFences (trim text))) = Normal parsed
              /\ length (asArray parsed) = length narrations
              /\ result = map asString (asArray parsed))
    end.
Proof.
  intros JSON_parse ai gen narrations lang.
  destruct (translateNarrationsBatch _ _ _ _ _) as [result|e] eqn:Hrun; [|exact I].
  apply translateNarrationsBatch_result in Hrun as [Hlen Hshape].
  split; [exact Hlen|].
  destruct narrations as [|n narrations]; [now left | right].
  destruct Hshape as (text & parsed & Hreq & Hparse & ->); [discriminate|].
  exists text, parsed. repeat split; try assumption.
  now rewrite length_map in Hlen.
Qed.





(** ** The fallback extractor *)

Section Fallback.

Variable JSON_parse : string -> Completion JsVal.








End Fallback.



(** ** The dispatch loop *)





Section Dispatcher.

Context {H : Type}.
Variable cb : Callbacks H.
Variable genThumbnail : nat -> string -> list Blob -> string -> Completion Blob.
Variable scenes0 : list Scene.

Local Abbreviation step := (dispatchCall cb genThumbnail scenes0).
Local Abbreviation run := (dispatchFrom cb genThumbnail scenes0).










End Dispatcher.








(** * Further properties of the code *)

(** ** WAV encoding *)

Lemma littleEndian_4 (v : Z) :
  littleEndian 4 v
  = [v mod 256; (v / 256) mod 256; (v / 65536) mod 256; (v / 16777216) mod 256].
Proof. unfold littleEndian. simpl. now rewrite Z.div_1_r. Qed.

Lemma littleEndian_2 (v : Z) : littleEndian 2 v = [v mod 256; (v / 256) mod 256].
Proof. unfold littleEndian. simpl. now rewrite Z.div_1_r. Qed.

Lemma fromLittleEndian_4 (v : Z) :
  fromLittleEndian (littleEndian 4 (v mod 2 ^ 32)) = v mod 2 ^ 32.
Proof.
  rewrite littleEndian_4. unfold fromLittleEndian. simpl foldr.
  change (2 ^ 32) with 4294967296.
  pose proof (Z.mod_pos_bound v 4294967296 eq_refl) as Hv.
  generalize dependent (v mod 4294967296). intros w Hw.
  Z.to_euclidean_division_equations. lia.
Qed.

Lemma fromLittleEndian_2 (v : Z) :
  fromLittleEndian (littleEndian 2 (v mod 2 ^ 16)) = v mod 2 ^ 16.
Proof.
  rewrite littleEndian_2. unfold fromLittleEndian. simpl foldr.
  change (2 ^ 16) with 65536.
  pose proof (Z.mod_pos_bound v 65536 eq_refl) as Hv.
  generalize dependent (v mod 65536). intros w Hw.
  Z.to_euclidean_division_equations. lia.
Qed.

(** The header is the concatenation of its thirteen fields. *)
Lemma wavHeader_fields (dataSize sampleRate numChannels : Z) :
  wavHeader dataSize sampleRate numChannels
  = Normal (concat [charCodes "RIFF"; littleEndian 4 ((36 + dataSize) mod 2 ^ 32);
                    charCodes "WAVE"; charCodes "fmt ";
                    littleEndian 4 (16 mod 2 ^ 32); littleEndian 2 (1 mod 2 ^ 16);
                    littleEndian 2 (numChannels mod 2 ^ 16);
                    littleEndian 4 (sampleRate mod 2 ^ 32);
                    littleEndian 4 ((sampleRate * (numChannels * 2)) mod 2 ^ 32);
                    littleEndian 2 ((numChannels * 2) mod 2 ^ 16);
                    littleEndian 2 (16 mod 2 ^ 16);
                    charCodes "data"; littleEndian 4 (dataSize mod 2 ^ 32)]).
Proof.
  unfold wavHeader, setUint32, setUint16. rewrite !littleEndian_4, !littleEndian_2.
  generalize ((36 + dataSize) mod 2 ^ 32). intros riff.
  generalize (dataSize mod 2 ^ 32). intros size.
  generalize ((sampleRate * (numChannels * 2)) mod 2 ^ 32). intros rate.
  generalize ((numChannels * 2) mod 2 ^ 16). intros align.
  generalize (numChannels mod 2 ^ 16). intros channels.
  generalize (sampleRate mod 2 ^ 32). intros sample.
  repeat match goal with
         | |- context [(?a / ?b) mod 256] => generalize ((a / b) mod 256); intro
         | |- context [?a mod 256] => is_var a; generalize (a mod 256); intro
         end.
  reflexivity.
Qed.

Lemma getBytes_concat (offset n : nat) (pre post : list (list Z)) (mid : list Z) :
  length (concat pre) = offset -> length mid = n ->
  getBytes offset n (concat (pre ++ mid :: post)) = Some mid.
Proof.
  intros <- <-. unfold getBytes. rewrite concat_app. simpl concat. rewrite !length_app.
  destruct (Nat.leb_spec (length (concat pre) + length mid)
              (length (concat pre) + (length mid + length (concat post)))); [|lia].
  now rewrite drop_app_length, take_app_length.
Qed.

Lemma getUint32_concat (offset : nat) (pre post : list (list Z)) (v : Z) :
  length (concat pre) = offset ->
  getUint32 offset (concat (pre ++ littleEndian 4 (v mod 2 ^ 32) :: post)) = Some (v mod 2 ^ 32).
Proof.
  intros Hpre. unfold getUint32.
  rewrite (getBytes_concat offset 4 pre post _ Hpre) by reflexivity.
  simpl. f_equal. apply fromLittleEndian_4.
Qed.

Lemma getUint16_concat (offset : nat) (pre post : list (list Z)) (v : Z) :
  length (concat pre) = offset ->
  getUint16 offset (concat (pre ++ littleEndian 2 (v mod 2 ^ 16) :: post)) = Some (v mod 2 ^ 16).
Proof.
  intros Hpre. unfold getUint16.
  rewrite (getBytes_concat offset 2 pre post _ Hpre) by reflexivity.
  simpl. f_equal. apply fromLittleEndian_2.
Qed.

Lemma wavHeader_layout (dataSize sampleRate numChannels : Z) :
  exists header : list Z,
    wavHeader dataSize sampleRate numChannels = Normal header
    /\ length header = 44%nat
    /\ getBytes 0 4 header = Some (charCodes "RIFF")
    /\ getUint32 4 header = Some ((36 + dataSize) mod 2 ^ 32)
    /\ getBytes 8 4 header = Some (charCodes "WAVE")
    /\ getBytes 12 4 header = Some (charCodes "fmt ")
    /\ getUint32 16 header = Some 16
    /\ getUint16 20 header = Some 1
    /\ getUint16 22 header = Some (numChannels mod 2 ^ 16)
    /\ getUint32 24 header = Some (sampleRate mod 2 ^ 32)
    /\ getUint32 28 header = Some ((sampleRate * (numChannels * 2)) mod 2 ^ 32)
    /\ getUint16 32 header = Some ((numChannels * 2) mod 2 ^ 16)
    /\ getUint16 34 header = Some 16
    /\ getBytes 36 4 header = Some (charCodes "data")
    /\ getUint32 40 header = Some (dataSize mod 2 ^ 32).
Proof.
  eexists. split; [apply wavHeader_fields|].
  split; [reflexivity|].
  split; [apply (getBytes_concat 0 4 [] _ (charCodes "RIFF")); reflexivity|].
  split; [apply (getUint32_concat 4 [_]); reflexivity|].
  split; [apply (getBytes_concat 8 4 [_; _] _ (charCodes "WAVE")); reflexivity|].
  split; [apply (getBytes_concat 12 4 [_; _; _] _ (charCodes "fmt ")); reflexivity|].
  split; [apply (getUint32_concat 16 [_; _; _; _] _ 16); reflexivity|].
  split; [apply (getUint16_concat 20 [_; _; _; _; _] _ 1); reflexivity|].
  split; [apply (getUint16_concat 22 [_; _; _; _; _; _]); reflexivity|].
  split; [apply (getUint32_concat 24 [_; _; _; _; _; _; _]); reflexivity|].
  split; [apply (getUint32_concat 28 [_; _; _; _; _; _; _; _]); reflexivity|].
  split; [apply (getUint16_concat 32 [_; _; _; _; _; _; _; _; _]); reflexivity|].
  split; [apply (getUint16_concat 34 [_; _; _; _; _; _; _; _; _; _] _ 16); reflexivity|].
  split; [apply (getBytes_concat 36 4 [_; _; _; _; _; _; _; _; _; _; _] _ (charCodes "data"));
          reflexivity|].
  apply (getUint32_concat 40 [_; _; _; _; _; _; _; _; _; _; _; _]); reflexivity.
Qed.

(** X1. [pcmToWav] never fails and returns the samples behind a header of 44
    bytes.  Read back the way a player reads them (little endian), the
    fields of the header are: the tags RIFF, WAVE, "fmt " and data at
    offsets 0, 8, 12 and 36; the chunk size 36 + data size at 4; 16 at 16;
    format 1 at 20; the channel count at 22; the sample rate at 24; the byte
    rate, sample rate times block align, at 28; the block align, two bytes
    per channel, at 32; 16 bits per sample at 34; and the data size at 40;
    each value reduced modulo the width of its field (2^32 or 2^16). *)
Theorem pcmToWav_header_fields :
  forall (P : Platform) (pcm : list Z) (sampleRate numChannels : Z),
    exists header : list Z,
      pcmToWav P pcm sampleRate numChannels = Normal (newBlob P (header ++ pcm)%list "audio/wav")
      /\ length header = 44%nat
      /\ getBytes 0 4 header = Some (charCodes "RIFF")
      /\ getUint32 4 header = Some ((36 + Z.of_nat (length pcm)) mod 2 ^ 32)
      /\ getBytes 8 4 header = Some (charCodes "WAVE")
      /\ getBytes 12 4 header = Some (charCodes "fmt ")
      /\ getUint32 16 header = Some 16
      /\ getUint16 20 header = Some 1
      /\ getUint16 22 header = Some (numChannels mod 2 ^ 16)
      /\ getUint32 24 header = Some (sampleRate mod 2 ^ 32)
      /\ getUint32 28 header = Some ((sampleRate * (numChannels * 2)) mod 2 ^ 32)
      /\ getUint16 32 header = Some ((numChannels * 2) mod 2 ^ 16)
      /\ getUint16 34 header = Some 16
      /\ getBytes 36 4 header = Some (charCodes "data")
      /\ getUint32 40 header = Some (Z.of_nat (length pcm) mod 2 ^ 32).
Proof.
  intros P pcm sampleRate numChannels.
  destruct (wavHeader_layout (Z.of_nat (length pcm)) sampleRate numChannels)
    as (header & Hrun & Hrest).
  exists header. split; [|exact Hrest].
  unfold pcmToWav. now rewrite Hrun.
Qed.

(** ** Speech *)

Lemma voiceNameFor_valid (voice : string) : In (voiceNameFor voice) GEMINI_TTS_VOICES.
Proof.
  unfold voiceNameFor. destruct (existsb _ _) eqn:E.
  - apply existsb_exists in E as (v & Hin & Hv). apply String.eqb_eq in Hv. now subst.
  - simpl. tauto.
Qed.

Lemma voiceNameFor_known (voice : string) :
  In voice GEMINI_TTS_VOICES -> voiceNameFor voice = voice.
Proof.
  intros Hin. unfold voiceNameFor.
  assert (E : existsb (String.eqb voice) GEMINI_TTS_VOICES = true).
  { apply existsb_exists. exists voice. split; [exact Hin | apply String.eqb_refl]. }
  now rewrite E.
Qed.

(** X2. [generateTTSGemini] asks for a voice of the table whatever voice it
    is given: the requested one when the table has it, Kore otherwise
    (names are case sensitive).  When the response carries audio that
    decodes to less than 4 GiB of samples, the result is a WAV file of 24000
    Hz, one channel, 16 bits: its chunk size field is the length of the file
    less 8, its byte rate 48000, its block align 2, and its data size the
    number of bytes decoded, which follow the header unchanged.  A response
    without audio fails with "No audio in response". *)
Theorem generateTTSGemini_wav :
  forall (P : Platform) (generateSpeech : JsVal -> string -> Completion (option string))
         (text : JsVal) (voice : string),
    In (voiceNameFor voice) GEMINI_TTS_VOICES
    /\ (In voice GEMINI_TTS_VOICES -> voiceNameFor voice = voice)
    /\ (forall (d : string) (pcm : list Z),
          generateSpeech text (voiceNameFor voice) = Normal (Some d) ->
          d <> "" ->
          atob P d = Normal pcm ->
          Z.of_nat (length pcm) + 36 < 2 ^ 32 ->
          exists header : list Z,
            generateTTSGemini P true generateSpeech text voice
            = Normal (newBlob P (header ++ pcm)%list "audio/wav")
            /\ length header = 44%nat
            /\ getUint32 4 header = Some (Z.of_nat (length (header ++ pcm)%list) - 8)
            /\ getUint16 20 header = Some 1
            /\ getUint16 22 header = Some 1
            /\ getUint32 24 header = Some 24000
            /\ getUint32 28 header = Some 48000
            /\ getUint16 32 header = Some 2
            /\ getUint16 34 header = Some 16
            /\ getUint32 40 header = Some (Z.of_nat (length pcm)))
    /\ (generateSpeech text (voiceNameFor voice) = Normal None
        \/ generateSpeech text (voiceNameFor voice) = Normal (Some "") ->
        generateTTSGemini P true generateSpeech text voice
        = Throw (mkError "No audio in response")).
Proof.
  intros P gen text voice.
  split; [apply voiceNameFor_valid|].
  split; [apply voiceNameFor_known|].
  split.
  - intros d pcm Hgen Hd Hatob Hsize.
    destruct (wavHeader_layout (Z.of_nat (length pcm)) 24000 1)
      as (header & Hrun & Hlen & _ & Hriff & _ & _ & _ & Hfmt & Hch & Hsr & Hbr & Hba & Hbits
          & _ & Hdata).
    exists header.
    split.
    { unfold generateTTSGemini. simpl negb. cbv iota. rewrite Hgen. simpl.
      destruct (String.eqb_spec d ""); [contradiction|].
      rewrite Hatob. simpl. unfold pcmToWav. now rewrite Hrun. }
    split; [exact Hlen|].
    split.
    { rewrite Hriff. f_equal. rewrite length_app, Hlen.
      rewrite Z.mod_small by lia. lia. }
    split; [exact Hfmt|].
    split; [exact Hch|].
    split; [exact Hsr|].
    split; [exact Hbr|].
    split; [exact Hba|].
    split; [exact Hbits|].
    rewrite Hdata. f_equal. apply Z.mod_small. lia.
  - intros [Hgen | Hgen]; unfold generateTTSGemini; simpl negb; cbv iota; now rewrite Hgen.
Qed.

(** A response of four bytes of samples for a voice the table lacks. *)
Lemma generateTTSGemini_wav_witness :
  let P := mkPlatform (fun bytes _ => BlobHandle (length bytes)) (fun _ => "audio/wav")
             (fun _ => Normal "AAEC") (fun _ => Normal [0; 1; 2; 3]) in
  let generateSpeech := fun (_ : JsVal) (voiceName : string) =>
                          if String.eqb voiceName "Kore" then Normal (Some "AAECAw==")
                          else Normal None in
  exists header : list Z,
    generateTTSGemini P true generateSpeech (JStr "Hello") "Nobody"
    = Normal (newBlob P (header ++ [0; 1; 2; 3])%list "audio/wav")
    /\ getUint32 40 header = Some 4.
Proof.
  intros P generateSpeech.
  destruct (proj1 (proj2 (proj2 (generateTTSGemini_wav P generateSpeech (JStr "Hello") "Nobody")))
              "AAECAw==" [0; 1; 2; 3] eq_refl ltac:(discriminate) eq_refl ltac:(reflexivity))
    as (header & Hrun & _ & _ & _ & _ & _ & _ & _ & _ & Hdata).
  exists header. split; [exact Hrun | exact Hdata].
Defined.

(** X3. [generateTTS] sends a request to one provider only.  With the
    provider "elevenlabs" the result does not depend on the Gemini key or
    service, and it fails before any request when the ElevenLabs key or the
    voice id is empty; a refused request fails with a message that carries
    the status and the body of the answer.  With any other provider the
    result is that of [generateTTSGemini] and does not depend on the
    ElevenLabs key or service. *)
Theorem generateTTS_one_provider :
  forall (P : Platform) (ai : bool)
         (generateSpeech : JsVal -> string -> Completion (option string))
         (elevenLabsKey : string) (fetchSpeech : string -> JsVal -> Completion HttpResult)
         (text : JsVal) (provider voice : string),
    (provider = "elevenlabs" ->
     (forall ai' generateSpeech',
         generateTTS P ai generateSpeech elevenLabsKey fetchSpeech text provider voice
         = generateTTS P ai' generateSpeech' elevenLabsKey fetchSpeech text provider voice)
     /\ (elevenLabsKey = "" \/ voice = "" ->
         exists e, forall fetchSpeech',
             generateTTS P ai generateSpeech elevenLabsKey fetchSpeech' text provider voice
             = Throw e)
     /\ (forall (status : Z) (body : string),
           elevenLabsKey <> "" -> voice <> "" ->
           fetchSpeech voice text = Normal (HttpFailed status (Normal body)) ->
           generateTTS P ai generateSpeech elevenLabsKey fetchSpeech text provider voice
           = Throw (mkError (elevenLabsMessage status body)))
     /\ (forall blob : Blob,
           elevenLabsKey <> "" -> voice <> "" ->
           fetchSpeech voice text = Normal (HttpOk (Normal blob)) ->
           generateTTS P ai generateSpeech elevenLabsKey fetchSpeech text provider voice
           = Normal blob))
    /\ (provider <> "elevenlabs" ->
        forall elevenLabsKey' fetchSpeech',
          generateTTS P ai generateSpeech elevenLabsKey fetchSpeech text provider voice
          = generateTTSGemini P ai generateSpeech text voice
          /\ generateTTS P ai generateSpeech elevenLabsKey' fetchSpeech' text provider voice
             = generateTTSGemini P ai generateSpeech text voice).
Proof.
  intros P ai gen key fetch text provider voice. split.
  - intros ->. unfold generateTTS. simpl String.eqb. cbv iota.
    split; [reflexivity|].
    split.
    { intros [-> | ->]; unfold generateTTSElevenLabs.
      - eexists. intros fetch'. simpl. reflexivity.
      - destruct (String.eqb key ""); eexists; intros fetch'; simpl; reflexivity. }
    split.
    + intros status body Hkey Hvoice Hfetch. unfold generateTTSElevenLabs.
      destruct (String.eqb_spec key ""); [contradiction|].
      destruct (String.eqb_spec voice ""); [contradiction|].
      rewrite Hfetch. reflexivity.
    + intros blob Hkey Hvoice Hfetch. unfold generateTTSElevenLabs.
      destruct (String.eqb_spec key ""); [contradiction|].
      destruct (String.eqb_spec voice ""); [contradiction|].
      rewrite Hfetch. reflexivity.
  - intros Hp key' fetch'. unfold generateTTS.
    destruct (String.eqb_spec provider "elevenlabs"); [contradiction|]. split; reflexivity.
Qed.

(** A request refused with status 401. *)
Lemma generateTTS_one_provider_witness :
  let P := mkPlatform (fun bytes _ => BlobHandle (length bytes)) (fun _ => "audio/mpeg")
             (fun _ => Normal "") (fun _ => Normal []) in
  generateTTS P false (fun _ _ => Normal None) "key"
    (fun _ _ => Normal (HttpFailed 401 (Normal "unauthorized"))) (JStr "Hello") "elevenlabs" "v1"
  = Throw (mkError "ElevenLabs 401: Invalid API key or voice. Check your .env (REACT_APP_ELEVENLABS_API_KEY) and restart the dev server. Response: unauthorized").
Proof.
  intros P.
  exact (proj1 (proj2 (proj2 (proj1 (generateTTS_one_provider P false (fun _ _ => Normal None)
           "key" (fun _ _ => Normal (HttpFailed 401 (Normal "unauthorized")))
           (JStr "Hello") "elevenlabs" "v1") eq_refl)))
           401 "unauthorized" ltac:(discriminate) ltac:(discriminate) eq_refl).
Defined.

(** ** Image requests and responses *)

Lemma imageRefs_slots (desc : string) (anchorImages : list (option Blob)) :
  imageRefs desc anchorImages = map S (attachedSlots desc anchorImages).
Proof.
  unfold imageRefs, attachedSlots, mentionsAnchor. cbn [List.filter].
  change ("image " ++ decimal (Z.of_nat 0 + 1)) with "image 1".
  change ("image " ++ decimal (Z.of_nat 1 + 1)) with "image 2".
  change ("image " ++ decimal (Z.of_nat 2 + 1)) with "image 3".
  destruct (includes "image 1" desc && isSome (anchorAt anchorImages 0));
    destruct (includes "image 2" desc && isSome (anchorAt anchorImages 1));
    destruct (includes "image 3" desc && isSome (anchorAt anchorImages 2)); reflexivity.
Qed.

Lemma attachedSlots_present (desc : string) (anchorImages : list (option Blob)) :
  Forall (fun i => (i < 3)%nat /\ mentionsAnchor desc i = true
                   /\ isSome (anchorAt anchorImages i) = true)
         (attachedSlots desc anchorImages).
Proof.
  unfold attachedSlots. apply List.Forall_forall. intros i Hi.
  apply filter_In in Hi as [Hin Hi]. apply andb_prop in Hi as [Hm Hp].
  repeat split; try assumption. simpl in Hin. lia.
Qed.

Section ImageRequest.

Variable P : Platform.
Variable anchors : list (option Blob).

Local Abbreviation attach :=
  (fun (parts : list ReqPart) (n : nat) =>
     match anchorAt anchors (n - 1) with
     | None => Normal parts
     | Some blob => part ← inlinePart P blob; Normal (parts ++ [part])%list
     end).

Lemma attach_slots_Normal (slots : list nat) :
  forall acc images : list ReqPart,
    foldM attach acc (map S slots) = Normal images ->
    exists added,
      images = (acc ++ added)%list
      /\ Forall2 (fun i part =>
                    forall blob, anchorAt anchors i = Some blob ->
                                 inlinePart P blob = Normal part)
                 (List.filter (fun i => isSome (anchorAt anchors i)) slots) added.
Proof.
  induction slots as [|i slots IH]; intros acc images; simpl.
  - intros [= <-]. exists []. split; [now rewrite app_nil_r | constructor].
  - rewrite Nat.sub_0_r. destruct (anchorAt anchors i) as [blob|] eqn:Ei; simpl.
    + intros Hrun. apply bind_Normal in Hrun as (acc' & Hstep & Hrest).
      apply bind_Normal in Hstep as (part & Hpart & [= <-]).
      destruct (IH _ _ Hrest) as (added & -> & Hall).
      exists (part :: added). split; [now rewrite <- app_assoc|].
      constructor; [|exact Hall]. intros b Hb. congruence.
    + intros Hrun. apply (IH _ _ Hrun).
Qed.

Lemma attach_slots_total (slots : list nat) :
  (forall i blob, In i slots -> anchorAt anchors i = Some blob ->
                  exists data, blobToBase64 P blob = Normal data) ->
  forall acc, exists images, foldM attach acc (map S slots) = Normal images.
Proof.
  induction slots as [|i slots IH]; intros Hok acc; simpl; [eauto|].
  rewrite Nat.sub_0_r. destruct (anchorAt anchors i) as [blob|] eqn:Ei; simpl.
  - destruct (Hok i blob (or_introl eq_refl) Ei) as [data Hdata].
    unfold inlinePart. rewrite Hdata. simpl. apply IH.
    intros j b Hj. apply Hok. now right.
  - apply IH. intros j b Hj. apply Hok. now right.
Qed.

End ImageRequest.

Lemma filter_present_attachedSlots (desc : string) (anchors : list (option Blob)) :
  List.filter (fun i => isSome (anchorAt anchors i)) (attachedSlots desc anchors)
  = attachedSlots desc anchors.
Proof.
  pose proof (attachedSlots_present desc anchors) as Hall.
  induction (attachedSlots desc anchors) as [|i l IH]; simpl; [reflexivity|].
  inversion Hall as [|? ? (_ & _ & Hp) Hrest]; subst. rewrite Hp. f_equal. now apply IH.
Qed.

(** X4. The request of [generateImage] for a description that is a string:
    one text part followed by one image per anchor slot, among the first
    three, that the description mentions as "image N" (in any letter case)
    and that holds an image, in the order of the slots, each with the type
    of its blob or image/png.  The text is the description itself when no
    image is attached, and the description behind the fixed instruction
    otherwise.  The request is built whenever the attached blobs can be
    read. *)
Theorem generateImage_request_parts :
  forall (P : Platform) (s : string) (anchors : list (option Blob)),
    let slots := attachedSlots (toLowerCase s) anchors in
    (forall parts : list ReqPart,
        imageRequestParts P (JStr s) anchors = Normal parts ->
        exists images : list ReqPart,
          parts = TextPart ((match slots with [] => "" | _ :: _ => imagePromptPrefix end) ++ s)
                    :: images
          /\ (length images <= 3)%nat
          /\ Forall2 (fun i part =>
                        exists blob data,
                          anchors !! i = Some (Some blob)
                          /\ mentionsAnchor (toLowerCase s) i = true
                          /\ blobToBase64 P blob = Normal data
                          /\ part = InlinePart (orElse (blobType P blob) "image/png") data)
                     slots images)
    /\ (slots = [] -> imageRequestParts P (JStr s) anchors = Normal [TextPart s])
    /\ ((forall blob, In (Some blob) anchors -> exists data, blobToBase64 P blob = Normal data) ->
        exists parts, imageRequestParts P (JStr s) anchors = Normal parts).
Proof.
  intros P s anchors slots.
  assert (Hdesc : lowerDescription (JStr s) = Normal (toLowerCase s)).
  { unfold lowerDescription, jsOr. simpl. destruct (String.eqb s "") eqn:E; simpl; [|reflexivity].
    apply String.eqb_eq in E. now subst. }
  assert (Hprefix : match imageRefs (toLowerCase s) anchors with
                    | [] => "" | _ :: _ => imagePromptPrefix end
                    = match slots with [] => "" | _ :: _ => imagePromptPrefix end).
  { rewrite imageRefs_slots. fold slots. now destruct slots. }
  assert (Hlookup : forall i blob, anchorAt anchors i = Some blob -> anchors !! i = Some (Some blob)).
  { intros i blob. unfold anchorAt. destruct (anchors !! i) as [[b|]|]; simpl; congruence. }
  split; [|split].
  - intros parts Hrun. unfold imageRequestParts in Hrun. rewrite Hdesc in Hrun. simpl in Hrun.
    apply bind_Normal in Hrun as (images & Hfold & [= <-]).
    rewrite imageRefs_slots in Hfold. fold slots in Hfold.
    apply attach_slots_Normal in Hfold as (added & -> & Hall).
    unfold slots in Hall. rewrite filter_present_attachedSlots in Hall. fold slots in Hall.
    exists added. simpl app. rewrite Hprefix. split; [reflexivity|].
    split.
    + apply Forall2_length in Hall. rewrite <- Hall. unfold slots, attachedSlots.
      etransitivity; [apply filter_length_le|]. simpl. lia.
    + pose proof (attachedSlots_present (toLowerCase s) anchors) as Hpresent. fold slots in Hpresent.
      clear Hprefix. induction Hall as [|i part l images Hpart Hall IH]; [constructor|].
      inversion Hpresent as [|? ? (_ & Hm & Hp) Hrest]; subst.
      constructor; [|now apply IH].
      destruct (anchorAt anchors i) as [blob|] eqn:Ei; [|discriminate].
      specialize (Hpart blob eq_refl). unfold inlinePart in Hpart.
      apply bind_Normal in Hpart as (data & Hdata & [= <-]).
      exists blob, data. repeat split; try assumption. now apply Hlookup.
  - intros Hnone. unfold imageRequestParts. rewrite Hdesc. simpl.
    rewrite imageRefs_slots. fold slots. rewrite Hnone. reflexivity.
  - intros Hok. unfold imageRequestParts. rewrite Hdesc. simpl.
    destruct (attach_slots_total P anchors slots) with (acc := @nil ReqPart) as [images Himages].
    { intros i blob _ Hi. apply Hok. apply Hlookup in Hi.
      apply list_elem_of_In. now apply list_elem_of_lookup_2 in Hi. }
    rewrite imageRefs_slots. fold slots. rewrite Himages. simpl. eauto.
Qed.

(** A description that mentions the third and the first anchor, the second
    slot being empty. *)
Lemma generateImage_request_parts_witness :
  let P := mkPlatform (fun bytes _ => BlobHandle (length bytes)) (fun _ => "")
             (fun b => match b with BlobHandle n => Normal (decimal (Z.of_nat n)) end)
             (fun _ => Normal []) in
  imageRequestParts P (JStr "a cat like Image 3 and image 1")
    [Some (BlobHandle 1); None; Some (BlobHandle 3)]
  = Normal [TextPart (imagePromptPrefix ++ "a cat like Image 3 and image 1");
            InlinePart "image/png" "1"; InlinePart "image/png" "3"]
  /\ imageRequestParts P (JStr "a dog") [Some (BlobHandle 1); None; Some (BlobHandle 3)]
     = Normal [TextPart "a dog"].
Proof.
  intros P. split; [reflexivity|].
  exact (proj1 (proj2 (generateImage_request_parts P "a dog"
                         [Some (BlobHandle 1); None; Some (BlobHandle 3)])) eq_refl).
Defined.

Lemma firstImage_no_data (P : Platform) (outParts : list OutPart) :
  Forall (fun part => hasData part = false) outParts ->
  firstImage P outParts = Throw (mkError "No image in response").
Proof.
  induction 1 as [|part rest Hpart _ IH]; simpl; [reflexivity|].
  unfold hasData in Hpart. destruct (out_data part) as [data|]; [|exact IH].
  apply negb_false_iff in Hpart. now rewrite Hpart.
Qed.

Lemma firstImage_first_data (P : Platform) (before : list OutPart) (part : OutPart)
    (after : list OutPart) :
  Forall (fun p => hasData p = false) before ->
  hasData part = true ->
  firstImage P (before ++ part :: after) = decodedImage P part.
Proof.
  intros Hbefore Hpart. induction Hbefore as [|p rest Hp _ IH]; simpl.
  - unfold hasData in Hpart. unfold decodedImage.
    destruct (out_data part) as [data|]; [|discriminate].
    apply negb_true_iff in Hpart. now rewrite Hpart.
  - unfold hasData in Hp. destruct (out_data p) as [data|]; [|exact IH].
    apply negb_false_iff in Hp. now rewrite Hp.
Qed.

Lemma firstImage_Normal (P : Platform) (outParts : list OutPart) (blob : Blob) :
  firstImage P outParts = Normal blob ->
  exists before part after,
    outParts = (before ++ part :: after)%list
    /\ Forall (fun p => hasData p = false) before
    /\ hasData part = true
    /\ decodedImage P part = Normal blob.
Proof.
  induction outParts as [|p rest IH]; simpl; [discriminate|].
  destruct (hasData p) eqn:Hp.
  - intros Hrun. exists [], p, rest. repeat split; try assumption; [constructor|].
    rewrite <- Hrun. unfold hasData in Hp. unfold decodedImage.
    destruct (out_data p) as [data|]; [|discriminate].
    apply negb_true_iff in Hp. now rewrite Hp.
  - assert (Hskip : match out_data p with
                    | Some data =>
                        if String.eqb data "" then firstImage P rest
                        else bytes ← atob P data;
                             Normal (newBlob P bytes (orElse (default "" (out_mimeType p)) "image/png"))
                    | None => firstImage P rest
                    end = firstImage P rest).
    { unfold hasData in Hp. destruct (out_data p) as [data|]; [|reflexivity].
      apply negb_false_iff in Hp. now rewrite Hp. }
    rewrite Hskip. intros Hrun. destruct (IH Hrun) as (before & part & after & -> & Hb & Hd & Hdec).
    exists (p :: before), part, after. repeat split; try assumption. now constructor.
Qed.

(** X5. The image taken from a response, in [generateImage] and in
    [generateYouTubeThumbnail].  Without a key each of them fails before
    anything is asked.  With a key, once its request has been built and
    answered, the result is decoded from the first part of the answer that
    carries image data, with the type the part names or image/png, whatever
    follows that part; and an answer without such a part (no candidate, no
    parts, only text or empty data) fails with 'No image in response'. *)
Theorem image_response_first_data_wins :
  forall (P : Platform) (gen : string -> list ReqPart -> Completion (option (list OutPart)))
         (description : JsVal) (anchors : list (option Blob))
         (summary : string) (blobs : list (option Blob)) (modelId : string),
    generateImage P false gen description anchors modelId
    = Throw (mkError "API key not configured")
    /\ generateYouTubeThumbnail P false gen summary blobs modelId
       = Throw (mkError "API key not configured")
    /\ (forall (request : list ReqPart) (response : option (list OutPart)),
           imageRequestParts P description anchors = Normal request ->
           gen modelId request = Normal response ->
           (forall before part after,
               default [] response = (before ++ part :: after)%list ->
               Forall (fun p => hasData p = false) before ->
               hasData part = true ->
               generateImage P true gen description anchors modelId
               = (bytes ← atob P (default "" (out_data part));
                  Normal (newBlob P bytes (orElse (default "" (out_mimeType part)) "image/png"))))
           /\ (Forall (fun p => hasData p = false) (default [] response) ->
               generateImage P true gen description anchors modelId
               = Throw (mkError "No image in response")))
    /\ (forall (request : list ReqPart) (response : option (list OutPart)),
           partsWithBlobs P 2 (thumbnailRequestPrompt summary) blobs = Normal request ->
           gen modelId request = Normal response ->
           (forall before part after,
               default [] response = (before ++ part :: after)%list ->
               Forall (fun p => hasData p = false) before ->
               hasData part = true ->
               generateYouTubeThumbnail P true gen summary blobs modelId
               = (bytes ← atob P (default "" (out_data part));
                  Normal (newBlob P bytes (orElse (default "" (out_mimeType part)) "image/png"))))
           /\ (Forall (fun p => hasData p = false) (default [] response) ->
               generateYouTubeThumbnail P true gen summary blobs modelId
               = Throw (mkError "No image in response"))).
Proof.
  intros P gen description anchors summary blobs modelId.
  split; [reflexivity|]. split; [reflexivity|]. split.
  - intros request response Hreq Hgen. unfold generateImage. simpl negb. cbv iota.
    rewrite Hreq. simpl. rewrite Hgen. simpl. split.
    + intros before part after -> Hb Hp. now apply firstImage_first_data.
    + apply firstImage_no_data.
  - intros request response Hreq Hgen. unfold generateYouTubeThumbnail. simpl negb. cbv iota.
    rewrite Hreq. simpl. rewrite Hgen. simpl. split.
    + intros before part after -> Hb Hp. now apply firstImage_first_data.
    + apply firstImage_no_data.
Qed.

(** An answer whose first part is text and whose second and third parts
    carry images: the second part is the result, for the image of a scene
    and for the thumbnail alike. *)
Lemma image_response_first_data_wins_witness :
  let P := mkPlatform (fun bytes type => BlobHandle (length bytes)) (fun _ => "")
             (fun _ => Normal "AA==") (fun data => Normal [Z.of_nat (String.length data)]) in
  let answer := [mkOutPart None None; mkOutPart (Some "AAAA") None;
                 mkOutPart (Some "BB") (Some "image/jpeg")] in
  let gen := fun (_ : string) (_ : list ReqPart) => Normal (Some answer) in
  generateImage P true gen (JStr "a cat") [] "m" = Normal (BlobHandle 1)
  /\ generateYouTubeThumbnail P true gen "s" [] "m" = Normal (BlobHandle 1).
Proof.
  intros P answer gen.
  destruct (image_response_first_data_wins P gen (JStr "a cat") [] "s" [] "m")
    as (_ & _ & Himage & Hthumb).
  split.
  - rewrite (proj1 (Himage [TextPart "a cat"] (Some answer) eq_refl eq_refl)
               [mkOutPart None None] (mkOutPart (Some "AAAA") None)
               [mkOutPart (Some "BB") (Some "image/jpeg")] eq_refl
               ltac:(repeat constructor) eq_refl).
    reflexivity.
  - rewrite (proj1 (Hthumb [TextPart (thumbnailRequestPrompt "s")] (Some answer) eq_refl eq_refl)
               [mkOutPart None None] (mkOutPart (Some "AAAA") None)
               [mkOutPart (Some "BB") (Some "image/jpeg")] eq_refl
               ltac:(repeat constructor) eq_refl).
    reflexivity.
Defined.

(** ** Title, description and thumbnail requests *)

Lemma mapM_inlinePart_shape (P : Platform) (blobs : list Blob) (images : list ReqPart) :
  mapM (inlinePart P) blobs = Normal images ->
  length images = length blobs
  /\ Forall (fun part => exists mime data, part = InlinePart mime data) images.
Proof.
  revert images. induction blobs as [|blob blobs IH]; intros images; simpl.
  - intros [= <-]. split; [reflexivity | constructor].
  - intros Hrun. apply bind_Normal in Hrun as (part & Hpart & Hrun).
    apply bind_Normal in Hrun as (rest & Hrest & [= <-]).
    destruct (IH _ Hrest) as [Hlen Hall].
    unfold inlinePart in Hpart. apply bind_Normal in Hpart as (data & _ & [= <-]).
    split; [simpl; now rewrite Hlen | constructor; eauto].
Qed.

Lemma partsWithBlobs_shape (P : Platform) (n : nat) (prompt : string)
    (blobs : list (option Blob)) (parts : list ReqPart) :
  partsWithBlobs P n prompt blobs = Normal parts ->
  promptWithImages prompt n parts.
Proof.
  unfold partsWithBlobs. intros Hrun.
  apply bind_Normal in Hrun as (images & Himages & [= <-]).
  apply mapM_inlinePart_shape in Himages as [Hlen Hall].
  exists images. repeat split; try assumption.
  rewrite Hlen. unfold firstBlobs. rewrite length_take. lia.
Qed.

(** X6. What the three metadata services ask and return.  The title and the
    description services consult the text model on their prompt followed
    by at most three inline images, the thumbnail service consults the
    image model on its prompt followed by at most two: two models that
    agree on such requests give the same results.  A title that is
    returned is never empty: a missing or blank answer gives 'Untitled',
    whereas the description is then the empty string. *)
Theorem metadata_requests_bounded :
  forall (P : Platform) (ai : bool) (summary : string) (blobs : list (option Blob))
         (modelId : string)
         (text text' : list ReqPart -> Completion (option string))
         (image image' : string -> list ReqPart -> Completion (option (list OutPart))),
    (forall parts, promptWithImages (titlePrompt summary) 3 parts -> text parts = text' parts) ->
    (forall parts, promptWithImages (descriptionPrompt summary) 3 parts ->
                   text parts = text' parts) ->
    (forall parts, promptWithImages (thumbnailRequestPrompt summary) 2 parts ->
                   image modelId parts = image' modelId parts) ->
    generateYouTubeTitle P ai text summary blobs = generateYouTubeTitle P ai text' summary blobs
    /\ generateYouTubeDescription P ai text summary blobs
       = generateYouTubeDescription P ai text' summary blobs
    /\ generateYouTubeThumbnail P ai image summary blobs modelId
       = generateYouTubeThumbnail P ai image' summary blobs modelId
    /\ (forall title, generateYouTubeTitle P ai text summary blobs = Normal title ->
                      title <> "")
    /\ (forall parts answer,
           ai = true ->
           partsWithBlobs P 3 (titlePrompt summary) blobs = Normal parts ->
           text parts = Normal answer ->
           default "" (trim <$> answer) = "" ->
           generateYouTubeTitle P ai text summary blobs = Normal "Untitled")
    /\ (forall parts answer,
           ai = true ->
           partsWithBlobs P 3 (descriptionPrompt summary) blobs = Normal parts ->
           text parts = Normal answer ->
           default "" (trim <$> answer) = "" ->
           generateYouTubeDescription P ai text summary blobs = Normal "").
Proof.
  intros P ai summary blobs modelId text text' image image' Htitle Hdesc Hthumb.
  unfold generateYouTubeTitle, generateYouTubeDescription, generateYouTubeThumbnail.
  destruct ai; simpl negb; cbv iota.
  2: { repeat split; try discriminate. }
  split; [|split; [|split; [|split; [|split]]]].
  - destruct (partsWithBlobs P 3 (titlePrompt summary) blobs) as [parts|e] eqn:E; simpl;
      [|reflexivity].
    now rewrite (Htitle parts (partsWithBlobs_shape _ _ _ _ _ E)).
  - destruct (partsWithBlobs P 3 (descriptionPrompt summary) blobs) as [parts|e] eqn:E; simpl;
      [|reflexivity].
    now rewrite (Hdesc parts (partsWithBlobs_shape _ _ _ _ _ E)).
  - destruct (partsWithBlobs P 2 (thumbnailRequestPrompt summary) blobs) as [parts|e] eqn:E;
      simpl; [|reflexivity].
    now rewrite (Hthumb parts (partsWithBlobs_shape _ _ _ _ _ E)).
  - intros title Hrun. apply bind_Normal in Hrun as (parts & _ & Hrun).
    apply bind_Normal in Hrun as (answer & _ & [= <-]).
    unfold orElse. destruct (String.eqb (default "" (trim <$> answer)) "") eqn:E.
    + discriminate.
    + now apply String.eqb_neq in E.
  - intros parts answer _ Hparts Hanswer Hblank. rewrite Hparts. simpl. rewrite Hanswer. simpl.
    now rewrite Hblank.
  - intros parts answer _ Hparts Hanswer Hblank. rewrite Hparts. simpl. rewrite Hanswer. simpl.
    now rewrite Hblank.
Qed.

(** A model that answers only requests of the expected shape, and with white
    space: the title is 'Untitled'. *)
Lemma metadata_requests_bounded_witness :
  let P := mkPlatform (fun bytes type => BlobHandle (length bytes)) (fun _ => "")
             (fun _ => Normal "AA==") (fun _ => Normal []) in
  let text := fun parts : list ReqPart =>
                if (length parts <=? 4)%nat then Normal (Some "  ")
                else Throw (mkError "too many parts") in
  generateYouTubeTitle P true text "Scene 1: a cat"
    [Some (BlobHandle 1); None; Some (BlobHandle 2); Some (BlobHandle 3); Some (BlobHandle 4)]
  = Normal "Untitled".
Proof.
  intros P text.
  refine (proj1 (proj2 (proj2 (proj2 (proj2
    (metadata_requests_bounded P true "Scene 1: a cat"
       [Some (BlobHandle 1); None; Some (BlobHandle 2); Some (BlobHandle 3); Some (BlobHandle 4)]
       "m" text text (fun _ _ => Normal None) (fun _ _ => Normal None)
       (fun _ _ => eq_refl) (fun _ _ => eq_refl) (fun _ _ => eq_refl))))))
    _ (Some "  ") eq_refl eq_refl eq_refl eq_refl).
Defined.

(** ** The request of a chat turn *)

Lemma append_assoc (a b c : string) : ((a ++ b) ++ c = a ++ (b ++ c))%string.
Proof. induction a as [|x a IH]; simpl; [reflexivity | now rewrite IH]. Qed.

Lemma mapM_inlinePart_encodes (P : Platform) (blobs : list Blob) (images : list ReqPart) :
  mapM (inlinePart P) blobs = Normal images -> Forall2 (encodes P) blobs images.
Proof.
  revert images. induction blobs as [|blob blobs IH]; intros images; simpl.
  - intros [= <-]. constructor.
  - intros Hrun. apply bind_Normal in Hrun as (part & Hpart & Hrun).
    apply bind_Normal in Hrun as (rest & Hrest & [= <-]).
    unfold inlinePart in Hpart. apply bind_Normal in Hpart as (data & Hdata & [= <-]).
    constructor; [now exists data | now apply IH].
Qed.

Lemma existsb_isSome_false (anchors : list (option Blob)) :
  existsb isSome anchors = false <-> Forall (fun a => a = None) anchors.
Proof.
  induction anchors as [|[b|] anchors IH]; simpl.
  - split; [constructor | reflexivity].
  - split; [discriminate | intros Hall; inversion Hall; discriminate].
  - rewrite IH. split; [now constructor | intros Hall; now inversion Hall].
Qed.

Lemma length_omap_id (anchors : list (option Blob)) :
  (length (omap id anchors) <= length anchors)%nat.
Proof. induction anchors as [|[b|] anchors IH]; cbn; lia. Qed.

Lemma omap_id_all_None (anchors : list (option Blob)) :
  Forall (fun a => a = None) anchors -> omap id anchors = [].
Proof. induction 1 as [|a anchors -> _ IH]; simpl; [reflexivity | exact IH]. Qed.

(** X7. What [sendAssistantMessage] sends.  Without a script and without
    anchor images it is the user's message itself.  In every case the text
    sent ends with the user's message, and what precedes it (the anchor
    preface, the rendered script) is empty only in that first case.  The
    images sent are those held by the first three anchor slots, in order, at
    most three; an image held only by a later slot is not sent although the
    preface that announces the images is. *)
Theorem chat_request_payload :
  forall (P : Platform) (message : string) (anchors : list (option Blob))
         (scenes : list Scene),
    (scenes = [] -> Forall (fun a => a = None) anchors ->
     chatPayload P message anchors scenes = Normal (TextPayload message))
    /\ (forall payload,
           chatPayload P message anchors scenes = Normal payload ->
           exists pre,
             payloadText payload = Some (pre ++ message)
             /\ (pre = "" <-> scenes = [] /\ Forall (fun a => a = None) anchors)
             /\ Forall2 (encodes P) (omap id (take 3 anchors)) (payloadImages payload)
             /\ (length (payloadImages payload) <= 3)%nat)
    /\ (Forall (fun a => a = None) (take 3 anchors) ->
        Exists (fun a => a <> None) anchors ->
        chatPayload P message anchors scenes
        = Normal (PartsPayload [TextPart (anchorPreface ++ textPayloadOf message scenes)])).
Proof.
  intros P message anchors scenes.
  assert (Htext : exists ctx, textPayloadOf message scenes = ctx ++ message
                              /\ (ctx = "" <-> scenes = [])).
  { unfold textPayloadOf. destruct (String.eqb (buildScriptContext scenes) "") eqn:E.
    - exists "". split; [reflexivity|]. apply String.eqb_eq in E.
      apply buildScriptContext_empty_iff in E. tauto.
    - apply String.eqb_neq in E.
      exists (buildScriptContext scenes ++ LF ++ LF ++ "USER MESSAGE:" ++ LF).
      split.
      + now rewrite !append_assoc.
      + split.
        * intros Hctx. exfalso. destruct scenes as [|s l]; [now apply E|]. discriminate.
        * intros ->. now contradiction E. }
  destruct Htext as (ctx & Htext & Hctx).
  split; [|split].
  - intros -> Hnone. unfold chatPayload. apply existsb_isSome_false in Hnone.
    now rewrite Hnone.
  - intros payload. unfold chatPayload.
    destruct (existsb isSome anchors) eqn:Hsome.
    + intros Hrun. apply bind_Normal in Hrun as (images & Himages & [= <-]).
      exists (anchorPreface ++ ctx). simpl payloadText. simpl payloadImages.
      rewrite Htext. split; [now rewrite append_assoc|].
      split; [split|split].
      * discriminate.
      * intros [_ Hnone]. apply existsb_isSome_false in Hnone. congruence.
      * now apply mapM_inlinePart_encodes.
      * apply mapM_inlinePart_shape in Himages as [-> _].
        etransitivity; [apply length_omap_id|]. rewrite length_take. lia.
    + intros [= <-]. exists ctx. simpl. split; [now rewrite Htext|].
      split; [|split].
      * rewrite Hctx. apply existsb_isSome_false in Hsome. tauto.
      * apply existsb_isSome_false in Hsome.
        rewrite omap_id_all_None; [constructor|]. now apply Forall_take.
      * lia.
  - intros Hfirst Hlater. unfold chatPayload.
    destruct (existsb isSome anchors) eqn:Hsome.
    + rewrite (omap_id_all_None _ Hfirst). reflexivity.
    + apply existsb_isSome_false in Hsome. exfalso.
      apply Exists_exists in Hlater as (a & Hin & Ha).
      rewrite Forall_forall in Hsome. now apply Ha, Hsome.
Qed.

(** A turn with a script of one scene and an image in the fourth anchor slot
    only: the preface and the script come before the message, and no image
    is sent. *)
Lemma chat_request_payload_witness :
  let P := mkPlatform (fun bytes type => BlobHandle (length bytes)) (fun _ => "")
             (fun _ => Normal "AA==") (fun _ => Normal []) in
  let scene := mkScene (JNum 1) (JStr "a cat") (JStr "Once") (JStr "") None None in
  chatPayload P "shorter" [] [] = Normal (TextPayload "shorter")
  /\ chatPayload P "shorter" [None; None; None; Some (BlobHandle 4)] [scene]
     = Normal (PartsPayload [TextPart (anchorPreface ++ textPayloadOf "shorter" [scene])]).
Proof.
  intros P scene. split.
  - apply (proj1 (chat_request_payload P "shorter" [] [])); [reflexivity | constructor].
  - apply (proj2 (proj2 (chat_request_payload P "shorter"
                           [None; None; None; Some (BlobHandle 4)] [scene]))).
    + repeat constructor.
    + apply Exists_cons_tl, Exists_cons_tl, Exists_cons_tl, Exists_cons_hd. discriminate.
Defined.

(** ** The handlers of the application *)

Lemma mapAt_length (index : nat) (f : Scene -> Scene) (prev : list Scene) :
  length (mapAt index f prev) = length prev.
Proof. unfold mapAt. apply length_imap. Qed.

Lemma mapAt_lookup (index : nat) (f : Scene -> Scene) (prev : list Scene) (i : nat) :
  mapAt index f prev !! i
  = (fun s => if (i =? index)%nat then f s else s) <$> prev !! i.
Proof. unfold mapAt. apply list_lookup_imap. Qed.

Lemma mapAt_other (index : nat) (f : Scene -> Scene) (prev : list Scene) (i : nat) :
  i <> index -> mapAt index f prev !! i = prev !! i.
Proof.
  intros Hi. rewrite mapAt_lookup. apply Nat.eqb_neq in Hi. rewrite Hi.
  now destruct (prev !! i).
Qed.

Lemma mapAt_beyond (index : nat) (f : Scene -> Scene) (prev : list Scene) :
  (length prev <= index)%nat -> mapAt index f prev = prev.
Proof.
  intros Hlen. apply list_eq. intros i. rewrite mapAt_lookup.
  destruct (prev !! i) as [s|] eqn:E; [|reflexivity]. simpl.
  apply lookup_lt_Some in E. destruct (Nat.eqb_spec i index); [lia | reflexivity].
Qed.


Lemma withApp_same (ui : Ui) (l : list Scene) :
  l = scenes (app ui) -> withApp (fun a => setScenes l a) ui = ui.
Proof. intros ->. destruct ui as [[] ? ? ? ? ? ? ?]. reflexivity. Qed.

Lemma messageOr_truthy (err : JsVal) (fallback : string) :
  fallback <> "" -> truthy (messageOr err fallback) = true.
Proof.
  intros Hne. unfold messageOr, jsOr.
  destruct (truthy (optProp err "message")) eqn:E; [exact E|].
  simpl. apply String.eqb_neq in Hne. now rewrite Hne.
Qed.

(** X8. Writing a field of a scene, [handleUpdateScene]: in the scene at
    the index the field that is named gets the value, each of the six fields
    of a scene, its image and its audio included, being replaced exactly
    when it is the one named, and a write under another name leaving all
    six; every other scene, the number of scenes and everything outside the
    script stay as they were; an index that names no scene changes nothing
    at all. *)
Theorem handleUpdateScene_one_field_of_one_scene :
  forall (index : nat) (update : SceneUpdate) (ui : Ui),
    let ui' := handleUpdateScene index update ui in
    length (scenes (app ui')) = length (scenes (app ui))
    /\ (forall i, i <> index -> scenes (app ui') !! i = scenes (app ui) !! i)
    /\ (forall s, scenes (app ui) !! index = Some s ->
                  exists s',
                    scenes (app ui') !! index = Some s'
                    /\ sceneNumber s'
                       = match update with UpdateSceneNumber v => v | _ => sceneNumber s end
                    /\ description s'
                       = match update with UpdateDescription v => v | _ => description s end
                    /\ narration s'
                       = match update with UpdateNarration v => v | _ => narration s end
                    /\ narrationTranslated s'
                       = match update with
                         | UpdateNarrationTranslated v => v
                         | _ => narrationTranslated s
                         end
                    /\ imageBlob s'
                       = match update with UpdateImageBlob b => b | _ => imageBlob s end
                    /\ audioBlob s'
                       = match update with UpdateAudioBlob b => b | _ => audioBlob s end)
    /\ setScenes (scenes (app ui)) (app ui') = app ui
    /\ withApp (fun _ => app ui) ui' = ui
    /\ ((length (scenes (app ui)) <= index)%nat -> ui' = ui).
Proof.
  intros index update ui ui'. subst ui'. unfold handleUpdateScene.
  split; [|split; [|split; [|split; [|split]]]].
  - simpl. apply mapAt_length.
  - intros i Hi. simpl. now apply mapAt_other.
  - intros s Hs. simpl. rewrite mapAt_lookup, Hs. simpl. rewrite Nat.eqb_refl.
    eexists. split; [reflexivity|]. destruct update; simpl; repeat split.
  - destruct ui as [[] ? ? ? ? ? ? ?]. reflexivity.
  - destruct ui as [[] ? ? ? ? ? ? ?]. reflexivity.
  - intros Hlen. apply withApp_same. now apply mapAt_beyond.
Qed.

Lemma sameButImage_refl (s : Scene) : sameButImage s s.
Proof. repeat split. Qed.

Lemma sameButAudio_refl (s : Scene) : sameButAudio s s.
Proof. repeat split. Qed.



Lemma existsb_truthy_narrations (l : list Scene) :
  existsb truthy (map (fun s => jsOr (narration s) (JStr "")) l)
  = existsb (fun s => truthy (narration s)) l.
Proof.
  induction l as [|s l IH]; simpl; [reflexivity|]. rewrite IH. f_equal.
  unfold jsOr. now destruct (truthy (narration s)) eqn:E.
Qed.

(** X10. Translating every narration from the settings panel,
    [handleTranslateAllNarrations].  Nothing happens, and nothing is asked,
    when no scene has a narration.  Otherwise the handler ends with the
    busy flag down and either the error is cleared, the translated view is
    switched on and every scene holds the translation of its own position
    in a result that has exactly one string per scene (so nothing is padded
    with the empty string here), or the error banner holds a message and
    the script and the view are as they were.  Only [narrationTranslated]
    of a scene can change. *)
Theorem handleTranslateAllNarrations_all_or_nothing :
  forall (svc : Services) (ui : Ui),
    let ui' := handleTranslateAllNarrations svc ui in
    (Forall (fun s => truthy (narration s) = false) (scenes (app ui)) -> ui' = ui)
    /\ (Exists (fun s => truthy (narration s) = true) (scenes (app ui)) ->
        translating (flags ui') = false
        /\ ((exists translated,
                translateNarrationsBatch (jsonParseOf svc) (geminiKey svc)
                  (translationContent svc)
                  (map (fun s => jsOr (narration s) (JStr "")) (scenes (app ui)))
                  (translationLanguage (settings ui)) = Normal translated
                /\ length translated = length (scenes (app ui))
                /\ error ui' = JNull
                /\ showTranslated (app ui') = true
                /\ (forall i s, scenes (app ui) !! i = Some s ->
                                exists t, translated !! i = Some t
                                          /\ scenes (app ui') !! i
                                             = Some (withTranslated s (JStr t))))
            \/ (truthy (error ui') = true /\ app ui' = app ui)))
    /\ Forall2 sameFrame (scenes (app ui)) (scenes (app ui')).
Proof.
  intros svc ui ui'. subst ui'. unfold handleTranslateAllNarrations.
  rewrite existsb_truthy_narrations.
  destruct (existsb (fun s => truthy (narration s)) (scenes (app ui))) eqn:Hany;
    simpl negb; cbv iota.
  2: { split; [reflexivity|]. split; [|apply sameFrame_refl_list].
       intros Hex. exfalso. apply Exists_exists in Hex as (s & Hin & Hs).
       assert (existsb (fun s => truthy (narration s)) (scenes (app ui)) = true); [|congruence].
       apply existsb_exists. exists s. split; [|exact Hs]. now apply list_elem_of_In. }
  set (narrations := map (fun s => jsOr (narration s) (JStr "")) (scenes (app ui))).
  destruct (translateNarrationsBatch _ _ _ narrations _) as [translated|err] eqn:Hrun.
  - apply translateNarrationsBatch_result in Hrun as Hres. destruct Hres as [Hlen _].
    unfold narrations in Hlen. rewrite length_map in Hlen.
    split; [|split].
    + intros Hall. exfalso. apply existsb_exists in Hany as (s & Hin & Hs).
      rewrite Forall_forall in Hall. apply list_elem_of_In in Hin.
      specialize (Hall s Hin). simpl in Hall. congruence.
    + intros _. split; [reflexivity|]. left. exists translated.
      repeat split; try assumption; try reflexivity.
      intros i s Hs. simpl.
        assert (Hi : (i < length translated)%nat).
        { rewrite Hlen. now apply lookup_lt_Some in Hs. }
        apply lookup_lt_is_Some_2 in Hi as [t Ht]. exists t. split; [exact Ht|].
        rewrite (flatOverlay_lookup _ _ _ _ Hs). unfold elemAt.
        rewrite list_lookup_fmap, Ht. reflexivity.
    + simpl. apply flatOverlay_frame.
  - split; [|split].
    + intros Hall. exfalso. apply existsb_exists in Hany as (s & Hin & Hs).
      rewrite Forall_forall in Hall. apply list_elem_of_In in Hin.
      specialize (Hall s Hin). simpl in Hall. congruence.
    + intros _. split; [reflexivity|]. right.
      split; [now apply messageOr_truthy | reflexivity].
    + simpl. apply sameFrame_refl_list.
Qed.

Lemma mapM_initialScene_no_media (items : list JsVal) (normalized : list Scene) :
  mapM initialScene items = Normal normalized ->
  length normalized = length items
  /\ Forall (fun s => imageBlob s = None /\ audioBlob s = None) normalized
  /\ Forall (fun item => nullish item = false) items.
Proof.
  revert normalized. induction items as [|item items IH]; intros normalized; simpl.
  - intros [= <-]. repeat split; constructor.
  - intros Hrun. apply bind_Normal in Hrun as (s & Hs & Hrun).
    apply bind_Normal in Hrun as (rest & Hrest & [= <-]).
    destruct (IH _ Hrest) as (Hlen & Hmedia & Hitems).
    assert (Hitem : nullish item = false).
    { unfold initialScene, member in Hs. destruct (nullish item); [discriminate | reflexivity]. }
    assert (Hblobs : imageBlob s = None /\ audioBlob s = None).
    { unfold initialScene, member in Hs. rewrite Hitem in Hs. simpl in Hs.
      injection Hs as <-. split; reflexivity. }
    repeat split; [simpl; now rewrite Hlen | now constructor | now constructor].
Qed.

Lemma mapM_initialScene_null (items : list JsVal) :
  Exists (fun item => nullish item = true) items ->
  exists err, mapM initialScene items = Throw err.
Proof.
  induction 1 as [item items Hitem | item items _ IH]; simpl.
  - unfold initialScene, member. rewrite Hitem. simpl. eauto.
  - destruct (initialScene item) as [s|e]; simpl; [|eauto].
    destruct IH as [err ->]. simpl. eauto.
Qed.

(** X11. Generating the script from the idea, [handleGenerateScenes].  A
    blank idea does nothing.  Otherwise the handler never throws and ends
    with the busy flag down, and the script is replaced as a whole or not
    at all: either the error is cleared, the project is named and the new
    script has one scene per generated item, none with an image or an
    audio, or the error banner holds a message and the script, its media
    included, is what it was; a generated list with a null item is such a
    failure. *)
Theorem handleGenerateScenes_all_or_nothing :
  forall (svc : Services) (ui : Ui),
    let ui' := handleGenerateScenes svc ui in
    (trim (movieIdea (settings ui)) = "" -> ui' = ui)
    /\ (trim (movieIdea (settings ui)) <> "" ->
        loading (flags ui') = false
        /\ ((exists generated,
                generateScenes (jsonParseOf svc) (geminiKey svc) (promptTemplate svc)
                  (scenesContent svc) (trim (movieIdea (settings ui))) = Normal generated
                /\ mapM initialScene generated = Normal (scenes (app ui'))
                /\ length (scenes (app ui')) = length generated
                /\ Forall (fun s => imageBlob s = None /\ audioBlob s = None) (scenes (app ui'))
                /\ projectName (app ui') = Some (projectNameNow svc)
                /\ error ui' = JNull)
            \/ (truthy (error ui') = true /\ app ui' = app ui)))
    /\ (forall generated,
           trim (movieIdea (settings ui)) <> "" ->
           generateScenes (jsonParseOf svc) (geminiKey svc) (promptTemplate svc)
             (scenesContent svc) (trim (movieIdea (settings ui))) = Normal generated ->
           Exists (fun item => nullish item = true) generated ->
           truthy (error ui') = true /\ app ui' = app ui).
Proof.
  intros svc ui ui'. subst ui'. unfold handleGenerateScenes.
  destruct (String.eqb_spec (trim (movieIdea (settings ui))) "") as [Hblank|Hidea].
  { split; [reflexivity|]. split; [contradiction|]. intros ? Hne. contradiction. }
  split; [contradiction|].
  destruct (generateScenes _ _ _ _ _) as [generated|err] eqn:Hgen; simpl.
  - destruct (mapM initialScene generated) as [normalized|err] eqn:Hnorm; simpl.
    + split.
      * intros _. split; [reflexivity|]. left. exists generated.
        destruct (mapM_initialScene_no_media _ _ Hnorm) as (Hlen & Hmedia & _).
        repeat split; assumption.
      * intros g _ [= <-] Hnull. apply mapM_initialScene_null in Hnull as [e He]. congruence.
    + split.
      * intros _. split; [reflexivity|]. right.
        split; [now apply messageOr_truthy | reflexivity].
      * intros g _ _ _. split; [now apply messageOr_truthy | reflexivity].
  - split.
    + intros _. split; [reflexivity|]. right.
      split; [now apply messageOr_truthy | reflexivity].
    + intros g _ [=].
Qed.

Lemma scriptSummary_not_blank (l : list Scene) :
  l <> [] -> String.eqb (trim (scriptSummary l)) "" = false.
Proof.
  intros Hne. destruct l as [|s l]; [contradiction|].
  apply String.eqb_neq.
  assert (Hhead : exists rest, scriptSummary (s :: l) = String "S" rest).
  { unfold scriptSummary. simpl map. destruct (map summaryBlock l); unfold summaryBlock;
      destruct (truthy (narrationTranslated s)); simpl; eauto. }
  destruct Hhead as [rest ->].
  apply trim_keeps_text; [discriminate|]. apply spaceAt_ascii; [now apply Nat.ltb_lt | reflexivity].
Qed.

Lemma generateYouTubeTitle_not_empty (P : Platform) (ai : bool)
    (text : list ReqPart -> Completion (option string)) (summary : string)
    (blobs : list (option Blob)) (title : string) :
  generateYouTubeTitle P ai text summary blobs = Normal title -> title <> "".
Proof.
  unfold generateYouTubeTitle. destruct ai; simpl; [|discriminate].
  intros Hrun. apply bind_Normal in Hrun as (parts & _ & Hrun).
  apply bind_Normal in Hrun as (answer & _ & [= <-]).
  unfold orElse. destruct (String.eqb (default "" (trim <$> answer)) "") eqn:E.
  - discriminate.
  - now apply String.eqb_neq in E.
Qed.

(** X12. The three metadata handlers of the application,
    [handleGenerateYouTubeTitle], [handleGenerateYouTubeDescription] and
    [handleGenerateYouTubeThumbnail].  With an empty script each of them
    does nothing; with a script of at least one scene each of them runs,
    whatever the scenes hold, and ends with its busy flag down and either
    the error cleared and its result stored (a title that is not the empty
    string, a description, a thumbnail) or a message in the error banner
    and the application state as it was.  None of them changes the script. *)
Theorem youtube_handlers_need_a_script :
  forall (svc : Services) (modelId : string) (ui : Ui),
    let title := handleGenerateYouTubeTitle svc ui in
    let desc := handleGenerateYouTubeDescription svc ui in
    let thumb := handleGenerateYouTubeThumbnail svc modelId ui in
    (scenes (app ui) = [] -> title = ui /\ desc = ui /\ thumb = ui)
    /\ (scenes (app ui) <> [] ->
        youtubeTitleLoading (flags title) = false
        /\ ((exists t, t <> "" /\ youtubeTitle (app title) = JStr t /\ error title = JNull)
            \/ (truthy (error title) = true /\ app title = app ui))
        /\ youtubeDescriptionLoading (flags desc) = false
        /\ ((exists d, youtubeDescription (app desc) = JStr d /\ error desc = JNull)
            \/ (truthy (error desc) = true /\ app desc = app ui))
        /\ youtubeThumbnailLoading (flags thumb) = false
        /\ ((exists blob, youtubeThumbnailBlob (app thumb) = Some blob /\ error thumb = JNull)
            \/ (truthy (error thumb) = true /\ app thumb = app ui)))
    /\ scenes (app title) = scenes (app ui)
    /\ scenes (app desc) = scenes (app ui)
    /\ scenes (app thumb) = scenes (app ui).
Proof.
  intros svc modelId ui title desc thumb. subst title desc thumb.
  unfold handleGenerateYouTubeTitle, handleGenerateYouTubeDescription,
    handleGenerateYouTubeThumbnail.
  destruct (scenes (app ui)) as [|s l] eqn:Hscenes.
  { simpl. split; [intros _; repeat split|].
    split; [intros Hne; now contradiction Hne | repeat split; exact Hscenes]. }
  rewrite (scriptSummary_not_blank (s :: l)) by discriminate.
  destruct (generateYouTubeTitle _ _ _ _ _) as [t|e1] eqn:Htitle;
    destruct (generateYouTubeDescription _ _ _ _ _) as [d|e2];
    destruct (generateYouTubeThumbnail _ _ _ _ _ _) as [b|e3]; simpl;
    (split; [discriminate|]); (split; [|rewrite Hscenes; repeat split]); intros _;
    repeat match goal with
           | |- _ /\ _ => split
           | |- false = false => reflexivity
           end;
    try (right; split; [now apply messageOr_truthy | reflexivity]);
    try (left; eexists; split; reflexivity).
  all: left; exists t; repeat split; now apply generateYouTubeTitle_not_empty in Htitle.
Qed.

(** ** The chat turn of the application *)



Lemma foldMState_agrees {A B : Type} (f : A -> B -> Completion A) (l : list B) (a : A) :
  match foldMState f a l with
  | (a', None) => foldM f a l = Normal a'
  | (_, Some e) => foldM f a l = Throw e
  end.
Proof.
  revert a. induction l as [|x l IH]; intros a; simpl; [reflexivity|].
  destruct (f a x) as [a'|e]; simpl; [apply IH | reflexivity].
Qed.

(** The turn with the state it ends in gives the result of
    [sendAssistantMessage], and the same state when the turn completes. *)
Lemma turnFromResponse_agrees {H : Type} (JSON_parse : string -> Completion JsVal)
    (cb : Callbacks H) (gen : nat -> string -> list Blob -> string -> Completion Blob)
    (scenes0 : list Scene) (response : Response) (h : H) :
  match turnFromResponse JSON_parse cb gen scenes0 response h with
  | (h', Normal r) => sendAssistantMessage JSON_parse cb gen scenes0 response h = Normal (h', r)
  | (_, Throw e) => sendAssistantMessage JSON_parse cb gen scenes0 response h = Throw e
  end.
Proof.
  unfold turnFromResponse, sendAssistantMessage.
  destruct (functionCallsOf response) as [|fc calls].
  - destruct (tryParseScriptFromText JSON_parse (textOf response)) as [parsed|].
    + destruct (onScript cb parsed h) as [h1|e]; simpl; [|reflexivity].
      destruct (optCall (onChunk cb) scriptSentence h1); reflexivity.
    + destruct (optCall (onChunk cb) (textOf response) h); reflexivity.
  - unfold dispatch, dispatchFrom.
    pose proof (foldMState_agrees (dispatchCall cb gen scenes0) (fc :: calls)
                  (mkDispatch h "" 0)) as Hfold.
    destruct (foldMState _ _ _) as [st [e|]]; rewrite Hfold; simpl; [reflexivity|].
    destruct (optCall (onChunk cb) (confirmText st) (host st)); reflexivity.
Qed.

Section ChatTurn.

Variable svc : Services.

Local Abbreviation callbacks := (appCallbacks (stringToNumberOf svc) (projectNameNow svc)).








End ChatTurn.


(** ** Assembly, anchors and the script of the assistant *)

Lemma filter_length_all {A : Type} (f : A -> bool) (l : list A) :
  length (List.filter f l) = length l <-> Forall (fun x => f x = true) l.
Proof.
  induction l as [|x l IH]; simpl.
  - split; [constructor | reflexivity].
  - pose proof (filter_length_le f l) as Hle. destruct (f x) eqn:E; simpl.
    + split.
      * intros [= Hlen]. constructor; [exact E | now apply IH].
      * intros Hall. inversion Hall; subst. f_equal. now apply IH.
    + split; [lia|]. intros Hall. inversion Hall; congruence.
Qed.

Lemma reportProgress_frame (updates : list (Progress * option AssembleStatus)) (ui : Ui) :
  let ui' := fold_left reportProgress updates ui in
  app ui' = app ui /\ settings ui' = settings ui /\ flags ui' = flags ui
  /\ error ui' = error ui /\ outputBlob ui' = outputBlob ui
  /\ assistantChat ui' = assistantChat ui.
Proof.
  revert ui. induction updates as [|[p status] updates IH]; intros ui; simpl.
  - repeat split.
  - destruct (IH (reportProgress ui (p, status))) as (H1 & H2 & H3 & H4 & H5 & H6).
    rewrite H1, H2, H3, H4, H5, H6. unfold reportProgress. simpl.
    destruct status; repeat split.
Qed.

(** X14. Assembling the video, [handleAssemble].  When a scene lacks its
    image or its audio the handler only sets the error banner: the
    assembler is not called and progress, status and output stay as they
    were.  When every scene has both (in particular for an empty script)
    the assembler runs on the script and the subtitle setting, and the
    handler ends with the output stored, progress 1, the status reset to
    the number of scenes and no error, or, when the assembler throws, with
    the previous output, no progress, a status of 0 scenes and a message in
    the error banner.  The script, the settings and the busy flags are
    never changed. *)
Theorem handleAssemble_needs_all_media :
  forall (svc : Services) (ui : Ui),
    let ui' := handleAssemble svc ui in
    let all := scenes (app ui) in
    (Exists (fun s => imageBlob s = None \/ audioBlob s = None) all ->
     ui' = setError (JStr "Generate images and audio for all scenes first") ui)
    /\ (Forall (fun s => imageBlob s <> None /\ audioBlob s <> None) all ->
        (forall blob,
            snd (assembleVideo svc all (includeSubtitles (settings ui))) = Normal blob ->
            outputBlob ui' = Some blob
            /\ assembleProgress ui' = Some ProgressOne
            /\ assembleStatus ui' = {| currentScene := None; totalScenes := length all |}
            /\ error ui' = JNull)
        /\ (forall err,
               snd (assembleVideo svc all (includeSubtitles (settings ui))) = Throw err ->
               outputBlob ui' = outputBlob ui
               /\ assembleProgress ui' = None
               /\ assembleStatus ui' = {| currentScene := None; totalScenes := 0 |}
               /\ truthy (error ui') = true))
    /\ app ui' = app ui /\ settings ui' = settings ui /\ flags ui' = flags ui.
Proof.
  intros svc ui ui' all. subst ui' all. unfold handleAssemble.
  destruct (Nat.eqb_spec (length (List.filter bothBlobs (scenes (app ui))))
              (length (scenes (app ui)))) as [Hready|Hmissing]; simpl negb; cbv iota.
  - apply filter_length_all in Hready.
    destruct (assembleVideo svc (scenes (app ui)) (includeSubtitles (settings ui)))
      as [updates result] eqn:Hrun.
    match goal with
    | |- context [fold_left reportProgress updates ?u] =>
        destruct (reportProgress_frame updates u) as (H1 & H2 & H3 & H4 & H5 & H6)
    end.
    split; [|split].
    + intros Hex. exfalso. apply Exists_exists in Hex as (s & Hin & Hs).
      rewrite Forall_forall in Hready. specialize (Hready s Hin).
      unfold bothBlobs in Hready. apply andb_prop in Hready as [Hi Ha].
      destruct Hs as [Hs|Hs]; rewrite Hs in *; discriminate.
    + intros _. simpl snd. split.
      * intros blob ->. simpl. rewrite H4. repeat split.
      * intros err ->. simpl. rewrite H5. repeat split. now apply messageOr_truthy.
    + destruct result; simpl; rewrite H1, H2, H3; repeat split.
  - split; [|split].
    + reflexivity.
    + intros Hall. exfalso. apply Hmissing. apply filter_length_all.
      eapply Forall_impl; [exact Hall|]. intros s [Hi Ha]. unfold bothBlobs.
      destruct (imageBlob s); [|contradiction]. destruct (audioBlob s); [|contradiction].
      reflexivity.
    + repeat split.
Qed.

(** X15. Choosing or clearing an anchor image, [handleAnchorChange]: the
    slot at the index holds the file afterwards (none when it was cleared);
    every other slot that existed keeps its content; an index past the end
    extends the list up to that index, the slots in between being empty;
    nothing else of the application changes. *)
Theorem handleAnchorChange_sets_one_slot :
  forall (index : nat) (file : option Blob) (ui : Ui),
    let prev := anchorImages (settings ui) in
    let ui' := handleAnchorChange index file ui in
    let next := anchorImages (settings ui') in
    next !! index = Some file
    /\ (forall i, i <> index -> (i < length prev)%nat -> next !! i = prev !! i)
    /\ (forall i, (length prev <= i < index)%nat -> next !! i = Some None)
    /\ length next = Nat.max (length prev) (S index)
    /\ app ui' = app ui /\ flags ui' = flags ui /\ error ui' = error ui
    /\ setAnchorImages prev (settings ui') = settings ui.
Proof.
  intros index file ui prev ui' next. subst ui' next. unfold handleAnchorChange. simpl.
  fold prev. unfold assignAt.
  destruct (Nat.ltb_spec index (length prev)) as [Hin|Hout].
  - split; [now apply list_lookup_insert_eq|].
    split; [intros i Hi _; now apply list_lookup_insert_ne|].
    split; [intros i Hi; lia|].
    split; [rewrite length_insert; lia|].
    repeat split. subst prev. now destruct (settings ui).
  - split.
    { rewrite lookup_app_r by exact Hout. rewrite lookup_app_r; rewrite length_replicate;
        [|lia]. now rewrite Nat.sub_diag. }
    split; [intros i Hi Hlt; now rewrite lookup_app_l|].
    split.
    { intros i Hi. rewrite lookup_app_r by lia. rewrite lookup_app_l;
        [|rewrite length_replicate; lia]. apply lookup_replicate_2. lia. }
    split; [rewrite !length_app, length_replicate; simpl; lia|].
    repeat split. subst prev. now destruct (settings ui).
Qed.

Lemma mapM_initialScene_total (items : list JsVal) :
  Forall (fun item => nullish item = false) items ->
  exists normalized, mapM initialScene items = Normal normalized.
Proof.
  induction 1 as [|item items Hitem _ [normalized IH]]; simpl; [eauto|].
  rewrite (initialScene_Normal item Hitem). simpl. rewrite IH. simpl. eauto.
Qed.

(** X16. Taking a script from the assistant, [handleAssistantScript].  When
    [args.scenes] is an array without null or undefined items the script
    is replaced as a whole by one scene per item, none with an image or an
    audio, and the project is named; translations shown, title,
    description, thumbnail and conversation are kept.  An empty array
    therefore clears the script.  A null or undefined item makes the
    handler throw, and no state is produced.  When [args] is null or
    undefined, or [args.scenes] is not an array, the handler returns
    without any change. *)
Theorem handleAssistantScript_replaces_whole_script :
  forall (getProjectName : string) (args : JsVal) (st : AppState),
    (forall items,
        optProp args "scenes" = JArr items ->
        (Forall (fun item => nullish item = false) items ->
         exists normalized,
           mapM initialScene items = Normal normalized
           /\ handleAssistantScript getProjectName args st
              = Normal {| scenes := normalized;
                          projectName := Some getProjectName;
                          showTranslated := showTranslated st;
                          youtubeTitle := youtubeTitle st;
                          youtubeDescription := youtubeDescription st;
                          youtubeThumbnailBlob := youtubeThumbnailBlob st;
                          chatMessages := chatMessages st |}
           /\ length normalized = length items
           /\ Forall (fun s => imageBlob s = None /\ audioBlob s = None) normalized)
        /\ (Exists (fun item => nullish item = true) items ->
            exists err, handleAssistantScript getProjectName args st = Throw err))
    /\ (isArray (optProp args "scenes") = false ->
        handleAssistantScript getProjectName args st = Normal st).
Proof.
  intros getProjectName args st. unfold handleAssistantScript. split.
  - intros items ->. split.
    + intros Hitems. destruct (mapM_initialScene_total items Hitems) as [normalized Hnorm].
      exists normalized. rewrite Hnorm. simpl.
      destruct (mapM_initialScene_no_media _ _ Hnorm) as (Hlen & Hmedia & _).
      repeat split; assumption.
    + intros Hnull. apply mapM_initialScene_null in Hnull as [err ->]. simpl. eauto.
  - destruct (optProp args "scenes"); try reflexivity. discriminate.
Qed.

(** A script of one scene replaces a script whose scene had an image; an
    empty array clears the script. *)
Lemma handleAssistantScript_replaces_whole_script_witness :
  let st := {| scenes := [mkScene (JNum 1) (JStr "old") (JStr "old") (JStr "")
                            (Some (BlobHandle 1)) None];
               projectName := None; showTranslated := true; youtubeTitle := JStr "t";
               youtubeDescription := JStr ""; youtubeThumbnailBlob := None;
               chatMessages := [] |} in
  (exists normalized,
      mapM initialScene [JObj [("description", JStr "a cat")]] = Normal normalized
      /\ handleAssistantScript "video"
           (JObj [("scenes", JArr [JObj [("description", JStr "a cat")]])]) st
         = Normal {| scenes := normalized; projectName := Some "video";
                     showTranslated := true; youtubeTitle := JStr "t";
                     youtubeDescription := JStr ""; youtubeThumbnailBlob := None;
                     chatMessages := [] |}
      /\ length normalized = 1%nat
      /\ Forall (fun s => imageBlob s = None /\ audioBlob s = None) normalized)
  /\ handleAssistantScript "video" (JObj [("scenes", JStr "none")]) st = Normal st.
Proof.
  intros st. split.
  - apply (proj1 (proj1 (handleAssistantScript_replaces_whole_script "video"
                           (JObj [("scenes", JArr [JObj [("description", JStr "a cat")]])]) st)
                    [JObj [("description", JStr "a cat")]] eq_refl)).
    repeat constructor.
  - apply (proj2 (handleAssistantScript_replaces_whole_script "video"
                    (JObj [("scenes", JStr "none")]) st)).
    reflexivity.
Defined.

(** ** Code fences and the prompt of the script *)

Lemma prefix_cons_ne (a b : ascii) (s t : string) :
  a <> b -> String.prefix (String a s) (String b t) = false.
Proof. intros Hab. cbn [String.prefix]. destruct (ascii_dec a b); [contradiction | reflexivity]. Qed.

Lemma prefix_cons_eq (a : ascii) (s t : string) :
  String.prefix (String a s) (String a t) = String.prefix s t.
Proof. cbn [String.prefix]. destruct (ascii_dec a a); [reflexivity | contradiction]. Qed.

Lemma prefix_nil (s : string) : String.prefix "" s = true.
Proof. now destruct s. Qed.

Lemma prefix_append (s t : string) : String.prefix s (s ++ t) = true.
Proof.
  induction s as [|c s IH]; [apply prefix_nil|].
  change (String c s ++ t) with (String c (s ++ t)). now rewrite prefix_cons_eq.
Qed.

Lemma isBacktick_false (c : ascii) : isBacktick c = false -> "`"%char <> c.
Proof. intros Hc Heq. subst c. discriminate. Qed.

Lemma fenceAt_no_backtick (c d : ascii) (rest : string) :
  isBacktick c = false -> isBacktick d = false ->
  fenceAt (String c (String d rest)) = 0%nat /\ fenceAt (String c "") = 0%nat.
Proof.
  intros Hc Hd. apply isBacktick_false in Hc, Hd. unfold fenceAt, LF. cbn [append].
  rewrite !(prefix_cons_ne "`" c) by exact Hc.
  destruct (ascii_dec (ascii_of_nat 10) c) as [<-|Hnl].
  - rewrite !prefix_cons_eq. rewrite (prefix_cons_ne "`" d) by exact Hd.
    split; reflexivity.
  - rewrite !(prefix_cons_ne (ascii_of_nat 10) c) by exact Hnl. split; reflexivity.
Qed.

Lemma stripFencesFrom_plain (s t : string) :
  occurs isBacktick s = false ->
  match t with
  | EmptyString => True
  | String d _ => isBacktick d = false
  end ->
  stripFencesFrom 0 (s ++ t) = s ++ stripFencesFrom 0 t.
Proof.
  intros Hs Ht. induction s as [|c s IH]; [reflexivity|].
  simpl in Hs. apply orb_false_elim in Hs as [Hc Hs].
  change (String c s ++ t) with (String c (s ++ t)).
  cbn [stripFencesFrom].
  assert (Hfence : fenceAt (String c (s ++ t)) = 0%nat).
  { destruct s as [|d s]; simpl append.
    - destruct t as [|d t]; [now apply (fenceAt_no_backtick c c "")|].
      now apply fenceAt_no_backtick.
    - simpl in Hs. apply orb_false_elim in Hs as [Hd _]. now apply fenceAt_no_backtick. }
  rewrite Hfence. simpl. f_equal. now apply IH.
Qed.

Lemma stripFencesFrom_end (s : string) : s ++ stripFencesFrom 0 "" = s.
Proof. simpl. induction s as [|c s IH]; simpl; [reflexivity | now rewrite IH]. Qed.

(** X17. Stripping the code fences, as [generateScenes],
    [translateNarrationsBatch] and [tryParseScriptFromText] do before they
    parse: a text without a backquote comes out unchanged, and a text
    without a backquote that is wrapped in a json fence, with its line
    feeds, comes out as the text itself, so that the fenced and the bare
    answer are parsed alike.  After a plain fence the line feed that
    follows the opening fence is left, for the trim that comes next. *)
Theorem stripFences_unwraps_fenced_text :
  forall body : string,
    occurs isBacktick body = false ->
    stripFences body = body
    /\ stripFences ("```json" ++ LF ++ body ++ LF ++ "```") = body
    /\ stripFences ("```" ++ LF ++ body ++ LF ++ "```") = LF ++ body.
Proof.
  intros body Hbody. unfold stripFences.
  assert (Hclose : stripFencesFrom 0 (body ++ LF ++ "```") = body).
  { rewrite (stripFencesFrom_plain body (LF ++ "```") Hbody eq_refl).
    change (stripFencesFrom 0 (LF ++ "```")) with "". clear.
    induction body as [|c s IH]; simpl; [reflexivity | now rewrite IH]. }
  split; [|split].
  - rewrite <- (stripFencesFrom_end body) at 2.
    rewrite <- (stripFencesFrom_plain body "" Hbody I).
    f_equal. clear. induction body as [|c s IH]; simpl; [reflexivity | now rewrite <- IH].
  - assert (Hfence : fenceAt ("```json" ++ LF ++ body ++ LF ++ "```") = 8%nat).
    { unfold fenceAt.
      rewrite (prefix_append "```json" (LF ++ body ++ LF ++ "```")).
      change ("```json" ++ LF ++ body ++ LF ++ "```")
        with (("```json" ++ LF) ++ body ++ LF ++ "```").
      now rewrite prefix_append. }
    change ("```json" ++ LF ++ body ++ LF ++ "```")
      with (String "`" (String "`" (String "`" (String "j" (String "s" (String "o"
             (String "n" (String (ascii_of_nat 10) (body ++ LF ++ "```"))))))))) in *.
    cbn [stripFencesFrom]. rewrite Hfence. exact Hclose.
  - assert (Hfence : fenceAt ("```" ++ LF ++ body ++ LF ++ "```") = 3%nat).
    { unfold fenceAt, LF. cbn [append].
      rewrite !prefix_cons_eq.
      rewrite (prefix_cons_ne "j" (ascii_of_nat 10)) by discriminate.
      rewrite (prefix_cons_ne (ascii_of_nat 10) "`") by discriminate.
      now rewrite prefix_nil. }
    change ("```" ++ LF ++ body ++ LF ++ "```")
      with (String "`" (String "`" (String "`"
             (String (ascii_of_nat 10) (body ++ LF ++ "```"))))) in *.
    cbn [stripFencesFrom]. rewrite Hfence.
    assert (Hline : fenceAt (String (ascii_of_nat 10) (body ++ LF ++ "```")) = 0%nat).
    { destruct body as [|d s]; [reflexivity|].
      simpl in Hbody. apply orb_false_elim in Hbody as [Hd _].
      now apply (fenceAt_no_backtick (ascii_of_nat 10) d). }
    rewrite Hline. change (LF ++ body) with (String (ascii_of_nat 10) body).
    f_equal. exact Hclose.
Qed.

(** A fenced answer of the translator. *)
Lemma stripFences_unwraps_fenced_text_witness :
  stripFences ("```json" ++ LF ++ "[1, 2]" ++ LF ++ "```") = "[1, 2]".
Proof.
  exact (proj1 (proj2 (stripFences_unwraps_fenced_text "[1, 2]" eq_refl))).
Defined.

Lemma append_nil_r (s : string) : s ++ "" = s.
Proof. induction s as [|c s IH]; simpl; [reflexivity | now rewrite IH]. Qed.

Lemma expandReplacement_plain (matched before after replacement : string) :
  occurs isDollar replacement = false ->
  expandReplacement matched before after replacement = replacement.
Proof.
  induction replacement as [|c r IH]; simpl; [reflexivity|].
  intros Hocc. apply orb_false_elim in Hocc as [Hc Hr]. unfold isDollar in Hc.
  rewrite Hc. f_equal. now apply IH.
Qed.

Lemma replaceIdeaFrom_skip (s : string) :
  forall (before t replacement : string),
    replaceIdeaFrom (String.length s) before (s ++ t) replacement
    = replaceIdeaFrom 0 (before ++ s) t replacement.
Proof.
  induction s as [|c s IH]; intros before t replacement.
  - simpl. now rewrite append_nil_r.
  - change (String c s ++ t) with (String c (s ++ t)). cbn [String.length replaceIdeaFrom].
    rewrite IH. f_equal. now rewrite append_assoc.
Qed.

Lemma replaceIdeaFrom_plain (post : string) :
  forall before replacement,
    includes MOVIE_IDEA post = false ->
    replaceIdeaFrom 0 before post replacement = post.
Proof.
  induction post as [|c post IH]; intros before replacement Hinc; [reflexivity|].
  cbn [includes] in Hinc. apply orb_false_elim in Hinc as [Hhere Hrest].
  cbn [replaceIdeaFrom]. rewrite Hhere. f_equal. now apply IH.
Qed.

Lemma substring_all (s : string) : String.substring 0 (String.length s) s = s.
Proof. induction s as [|c s IH]; simpl; [reflexivity | now rewrite IH]. Qed.

Lemma substring_after (a b : string) :
  String.substring (String.length a) (String.length (a ++ b) - String.length a) (a ++ b) = b.
Proof.
  rewrite append_length. replace (String.length a + String.length b - String.length a)%nat
    with (String.length b) by lia.
  induction a as [|c a IH]; simpl; [apply substring_all | exact IH].
Qed.

Lemma noPlaceholderStart_cons (c : ascii) (u rest : string) :
  noPlaceholderStart (String c u) = true ->
  String.prefix MOVIE_IDEA (String c u ++ MOVIE_IDEA ++ rest) = false
  /\ noPlaceholderStart u = true.
Proof.
  unfold noPlaceholderStart. intros Hclean. apply negb_true_iff in Hclean.
  change (String c u ++ "{") with (String c (u ++ "{")) in Hclean.
  cbn [includes] in Hclean. apply orb_false_elim in Hclean as [Hhere Hrest].
  split; [|now rewrite Hrest].
  change (String c u ++ MOVIE_IDEA ++ rest) with (String c (u ++ MOVIE_IDEA ++ rest)).
  unfold MOVIE_IDEA.
  destruct (ascii_dec "{" c) as [<-|Hc]; [|now apply prefix_cons_ne].
  rewrite prefix_cons_eq in Hhere |- *.
  destruct u as [|d u].
  - simpl in Hhere. discriminate.
  - change (String d u ++ "{") with (String d (u ++ "{")) in Hhere.
    change (String d u ++ "{{MOVIE_IDEA}}" ++ rest)
      with (String d (u ++ "{{MOVIE_IDEA}}" ++ rest)).
    destruct (ascii_dec "{" d) as [<-|Hd]; [|now apply prefix_cons_ne].
    rewrite prefix_cons_eq, prefix_nil in Hhere. discriminate.
Qed.

Lemma replaceIdeaFrom_single (pre post replacement : string) :
  forall before,
    noPlaceholderStart pre = true ->
    includes MOVIE_IDEA post = false ->
    replaceIdeaFrom 0 before (pre ++ MOVIE_IDEA ++ post) replacement
    = pre ++ expandReplacement MOVIE_IDEA (before ++ pre) post replacement ++ post.
Proof.
  induction pre as [|c pre IH]; intros before Hpre Hpost.
  - change ("" ++ MOVIE_IDEA ++ post) with (String "{" ("{MOVIE_IDEA}}" ++ post)).
    cbn [replaceIdeaFrom].
    change (String "{" ("{MOVIE_IDEA}}" ++ post)) with (MOVIE_IDEA ++ post).
    rewrite prefix_append.
    change 14%nat with (String.length MOVIE_IDEA).
    rewrite substring_after.
    change 13%nat with (String.length "{MOVIE_IDEA}}").
    rewrite replaceIdeaFrom_skip, append_nil_r.
    rewrite (replaceIdeaFrom_plain post _ _ Hpost). reflexivity.
  - destruct (noPlaceholderStart_cons c pre post Hpre) as [Hhere Hrest].
    change (String c pre ++ MOVIE_IDEA ++ post) with (String c (pre ++ MOVIE_IDEA ++ post)) in *.
    cbn [replaceIdeaFrom]. rewrite Hhere.
    rewrite (IH _ Hrest Hpost). rewrite append_assoc. reflexivity.
Qed.

(** X18. The prompt of [generateScenes] for a template with one placeholder
    (the text before it has no two opening braces in a row and does not end
    with one).  The placeholder is replaced by the trimmed idea read as a
    replacement pattern of [String.prototype.replace]: an idea without a
    dollar sign is inserted as it is, and the model is consulted on that
    prompt only; but the idea [$$] is inserted as one dollar sign, and the
    idea [$&] puts the placeholder back.  Without a key nothing is asked. *)
Theorem generateScenes_prompt :
  forall (JSON_parse : string -> Completion JsVal)
         (gen gen' : string -> Completion (option string))
         (pre post movieIdea : string),
    noPlaceholderStart pre = true ->
    includes MOVIE_IDEA post = false ->
    let template := pre ++ MOVIE_IDEA ++ post in
    replaceIdea template (trim movieIdea)
    = pre ++ expandReplacement MOVIE_IDEA pre post (trim movieIdea) ++ post
    /\ (occurs isDollar (trim movieIdea) = false ->
        replaceIdea template (trim movieIdea) = pre ++ trim movieIdea ++ post
        /\ (gen (pre ++ trim movieIdea ++ post) = gen' (pre ++ trim movieIdea ++ post) ->
            generateScenes JSON_parse true (Normal template) gen movieIdea
            = generateScenes JSON_parse true (Normal template) gen' movieIdea))
    /\ replaceIdea template "$$" = pre ++ "$" ++ post
    /\ replaceIdea template "$&" = template
    /\ generateScenes JSON_parse false (Normal template) gen movieIdea
       = Throw (mkError "API key not configured").
Proof.
  intros JSON_parse gen gen' pre post movieIdea Hpre Hpost template. subst template.
  assert (Hreplace : forall r, replaceIdea (pre ++ MOVIE_IDEA ++ post) r
                               = pre ++ expandReplacement MOVIE_IDEA pre post r ++ post).
  { intros r. unfold replaceIdea. now rewrite (replaceIdeaFrom_single pre post r "" Hpre Hpost). }
  split; [apply Hreplace|]. split; [|split; [|split]].
  - intros Hplain.
    assert (Hprompt : replaceIdea (pre ++ MOVIE_IDEA ++ post) (trim movieIdea)
                      = pre ++ trim movieIdea ++ post).
    { now rewrite Hreplace, expandReplacement_plain. }
    split; [exact Hprompt|]. intros Hagree. unfold generateScenes.
    change (negb true) with false. cbv iota.
    change (mbind ?k (Normal ?t)) with (k t). cbv beta zeta.
    now rewrite Hprompt, Hagree.
  - rewrite Hreplace. reflexivity.
  - rewrite Hreplace. cbn [expandReplacement]. simpl Nat.eqb. cbv iota.
    now rewrite append_nil_r.
  - reflexivity.
Qed.

(** A template that quotes a JSON object before the placeholder, and an
    idea with a no-break space behind it. *)
Lemma generateScenes_prompt_witness :
  replaceIdea ("Return [{ sceneNumber }] for: " ++ MOVIE_IDEA ++ ".") (trim (" a cat" ++ NBSP))
  = "Return [{ sceneNumber }] for: a cat."
  /\ replaceIdea ("Return [{ sceneNumber }] for: " ++ MOVIE_IDEA ++ ".") "$$"
     = "Return [{ sceneNumber }] for: $.".
Proof.
  pose proof (generateScenes_prompt (fun _ => Normal JNull) (fun _ => Normal None)
                (fun _ => Normal None) "Return [{ sceneNumber }] for: " "." (" a cat" ++ NBSP)
                eq_refl eq_refl) as (_ & Hplain & Hdollar & _).
  split; [exact (proj1 (Hplain eq_refl)) | exact Hdollar].
Defined.

(** ** The thumbnail requests of a chat turn *)




Section ThumbnailRequests.

Context {H : Type}.
Variable cb : Callbacks H.
Variables gen gen' : nat -> string -> list Blob -> string -> Completion Blob.
Variable scenes0 : list Scene.




End ThumbnailRequests.



(** ** The metadata panel and the effects of a turn that fails *)

(** X20. The button of the metadata panel, [handleGenerateThumbnail] of
    [YouTubeMetadata], in front of [handleGenerateYouTubeThumbnail]: the
    panel reduces the selected model to 'expensive' or 'cheap' and the
    handler maps that to a model id, and the two steps together ask the
    model the handler would ask for the selection itself: the pro model
    exactly when the selection is 'expensive', the flash model for any
    other value. *)
Theorem thumbnail_click_model :
  forall (svc : Services) (thumbnailModel : string) (ui : Ui),
    clickGenerateThumbnail svc thumbnailModel ui
    = handleGenerateYouTubeThumbnail svc thumbnailModel ui
    /\ (thumbnailModelOf (thumbnailChoice thumbnailModel) = "gemini-3-pro-image-preview"
        <-> thumbnailModel = "expensive")
    /\ (thumbnailModelOf (thumbnailChoice thumbnailModel) = "gemini-2.5-flash-image"
        <-> thumbnailModel <> "expensive").
Proof.
  intros svc thumbnailModel ui.
  assert (Hmodel : thumbnailModelOf (thumbnailChoice thumbnailModel)
                   = thumbnailModelOf thumbnailModel).
  { unfold thumbnailChoice, thumbnailModelOf.
    destruct (String.eqb_spec thumbnailModel "expensive"); reflexivity. }
  split; [|split].
  - unfold clickGenerateThumbnail, handleGenerateYouTubeThumbnail. now rewrite Hmodel.
  - rewrite Hmodel. unfold thumbnailModelOf.
    destruct (String.eqb_spec thumbnailModel "expensive"); split; intros; congruence.
  - rewrite Hmodel. unfold thumbnailModelOf.
    destruct (String.eqb_spec thumbnailModel "expensive"); split; intros; congruence.
Qed.

Lemma foldMState_throw {A B : Type} (f : A -> B -> Completion A) (before : list B) (x : B)
    (after : list B) (a st : A) (e : JsVal) :
  foldM f a before = Normal st ->
  f st x = Throw e ->
  foldMState f a (before ++ x :: after) = (st, Some e).
Proof.
  revert a. induction before as [|y before IH]; intros a; simpl.
  - intros [= ->] Hx. now rewrite Hx.
  - destruct (f a y) as [a'|e']; simpl; [apply IH | discriminate].
Qed.

(** X21. A turn whose dispatch loop is left by an exception.  When the
    calls before the throwing call have been dispatched, their effects on
    the host stay applied: the turn ends in the state they produced, with
    the exception of the throwing call, and without any confirmation being
    shown; the calls after it are never dispatched, so the outcome does not
    depend on them. *)
Theorem turn_keeps_effects_before_failure :
  forall (H : Type) (JSON_parse : string -> Completion JsVal) (cb : Callbacks H)
         (gen : nat -> string -> list Blob -> string -> Completion Blob)
         (scenes0 : list Scene) (response : Response) (h : H)
         (before : list JsVal) (bad : JsVal) (after : list JsVal)
         (st : Dispatch H) (e : JsVal),
    functionCallsOf response = (before ++ bad :: after)%list ->
    dispatch cb gen scenes0 before h = Normal st ->
    dispatchCall cb gen scenes0 st bad = Throw e ->
    turnFromResponse JSON_parse cb gen scenes0 response h = (host st, Throw e)
    /\ sendAssistantMessage JSON_parse cb gen scenes0 response h = Throw e.
Proof.
  intros H JSON_parse cb gen scenes0 response h before bad after st e Hcalls Hbefore Hbad.
  assert (Hturn : turnFromResponse JSON_parse cb gen scenes0 response h = (host st, Throw e)).
  { unfold turnFromResponse. rewrite Hcalls.
    destruct (before ++ bad :: after)%list as [|fc calls] eqn:Hlist.
    { destruct before; discriminate. }
    rewrite <- Hlist.
    now rewrite (foldMState_throw _ before bad after _ st e Hbefore Hbad). }
  split; [exact Hturn|].
  pose proof (turnFromResponse_agrees JSON_parse cb gen scenes0 response h) as Hagree.
  now rewrite Hturn in Hagree.
Qed.

(** A title followed by a script with a null scene and by a description:
    the title is set, the turn throws, the description is not. *)
Lemma turn_keeps_effects_before_failure_witness :
  let cb := appCallbacks (fun _ => None) "video" in
  let gen := fun (n : nat) (_ : string) (_ : list Blob) (_ : string) => Normal (BlobHandle n) in
  let a := mkAppState [] None false (JStr "") (JStr "") None [] in
  let title := JObj [("name", JStr "generateYouTubeTitle");
                     ("args", JObj [("title", JStr "Cats")])] in
  let script := JObj [("name", JStr "generateMovieScript");
                      ("args", JObj [("scenes", JArr [JNull])])] in
  let desc := JObj [("name", JStr "generateYouTubeDescription");
                    ("args", JObj [("description", JStr "About cats")])] in
  let e := typeError "Cannot read properties of null (reading 'sceneNumber')" in
  turnFromResponse (fun _ => Normal JNull) cb gen []
    (mkResponse (Some [title; script; desc]) None) a
  = (setYoutubeTitle (JStr "Cats") a, Throw e)
  /\ sendAssistantMessage (fun _ => Normal JNull) cb gen []
       (mkResponse (Some [title; script; desc]) None) a
     = Throw e.
Proof.
  intros cb gen a title script desc e.
  exact (turn_keeps_effects_before_failure AppState (fun _ => Normal JNull) cb gen []
           (mkResponse (Some [title; script; desc]) None) a [title] script [desc]
           (mkDispatch (setYoutubeTitle (JStr "Cats") a) titleSentence 0) e
           eq_refl eq_refl eq_refl).
Defined.

(** ** The handlers on an example *)


(** The translator answers [[1]] for the one narration: the scene gets the
    string 1. *)
Lemma handleTranslateAllNarrations_all_or_nothing_witness :
  translating (flags (handleTranslateAllNarrations demoServices demoUi)) = false
  /\ map narrationTranslated (scenes (app (handleTranslateAllNarrations demoServices demoUi)))
     = [JStr "1"].
Proof.
  split; [|reflexivity].
  refine (proj1 (proj1 (proj2 (handleTranslateAllNarrations_all_or_nothing demoServices demoUi))
                   _)).
  apply Exists_cons_hd. reflexivity.
Defined.

(** The generator answers [[1]]: the script becomes one scene without
    media, although the scene before had both.  An idea made of a no-break
    space is blank, and nothing happens. *)
Lemma handleGenerateScenes_all_or_nothing_witness :
  let blankIdea :=
    withSettings (fun s => {| movieIdea := NBSP; anchorImages := anchorImages s;
                              imageModel := imageModel s; voiceProvider := voiceProvider s;
                              voice := voice s; elevenLabsVoiceId := elevenLabsVoiceId s;
                              translationLanguage := translationLanguage s;
                              includeSubtitles := includeSubtitles s |}) demoUi in
  loading (flags (handleGenerateScenes demoServices demoUi)) = false
  /\ map imageBlob (scenes (app (handleGenerateScenes demoServices demoUi))) = [None]
  /\ error (handleGenerateScenes demoServices demoUi) = JNull
  /\ handleGenerateScenes demoServices blankIdea = blankIdea.
Proof.
  intros blankIdea.
  split; [|split; [reflexivity | split; [reflexivity|]]].
  - refine (proj1 (proj1 (proj2 (handleGenerateScenes_all_or_nothing demoServices demoUi)) _)).
    vm_compute. discriminate.
  - exact (proj1 (handleGenerateScenes_all_or_nothing demoServices blankIdea) eq_refl).
Defined.

(** The title is stored without its surrounding blanks. *)
Lemma youtube_handlers_need_a_script_witness :
  youtubeTitleLoading (flags (handleGenerateYouTubeTitle demoServices demoUi)) = false
  /\ youtubeTitle (app (handleGenerateYouTubeTitle demoServices demoUi)) = JStr "Cats".
Proof.
  split; [|reflexivity].
  refine (proj1 (proj1 (proj2 (youtube_handlers_need_a_script demoServices "cheap" demoUi)) _)).
  discriminate.
Defined.


(** Every scene has its image and its audio: the output is stored. *)
Lemma handleAssemble_needs_all_media_witness :
  outputBlob (handleAssemble demoServices demoUi) = Some (BlobHandle 9)
  /\ assembleProgress (handleAssemble demoServices demoUi) = Some ProgressOne
  /\ assembleStatus (handleAssemble demoServices demoUi)
     = {| currentScene := None; totalScenes := 1 |}
  /\ error (handleAssemble demoServices demoUi) = JNull.
Proof.
  refine (proj1 (proj1 (proj2 (handleAssemble_needs_all_media demoServices demoUi)) _)
            (BlobHandle 9) eq_refl).
  repeat constructor; discriminate.
Defined.
